(** * Tide-table pipeline of week02: extractor and reshaper

    A shallow embedding of [week02/parse_hko_tables.py] (the table
    extractor) and of [week02/reshape_and_plot.py] (the wide-to-long
    reshaper), with the properties of both stages stated and proved
    over the embedding.

    Conventions.
    - A Python [str] is a list of code points; one [ascii] is one code
      point in the range 0..255 (Latin-1), so ['\xa0'] is [ascii_of_nat 160].
    - Python integers are unbounded: [Z].
    - [float(s)] is kept as the decimal value the text denotes
      ([pyfloat]); the rounding to a binary64 is not part of the model.
    - Exceptions are explicit: a computation returns [Ok v] or
      [Raise e].
    - [sort_values('datetime')] is the sort pandas runs when no [kind]
      is named: numpy's quicksort on the positions of the rows
      ([NpySort]), followed by [take]. *)

From Stdlib Require Import List ZArith Lia Bool Ascii.
From Stdlib Require String.
Import String.StringSyntax Ascii.AsciiSyntax.
From Stdlib Require Import Sorting.Sorted Sorting.Permutation Sorting.Mergesort Orders.
Import ListNotations.

Open Scope string_scope.
Open Scope list_scope.

(* ================================================================= *)
(** ** Python text primitives used by both scripts *)

Module PyStr.

Definition pystr := list ascii.

Definition lit (s : String.string) : pystr := String.list_ascii_of_string s.

Definition code (c : ascii) : nat := nat_of_ascii c.

(** [str.isspace] on one code point below 256: tab, LF, VT, FF, CR, the
    four separators 0x1c..0x1f, space, NEL (0x85) and the no-break space
    (0xa0). *)
Definition is_space (c : ascii) : bool :=
  let n := code c in
  ((9 <=? n) && (n <=? 13)) || ((28 <=? n) && (n <=? 32))
  || (n =? 133) || (n =? 160).

Definition is_digit (c : ascii) : bool :=
  let n := code c in (48 <=? n) && (n <=? 57).

Definition digit_val (c : ascii) : Z := (Z.of_nat (code c) - 48)%Z.

Definition nbsp : ascii := ascii_of_nat 160.
Definition space : ascii := ascii_of_nat 32.

(** [s.lstrip()], [s.rstrip()], [s.strip()] with no argument. *)
Fixpoint lstrip (s : pystr) : pystr :=
  match s with
  | c :: s' => if is_space c then lstrip s' else s
  | [] => []
  end.

Fixpoint rstrip (s : pystr) : pystr :=
  match s with
  | c :: s' =>
      match rstrip s' with
      | [] => if is_space c then [] else [c]
      | r => c :: r
      end
  | [] => []
  end.

Definition strip (s : pystr) : pystr := rstrip (lstrip s).

(** [s.replace(a, b)] for one-character [a] and [b]. *)
Definition replace (a b : ascii) (s : pystr) : pystr :=
  map (fun c => if Ascii.eqb c a then b else c) s.

(** [s.split()] with no argument: the maximal runs of non-whitespace.
    [cur] is the word being read, most recent character first. *)
Fixpoint split_from (cur : pystr) (s : pystr) : list pystr :=
  match s with
  | c :: s' =>
      if is_space c then
        match cur with
        | [] => split_from [] s'
        | _ => rev cur :: split_from [] s'
        end
      else split_from (c :: cur) s'
  | [] => match cur with [] => [] | _ => [rev cur] end
  end.

Definition split (s : pystr) : list pystr := split_from [] s.

(** [sep.join(words)]. *)
Fixpoint join (sep : pystr) (words : list pystr) : pystr :=
  match words with
  | [] => []
  | [w] => w
  | w :: ws => w ++ sep ++ join sep ws
  end.

(** [s.zfill(width)]: zeros on the left, after a leading sign. *)
Definition zfill (width : nat) (s : pystr) : pystr :=
  let pad := repeat (ascii_of_nat 48) (width - length s) in
  match s with
  | c :: s' =>
      if (code c =? 43) || (code c =? 45) then c :: pad ++ s' else pad ++ s
  | [] => pad
  end.

(** The longest prefix of the shape [digit (["_"] digit)*]: its digits
    (underscores dropped) and what follows it. *)
Fixpoint digitpart (s : pystr) : pystr * pystr :=
  match s with
  | c :: s' =>
      if is_digit c then
        match s' with
        | u :: ((d :: _) as s'') =>
            if (code u =? 95) && is_digit d
            then let (ds, r) := digitpart s'' in (c :: ds, r)
            else let (ds, r) := digitpart s' in (c :: ds, r)
        | _ => let (ds, r) := digitpart s' in (c :: ds, r)
        end
      else ([], s)
  | [] => ([], [])
  end.

Definition digits_value (ds : pystr) : Z :=
  fold_left (fun (acc : Z) d => (10 * acc + digit_val d)%Z) ds 0%Z.

(** An optional sign: [true] for ["-"]. *)
Definition take_sign (s : pystr) : bool * pystr :=
  match s with
  | c :: s' =>
      if code c =? 45 then (true, s')
      else if code c =? 43 then (false, s')
      else (false, s)
  | [] => (false, [])
  end.

(** The most digits [int] reads from a [str] before it refuses
    (CPython's default [sys.get_int_max_str_digits()]). *)
Definition int_max_str_digits : nat := 4300.

(** The white space [int] and [float] let go of at both ends of a
    [str]: tab, LF, VT, FF, CR, space, NEL and the no-break space.  The
    four separators 0x1c..0x1f, which [str.strip] removes, are not part
    of it: [int('\x1c3')] is a [ValueError]. *)
Definition is_number_space (c : ascii) : bool :=
  let n := code c in
  ((9 <=? n) && (n <=? 13)) || (n =? 32) || (n =? 133) || (n =? 160).

Fixpoint lstrip_number (s : pystr) : pystr :=
  match s with
  | c :: s' => if is_number_space c then lstrip_number s' else s
  | [] => []
  end.

Fixpoint rstrip_number (s : pystr) : pystr :=
  match s with
  | c :: s' =>
      match rstrip_number s' with
      | [] => if is_number_space c then [] else [c]
      | r => c :: r
      end
  | [] => []
  end.

Definition strip_number (s : pystr) : pystr := rstrip_number (lstrip_number s).

(** [int(s)] for a [str] argument (base 10): [None] stands for
    [ValueError]. *)
Definition py_int (s : pystr) : option Z :=
  let (neg, body) := take_sign (strip_number s) in
  match digitpart body with
  | ((_ :: _) as ds, []) =>
      if int_max_str_digits <? length ds then None
      else Some (if neg then (- digits_value ds)%Z else digits_value ds)
  | _ => None
  end.

(** The value of [float(s)]: the decimal [mant * 10^exp10] with its
    sign, an infinity, or not-a-number. *)
Inductive pyfloat : Type :=
| PyNan
| PyInf (neg : bool)
| PyDec (neg : bool) (mant : Z) (exp10 : Z).

Definition lower (c : ascii) : ascii :=
  let n := code c in
  if (65 <=? n) && (n <=? 90) then ascii_of_nat (n + 32) else c.

Definition pystr_eqb (a b : pystr) : bool :=
  String.eqb (String.string_of_list_ascii a) (String.string_of_list_ascii b).

Definition float_exponent (s : pystr) : option Z :=
  match s with
  | [] => Some 0%Z
  | e :: s' =>
      if code (lower e) =? 101 then
        let (neg, body) := take_sign s' in
        match digitpart body with
        | ((_ :: _) as ds, []) =>
            Some (if neg then (- digits_value ds)%Z else digits_value ds)
        | _ => None
        end
      else None
  end.

(** [float(s)] for a [str] argument: [None] stands for [ValueError]. *)
Definition py_float (s : pystr) : option pyfloat :=
  let (neg, body) := take_sign (strip_number s) in
  let word := map lower body in
  if pystr_eqb word (lit "inf") || pystr_eqb word (lit "infinity")
  then Some (PyInf neg)
  else if pystr_eqb word (lit "nan") then Some PyNan
  else
    let (ip, r1) := digitpart body in
    let (fp, r2) :=
      match r1 with
      | dot :: r => if code dot =? 46 then digitpart r else ([], r1)
      | [] => ([], r1)
      end in
    match ip ++ fp with
    | [] => None
    | ds =>
        match float_exponent r2 with
        | Some e => Some (PyDec neg (digits_value ds) (e - Z.of_nat (length fp)))
        | None => None
        end
    end.

End PyStr.

Import PyStr.
Coercion lit : String.string >-> pystr.


(* ================================================================= *)
(** ** week02/parse_hko_tables.py: the table extractor *)

Module Extractor.

(** The tree [lxml.html.fromstring] returns: elements with a tag and
    children, and text.  lxml's [text] and [tail] strings are the text
    children here. *)
#[warnings="-register-all"]
Inductive node : Type :=
| Text (s : pystr)
| Element (tag : pystr) (children : list node).

Definition has_tag (tag : pystr) (n : node) : bool :=
  match n with
  | Element t _ => pystr_eqb t tag
  | Text _ => false
  end.

(** The element descendants of a node in document order (the node
    itself left out). *)
Fixpoint descendants (n : node) : list node :=
  match n with
  | Text _ => []
  | Element _ cs =>
      flat_map (fun c => match c with
                         | Text _ => []
                         | Element _ _ => c :: descendants c
                         end) cs
  end.

(** [n.xpath('.//tag')]. *)
Definition xpath_desc (tag : pystr) (n : node) : list node :=
  filter (has_tag tag) (descendants n).

(** [tree.xpath('//tag')]: every such element of the document, the root
    included. *)
Definition xpath_all (tag : pystr) (root : node) : list node :=
  filter (has_tag tag) (root :: descendants root).

(** [n.text_content()]: the text of the subtree, in document order. *)
Fixpoint text_content (n : node) : pystr :=
  match n with
  | Text s => s
  | Element _ cs => concat (map text_content cs)
  end.

(** [normalize_text(s)]; [None] is Python's [None].  The two [replace]
    calls of the source name the same character. *)
Definition normalize_text (s : option pystr) : pystr :=
  match s with
  | None => []
  | Some s =>
      let t := strip s in
      let t := strip (replace nbsp space (replace nbsp space t)) in
      join [space] (split t)
  end.

Definition row := list pystr.

(** [while len(cells) < 10: cells.append('')], which runs
    [10 - len(cells)] times. *)
Fixpoint pad_loop (k : nat) (cells : row) : row :=
  match k with
  | O => cells
  | S k' => pad_loop k' (cells ++ [[]])
  end.

Definition pad (cells : row) : row := pad_loop (10 - length cells) cells.

(** One turn of the inner loop over the [tr] elements of a table;
    [rows_out] is returned as it is where the source says [continue]. *)
Definition tr_body (rows_out : list row) (tr : node) : list row :=
  let ths := xpath_desc "th" tr in
  match ths with
  | _ :: _ => rows_out
  | [] =>
      let tds := xpath_desc "td" tr in
      match tds with
      | [] => rows_out
      | _ =>
          let cells := map (fun td => normalize_text (Some (text_content td))) tds in
          if length cells <? 2 then rows_out
          else
            let cells := pad cells in
            let row10 := firstn 10 cells in
            rows_out ++ [row10]
      end
  end.

Definition table_body (rows_out : list row) (table : node) : list row :=
  fold_left tr_body (xpath_desc "tr" table) rows_out.

(** [parse_tables], from the parsed tree on. *)
Definition parse_tables (tree : node) : list row :=
  fold_left table_body (xpath_all "table" tree) [].

(** What a run leaves behind: the file at [OUT_CSV] (absent, or the
    lines it holds, header first) and the lines printed. *)
Inductive line : Type :=
| NoTableRowsParsed
| Wrote (n : nat).

Record world : Type := mkWorld {
  out_csv : option (list row);
  stdout : list line
}.

Definition header : row :=
  [lit "month"; lit "day"; lit "t1"; lit "h1"; lit "t2"; lit "h2";
   lit "t3"; lit "h3"; lit "t4"; lit "h4"].

Definition write_csv (rows : list row) (w : world) : world :=
  mkWorld (Some (header :: rows)) (stdout w).

Definition print (l : line) (w : world) : world :=
  mkWorld (out_csv w) (stdout w ++ [l]).

(** [main], with the document [get_html_text] read already parsed. *)
Definition main (tree : node) (w : world) : world :=
  let rows := parse_tables tree in
  match rows with
  | [] => print NoTableRowsParsed w
  | _ =>
      let w := write_csv rows w in
      print (Wrote (length rows)) w
  end.

End Extractor.


(* ================================================================= *)
(** ** week02/reshape_and_plot.py: the wide-to-long reshaper *)

Module Reshaper.

(** *** Exceptions *)

Inductive exn : Type := ValueError | OverflowError | KeyError.

Inductive result (A : Type) : Type :=
| Ok (a : A)
| Raise (e : exn).
Arguments Ok {A} a.
Arguments Raise {A} e.

Definition bind {A B : Type} (m : result A) (k : A -> result B) : result B :=
  match m with
  | Ok a => k a
  | Raise e => Raise e
  end.

Notation "x <- m ;; k" := (bind m (fun x => k))
  (at level 61, m at next level, right associativity).

(** A [for] loop whose body may raise: the state is threaded through
    the turns, the first exception ends the loop. *)
Fixpoint for_each {A S : Type} (xs : list A) (body : S -> A -> result S)
  (s : S) : result S :=
  match xs with
  | [] => Ok s
  | x :: xs' => s' <- body s x ;; for_each xs' body s'
  end.

(** *** The wide frame *)

(** A cell of the frame [pd.read_csv(..., dtype=str)] builds: a [str],
    or the missing value [nan]. *)
Inductive cell : Type :=
| NaN
| Str (s : pystr).

Definition isna (c : cell) : bool :=
  match c with NaN => true | Str _ => false end.

(** [str(c)]. *)
Definition str (c : cell) : pystr :=
  match c with NaN => lit "nan" | Str s => s end.

(** [int(c)]: on [nan] (a float) and on text that is no integer it
    raises [ValueError]. *)
Definition int (c : cell) : result Z :=
  match c with
  | NaN => Raise ValueError
  | Str s => match py_int s with Some n => Ok n | None => Raise ValueError end
  end.

Module Wide.
Record Row : Type := mkRow {
  month : cell; day : cell;
  t1 : cell; h1 : cell; t2 : cell; h2 : cell;
  t3 : cell; h3 : cell; t4 : cell; h4 : cell
}.
End Wide.
Import Wide.

Definition DataFrame := list Row.

(** [r.get(f't{i}', '')] and [r.get(f'h{i}', '')] for [i] in 1..4; the
    columns exist (lines 26-29 add the missing ones, filled with
    [nan]), so the default is never taken there. *)
Definition t_col (i : Z) (r : Row) : cell :=
  match i with
  | 1 => t1 r | 2 => t2 r | 3 => t3 r | 4 => t4 r
  | _ => Str []
  end%Z.

Definition h_col (i : Z) (r : Row) : cell :=
  match i with
  | 1 => h1 r | 2 => h2 r | 3 => h3 r | 4 => h4 r
  | _ => Str []
  end%Z.

(** The texts [pd.read_csv] reads as missing (its default
    [na_values]). *)
Definition na_values : list pystr :=
  [lit ""; lit "#N/A"; lit "#N/A N/A"; lit "#NA"; lit "-1.#IND";
   lit "-1.#QNAN"; lit "-NaN"; lit "-nan"; lit "1.#IND"; lit "1.#QNAN";
   lit "<NA>"; lit "N/A"; lit "NA"; lit "NULL"; lit "NaN"; lit "None";
   lit "n/a"; lit "nan"; lit "null"].

Definition read_cell (s : pystr) : cell :=
  if existsb (pystr_eqb s) na_values then NaN else Str s.

(** [pd.read_csv(CSV_IN, dtype=str)] on the file the extractor writes,
    taken as the lines of fields under its fixed header: the quoting
    of [csv.writer] and its undoing by the reader are left out.  The
    lines have ten fields, as [parse_tables] builds them; a field a
    line lacks is missing. *)
Definition read_row (fields : list pystr) : Row :=
  let col k := read_cell (nth k fields []) in
  mkRow (col 0) (col 1) (col 2) (col 3) (col 4) (col 5) (col 6) (col 7)
        (col 8) (col 9).

Definition read_csv (lines : list (list pystr)) : DataFrame :=
  map read_row lines.

(** *** Timestamps *)

Module Stamp.
Record Timestamp : Type := mkTimestamp {
  year : Z; month : Z; day : Z; hour : Z; minute : Z
}.
End Stamp.
Import Stamp.

Definition is_leap (y : Z) : bool :=
  ((y mod 4 =? 0) && negb (y mod 100 =? 0) || (y mod 400 =? 0))%Z.

Definition days_in_month (y m : Z) : Z :=
  match m with
  | 1 | 3 | 5 | 7 | 8 | 10 | 12 => 31
  | 4 | 6 | 9 | 11 => 30
  | 2 => if is_leap y then 29 else 28
  | _ => 0
  end%Z.

(** A Python integer that fits the C [int] the [datetime] constructor
    takes each of its fields as. *)
Definition fits_c_int (n : Z) : bool :=
  ((-2147483648 <=? n) && (n <=? 2147483647))%Z.

(** [pd.Timestamp(year=, month=, day=, hour=, minute=)]: the fields go
    through the [datetime] constructor.  It first takes every field as
    a C [int], and raises [OverflowError] when one does not fit; then
    it raises [ValueError] on a month, day, hour or minute out of
    range. *)
Definition new_Timestamp (y mo d h mi : Z) : result Timestamp :=
  if negb (fits_c_int y && fits_c_int mo && fits_c_int d
           && fits_c_int h && fits_c_int mi)
  then Raise OverflowError
  else if ((1 <=? mo) && (mo <=? 12) && (1 <=? d) && (d <=? days_in_month y mo)
      && (0 <=? h) && (h <=? 23) && (0 <=? mi) && (mi <=? 59))%Z
  then Ok (mkTimestamp y mo d h mi)
  else Raise ValueError.

Definition days_before_year (y : Z) : Z :=
  (let p := y - 1 in p * 365 + p / 4 - p / 100 + p / 400)%Z.

Definition days_before_month (y m : Z) : Z :=
  fold_left (fun acc k => acc + days_in_month y k)%Z
            (map Z.of_nat (seq 1 (Z.to_nat (m - 1)))) 0%Z.

(** The integer a timestamp is stored and ordered by: nanoseconds since
    1970-01-01T00:00. *)
Definition value (t : Timestamp) : Z :=
  (let ordinal := days_before_year (year t)
                  + days_before_month (year t) (Stamp.month t) + Stamp.day t in
   (((ordinal - 719163) * 24 + hour t) * 60 + minute t) * 60000000000)%Z.

(** *** The long frame *)

Module Long.
Record Reading : Type := mkReading {
  datetime : Timestamp;
  tide_m : pyfloat;
  pair : Z;
  month : Z;
  day : Z
}.
End Long.
Import Long.

(** One turn of the loop over [i] (lines 36-65): [rows] comes back
    unchanged where the source says [continue], and the exception of
    [pd.Timestamp] ([ValueError] or [OverflowError]) leaves the loop
    where it is raised, outside the two [try] blocks. *)
Definition slot_body (r : Row) (month day : Z) (rows : list Reading) (i : Z)
  : result (list Reading) :=
  let t := t_col i r in
  let h := h_col i r in
  if isna t || pystr_eqb (strip (str t)) [] then Ok rows
  else if isna h || pystr_eqb (strip (str h)) [] then Ok rows
  else
    let t_str := zfill 4 (str t) in
    match py_int (firstn 2 t_str) with
    | None => Ok rows
    | Some hour =>
        match py_int (skipn 2 t_str) with
        | None => Ok rows
        | Some minute =>
            dt <- new_Timestamp 2023 month day hour minute ;;
            match py_float (strip (str h)) with
            | None => Ok rows
            | Some h_val => Ok (rows ++ [mkReading dt h_val i month day])
            end
        end
    end.

(** One turn of the loop over the rows of the frame (lines 33-65). *)
Definition row_body (rows : list Reading) (r : Row) : result (list Reading) :=
  month <- int (Wide.month r) ;;
  day <- int (Wide.day r) ;;
  for_each [1; 2; 3; 4]%Z (slot_body r month day) rows.

(** Lines 32-65: the list [rows] the loop builds. *)
Definition melt (df : DataFrame) : result (list Reading) :=
  for_each df row_body [].

(** *** The run up to the written file (lines 67-70) *)

Inductive line : Type :=
| Wrote (n : nat).

(** The file at [CSV_OUT] (absent, or the readings it holds under the
    header [datetime,tide_m,pair,month,day]) and the lines printed. *)
Record world : Type := mkWorld {
  csv_out : option (list Reading);
  stdout : list line
}.

Definition to_csv (long : list Reading) (w : world) : world :=
  mkWorld (Some long) (stdout w).

Definition print (l : line) (w : world) : world :=
  mkWorld (csv_out w) (stdout w ++ [l]).

Section Run.

(** [long.sort_values('datetime')] on a frame that has this column.
    The run is written over the sort; the sort pandas runs for this
    call, which names no [kind], is [sort_values_datetime] below. *)
Variable sort_values : list Reading -> list Reading.

(** [pd.DataFrame(rows)] followed by [sort_values('datetime')] and
    [reset_index(drop=True)].  A frame built from the empty list has
    no column at all, and [sort_values] raises [KeyError] for the
    column it does not find. *)
Definition long_frame (rows : list Reading) : result (list Reading) :=
  match rows with
  | [] => Raise KeyError
  | _ => Ok (sort_values rows)
  end.

(** The script from the frame [df] it has read to line 70. *)
Definition run (df : DataFrame) (w : world) : world * result (list Reading) :=
  match melt df with
  | Raise e => (w, Raise e)
  | Ok rows =>
      match long_frame rows with
      | Raise e => (w, Raise e)
      | Ok long =>
          let w := to_csv long w in
          let w := print (Wrote (length long)) w in
          (w, Ok long)
      end
  end.

End Run.

End Reshaper.


Import Extractor.
Import Reshaper Reshaper.Wide Reshaper.Stamp Reshaper.Long.

(* ================================================================= *)
(** ** pandas and numpy: [sort_values('datetime')] with no [kind]

    [DataFrame.sort_values] with one column and no [kind] asks
    [nargsort] for the positions in sorted order, with
    [kind='quicksort'], and takes the rows at these positions.  For a
    [datetime64] column [nargsort] ends in [ndarray.argsort] on the
    64-bit integers of the timestamps, which numpy runs as
    [aquicksort_] of [npysort/quicksort.cpp]: an introsort on the array
    of positions, with the median of three as pivot, an insertion sort
    for the ranges of up to seventeen positions and [aheapsort_] of
    [npysort/heapsort.cpp] for a range met once the depth limit is
    used up. *)

Module NpySort.

(** [npy_get_msb]: the position of the highest bit set. *)
Definition npy_get_msb (unum : nat) : Z := Z.log2 (Z.of_nat unum).

Definition SMALL_QUICKSORT : nat := 16.

(** [a[p]] and [a[p] = x] on the array of positions; an assignment
    out of the array, which the code never makes, is left out. *)
Definition get (a : list nat) (p : nat) : nat := nth p a 0.

Fixpoint put (a : list nat) (p x : nat) : list nat :=
  match a, p with
  | [], _ => []
  | _ :: a', 0 => x :: a'
  | y :: a', S p' => y :: put a' p' x
  end.

(** [INTP_SWAP(a[i], a[j])]. *)
Definition swap (a : list nat) (i j : nat) : list nat :=
  put (put a i (get a j)) j (get a i).

Section Argsort.

(** The keys: [v[i]] is the key of the row at position [i]. *)
Variable v : list Z.

Definition key (i : nat) : Z := nth i v 0%Z.

(** [Tag::less] on two keys, none of them [NaT]: [nargsort] sets the
    missing values aside before it sorts, and a reading always has its
    timestamp. *)
Definition less (a b : Z) : bool := (a <? b)%Z.

(** *** The insertion sort at the end of [aquicksort_]

    [shift_in vi before] is one turn of its [for] loop: [before] holds
    the positions already in place, the last one first, and [vi] moves
    left past those with a greater key. *)
Fixpoint shift_in (vi : nat) (before : list nat) : list nat :=
  match before with
  | k :: rest =>
      if less (key vi) (key k) then k :: shift_in vi rest else vi :: before
  | [] => [vi]
  end.

Definition insertion_sort (seg : list nat) : list nat :=
  rev (fold_left (fun before vi => shift_in vi before) seg []).

(** *** [aheapsort_]

    The array is indexed from 1 there ([a = tosort - 1]). *)
Definition get1 (a : list nat) (k : nat) : nat := get a (k - 1).
Definition put1 (a : list nat) (k x : nat) : list nat := put a (k - 1) x.

(** The inner [for (i, j = 2i; j <= n;)] loop, which both phases
    share, with the assignment [a[i] = tmp] that follows it.  [fuel]
    bounds the turns; [n] of them are enough. *)
Fixpoint sift (fuel : nat) (a : list nat) (tmp i j n : nat) : list nat :=
  match fuel with
  | 0 => put1 a i tmp
  | S fuel' =>
      if j <=? n then
        let j := if (j <? n) && less (key (get1 a j)) (key (get1 a (j + 1)))
                 then j + 1 else j in
        if less (key tmp) (key (get1 a j))
        then sift fuel' (put1 a i (get1 a j)) tmp j (j + j) n
        else put1 a i tmp
      else put1 a i tmp
  end.

(** [for (l = n >> 1; l > 0; --l)]. *)
Fixpoint build_heap (l : nat) (a : list nat) (n : nat) : list nat :=
  match l with
  | 0 => a
  | S l' => build_heap l' (sift n a (get1 a l) l (2 * l) n) n
  end.

(** [for (; n > 1;)]. *)
Fixpoint sort_heap (n : nat) (a : list nat) : list nat :=
  match n with
  | 0 => a
  | S n' =>
      if 1 <? n then
        let tmp := get1 a n in
        let a := put1 a n (get1 a 1) in
        sort_heap n' (sift n a tmp 1 2 n')
      else a
  end.

Definition aheapsort (seg : list nat) : list nat :=
  let n := length seg in
  sort_heap n (build_heap (n / 2) seg n).

(** *** The partition of [aquicksort_]

    [do ++pi; while (less(v[*pi], vp))] from the position after [pi],
    and [do --pj; while (less(vp, v[*pj]))] from the position before
    [pj]: the first position at which the test fails. *)
Fixpoint scan_up (fuel : nat) (a : list nat) (vp : Z) (pi : nat) : nat :=
  match fuel with
  | 0 => pi
  | S fuel' =>
      if less (key (get a pi)) vp then scan_up fuel' a vp (S pi) else pi
  end.

Fixpoint scan_down (fuel : nat) (a : list nat) (vp : Z) (pj : nat) : nat :=
  match fuel with
  | 0 => pj
  | S fuel' =>
      if less vp (key (get a pj)) then scan_down fuel' a vp (pj - 1) else pj
  end.

(** The [for (;;)] loop of the partition. *)
Fixpoint exchange (fuel : nat) (a : list nat) (vp : Z) (pi pj : nat)
  : list nat * nat :=
  match fuel with
  | 0 => (a, pi)
  | S fuel' =>
      let pi := scan_up (length a) a vp (S pi) in
      let pj := scan_down (length a) a vp (pj - 1) in
      if pj <=? pi then (a, pi)
      else exchange fuel' (swap a pi pj) vp pi pj
  end.

(** One turn of [while ((pr - pl) > SMALL_QUICKSORT)] on the range
    [a], up to the push: the range partitioned and the position of the
    pivot in it ([pl] is 0 and [pr] is the last position). *)
Definition partition (a : list nat) : list nat * nat :=
  let pl := 0 in
  let pr := length a - 1 in
  let pm := pl + (pr - pl) / 2 in
  let a := if less (key (get a pm)) (key (get a pl)) then swap a pm pl else a in
  let a := if less (key (get a pr)) (key (get a pm)) then swap a pr pm else a in
  let a := if less (key (get a pm)) (key (get a pl)) then swap a pm pl else a in
  let vp := key (get a pm) in
  let pj := pr - 1 in
  let a := swap a pm pj in
  let (a, pi) := exchange (length a) a vp pl pj in
  (swap a pi (pr - 1), pi).

(** The outer loop on one range.  The code keeps the ranges still to
    sort on a stack, each with its depth; they do not overlap, so each
    is sorted here where it stands.  The larger part of a partition is
    pushed, and tested against the depth limit when it is popped
    ([popped]); the smaller one goes on in the inner loop untested. *)
Fixpoint aquicksort_loop (fuel : nat) (popped : bool) (cdepth : Z)
  (seg : list nat) : list nat :=
  match fuel with
  | 0 => seg
  | S fuel' =>
      if popped && (cdepth <? 0)%Z then aheapsort seg
      else if SMALL_QUICKSORT <? length seg - 1 then
        let (a, pi) := partition seg in
        let cdepth := (cdepth - 1)%Z in
        if pi <? (length seg - 1) - pi
        then aquicksort_loop fuel' false cdepth (firstn pi a)
             ++ get a pi :: aquicksort_loop fuel' true cdepth (skipn (S pi) a)
        else aquicksort_loop fuel' true cdepth (firstn pi a)
             ++ get a pi :: aquicksort_loop fuel' false cdepth (skipn (S pi) a)
      else insertion_sort seg
  end.

Definition aquicksort (tosort : list nat) : list nat :=
  aquicksort_loop (S (length tosort)) true (npy_get_msb (length tosort) * 2)
                  tosort.

End Argsort.

(** [v.argsort(kind='quicksort')]. *)
Definition argsort (v : list Z) : list nat := aquicksort v (seq 0 (length v)).

End NpySort.

(** [frame.take(indexer)]: the rows at the positions of the indexer. *)
Definition take {A : Type} (rows : list A) (indexer : list nat) : list A :=
  flat_map (fun i => match nth_error rows i with
                     | Some r => [r]
                     | None => []
                     end) indexer.

(** [long.sort_values('datetime')] of line 69. *)
Definition sort_values_datetime (rows : list Reading) : list Reading :=
  take rows (NpySort.argsort (map (fun r => value (datetime r)) rows)).


(* ================================================================= *)
(** ** Vocabulary of the statements *)

Definition nonspace (c : ascii) : bool := negb (is_space c).

(** A word: not empty, no whitespace in it. *)
Definition word (w : pystr) : Prop := w <> [] /\ forallb nonspace w = true.

(** Every whitespace character of [s] is a plain space with a
    character that is no whitespace right after it. *)
Fixpoint single_spaced (s : pystr) : bool :=
  match s with
  | [] => true
  | c :: s' =>
      (if is_space c
       then Ascii.eqb c space
            && match s' with d :: _ => nonspace d | [] => false end
       else true) && single_spaced s'
  end.

(** The cells of a [tr] as [parse_tables] reads them, whether it keeps
    the row, and the row it emits for it. *)
Definition cells_of (tr : node) : row :=
  map (fun td => normalize_text (Some (text_content td))) (xpath_desc "td" tr).

Definition keeps (tr : node) : bool :=
  match xpath_desc "th" tr with
  | [] => 2 <=? length (xpath_desc "td" tr)
  | _ :: _ => false
  end.

Definition row10_of (tr : node) : row := firstn 10 (pad (cells_of tr)).

(** The [tr] elements in the order the two loops of [parse_tables] meet
    them: table after table, and in each table its [tr] descendants. *)
Definition table_rows (tree : node) : list node :=
  flat_map (xpath_desc "tr") (xpath_all "table" tree).

(** The [tr] elements that lie inside a table, each one once, in
    document order. *)
Fixpoint rows_in (inside : bool) (n : node) : list node :=
  match n with
  | Text _ => []
  | Element tag cs =>
      (if inside && pystr_eqb tag "tr" then [n] else [])
      ++ flat_map (rows_in (inside || pystr_eqb tag "table")) cs
  end.

Definition document_rows (tree : node) : list node := rows_in false tree.

(** The rows come out in document order. *)
Definition emits_in_document_order (tree : node) : Prop :=
  parse_tables tree = map row10_of (filter keeps (document_rows tree)).


Definition td (s : pystr) : node := Element "td" [Text s].

(** A table in a cell of another table:
    [<table><tr><td>x</td><td><table><tr><td>1</td><td>2</td></tr></table></td></tr>
            <tr><td>3</td><td>4</td></tr></table>]. *)
Definition inner_tr : node := Element "tr" [td "1"; td "2"].
Definition outer_tr : node :=
  Element "tr" [td "x"; Element "td" [Element "table" [inner_tr]]].
Definition last_tr : node := Element "tr" [td "3"; td "4"].
Definition nested_doc : node :=
  Element "html" [Element "body" [Element "table" [outer_tr; last_tr]]].

(** A page with a header row and two days. *)
Definition plain_doc : node :=
  Element "html" [Element "body" [Element "table" [
    Element "tr" [Element "th" [Text "Month"]; Element "th" [Text "Day"]];
    Element "tr" [td "03"; td "15"; td "0531"; td "1.2"; td "1145"; td "0.4";
                  td "1758"; td "1.5"; td "2310"; td "0.3"];
    Element "tr" [td "03"; td "16"; td "0601"; td "1.3"; td ""; td "";
                  td "1830"; td "1.6"]]]].

(** An element with its element descendants; nothing for text. *)
Definition elems (n : node) : list node :=
  match n with
  | Text _ => []
  | Element _ _ => n :: descendants n
  end.

(** The rows met under the tables of the subtree [n]. *)
Definition subtree_rows (n : node) : list node :=
  flat_map (xpath_desc "tr") (filter (has_tag "table") (elems n)).

Definition childless (t : node) : bool :=
  match xpath_desc "table" t with [] => true | _ => false end.

(** No table of the document lies inside another table. *)
Definition no_nested_tables (tree : node) : bool :=
  forallb childless (xpath_all "table" tree).

(** A cell the reshaper passes over: missing, or blank once
    stripped. *)
Definition blank (c : cell) : bool := isna c || pystr_eqb (strip (str c)) [].

(** Hour and minute as lines 45-49 read them from a time cell; [None]
    where one of the two [int] calls raises. *)
Definition time_fields (t : cell) : option (Z * Z) :=
  let t_str := zfill 4 (str t) in
  match py_int (firstn 2 t_str) with
  | None => None
  | Some hour =>
      match py_int (skipn 2 t_str) with
      | None => None
      | Some minute => Some (hour, minute)
      end
  end.

Definition clock_range (hm : Z * Z) : bool :=
  ((0 <=? fst hm) && (fst hm <=? 23) && (0 <=? snd hm) && (snd hm <=? 59))%Z.

(** A valid (time, height) pair: both present, a time that parses to an
    hour in 0..23 and a minute in 0..59, a height [float] accepts. *)
Definition valid_pair (t h : cell) : bool :=
  negb (blank t) && negb (blank h)
  && match time_fields t with Some hm => clock_range hm | None => false end
  && match py_float (strip (str h)) with Some _ => true | None => false end.

(** Month and day of a row that parse and name a day of 2023. *)
Definition date_of (r : Row) : option (Z * Z) :=
  match int (Wide.month r), int (Wide.day r) with
  | Ok mo, Ok d =>
      if ((1 <=? mo) && (mo <=? 12) && (1 <=? d) && (d <=? days_in_month 2023 mo))%Z
      then Some (mo, d) else None
  | _, _ => None
  end.

Definition four_valid_pairs (r : Row) : bool :=
  match date_of r with
  | Some _ => forallb (fun i => valid_pair (t_col i r) (h_col i r)) [1; 2; 3; 4]%Z
  | None => false
  end.

Definition all_pairs_blank (r : Row) : bool :=
  forallb (fun i => blank (t_col i r) || blank (h_col i r)) [1; 2; 3; 4]%Z.

(** The loops only ever append to [rows]: a turn run on [rows] is the
    turn run on the empty list, put after [rows]. *)
Definition appends {A : Type} (body : list Reading -> A -> result (list Reading)) : Prop :=
  forall rows x, body rows x = (rs <- body [] x ;; Ok (rows ++ rs)).

(** Lines of the wide file used below. *)
Definition march_15 : list pystr :=
  [lit "03"; lit "15"; lit "0531"; lit "1.2"; lit "1145"; lit "0.4";
   lit "1758"; lit "1.5"; lit "2310"; lit "0.3"].

Definition march_16 : list pystr :=
  [lit "03"; lit "16"; lit "0601"; lit "1.3"; lit ""; lit "";
   lit "1830"; lit "1.6"; lit ""; lit ""].

Definition march_17_blank : list pystr :=
  [lit "03"; lit "17"; lit ""; lit ""; lit ""; lit ""; lit ""; lit "";
   lit ""; lit ""].

(** A first slot whose time reads as hour 99, minute 99. *)
Definition march_15_clock_99 : list pystr :=
  [lit "03"; lit "15"; lit "9999"; lit "1.2"; lit "1145"; lit "0.4";
   lit ""; lit ""; lit ""; lit ""].

(** A first slot whose time is no number. *)
Definition march_15_clock_text : list pystr :=
  [lit "03"; lit "15"; lit "5h31"; lit "1.2"; lit "1145"; lit "0.4";
   lit ""; lit ""; lit ""; lit ""].

Definition march_text_day : list pystr :=
  [lit "03"; lit "1st"; lit "0531"; lit "1.2"; lit ""; lit "";
   lit ""; lit ""; lit ""; lit ""].

(** A month with the separator 0x1c before its digits, which
    [str.strip] would remove and [int] does not accept; and a first
    slot whose minute, 2147483648, does not fit a C [int]. *)
Definition march_separator_month : list pystr :=
  [ascii_of_nat 28 :: lit "3"; lit "15"; lit "0531"; lit "1.2"; lit ""; lit "";
   lit ""; lit ""; lit ""; lit ""].

Definition march_15_minute_overflow : list pystr :=
  [lit "03"; lit "15"; lit "052147483648"; lit "1.2"; lit "1145"; lit "0.4";
   lit ""; lit ""; lit ""; lit ""].

Definition reading (mo d hh mi : Z) (v : pyfloat) (i : Z) : Reading :=
  mkReading (mkTimestamp 2023 mo d hh mi) v i mo d.

Definition bad_date (r : Row) : Prop :=
  int (Wide.month r) = Raise ValueError \/ int (Wide.day r) = Raise ValueError.

(** The exceptions that can leave the melt loop: [ValueError] from
    [int] and from [pd.Timestamp], [OverflowError] from
    [pd.Timestamp]. *)
Definition loop_exn (e : exn) : Prop := e = ValueError \/ e = OverflowError.

Definition empty_world : Reshaper.world := Reshaper.mkWorld None [].

(** The order [sort_values('datetime')] sorts by. *)
Definition le_dt (a b : Reading) : Prop :=
  (value (datetime a) <= value (datetime b))%Z.

Definition lt_dt (a b : Reading) : Prop :=
  (value (datetime a) < value (datetime b))%Z.

(** What [sort_values] promises whatever [kind] it runs with: the rows
    it was given, in ascending order of the column. *)
Definition sort_contract (sort : list Reading -> list Reading) : Prop :=
  forall l, Sorted le_dt (sort l) /\ Permutation l (sort l).

(** Adjacent rows of the output are in order. *)
Definition ascending (long : list Reading) : Prop :=
  forall i a b,
    nth_error long i = Some a -> nth_error long (S i) = Some b -> le_dt a b.

(** Rows with equal [datetime] keep the order they had in [rows]. *)
Definition ties_in_order (rows long : list Reading) : Prop :=
  forall v : Z,
    filter (fun r => value (datetime r) =? v)%Z long
    = filter (fun r => value (datetime r) =? v)%Z rows.

(** A sort that keeps the contract: a merge sort. *)
Module ReadingOrder <: TotalLeBool.
Definition t := Reading.
Definition leb (a b : Reading) : bool :=
  (value (datetime a) <=? value (datetime b))%Z.
Lemma leb_total : forall a b, leb a b = true \/ leb b a = true.
Proof. intros a b. unfold leb. rewrite !Z.leb_le. lia. Qed.
End ReadingOrder.

Module ReadingSort := Sort ReadingOrder.

Definition merge_sort (l : list Reading) : list Reading := ReadingSort.sort l.

(** Five lines for one day with the same time in every slot and a
    height of its own in each: twenty readings with one [datetime],
    more than the seventeen that numpy's quicksort hands to its
    insertion sort at once. *)
Definition tie_line (h1 h2 h3 h4 : pystr) : list pystr :=
  [lit "03"; lit "15"; lit "0531"; h1; lit "0531"; h2; lit "0531"; h3;
   lit "0531"; h4].

Definition tied_lines : list (list pystr) :=
  [tie_line "0.1" "0.2" "0.3" "0.4"; tie_line "0.5" "0.6" "0.7" "0.8";
   tie_line "0.9" "1.0" "1.1" "1.2"; tie_line "1.3" "1.4" "1.5" "1.6";
   tie_line "1.7" "1.8" "1.9" "2.0"].

(** What the melt loop builds from a frame; nothing where it raises. *)
Definition melted (df : DataFrame) : list Reading :=
  match melt df with Ok rows => rows | Raise _ => [] end.

Definition march_15_readings : list Reading :=
  [reading 3 15 5 31 (PyDec false 12 (-1)) 1;
   reading 3 15 11 45 (PyDec false 4 (-1)) 2;
   reading 3 15 17 58 (PyDec false 15 (-1)) 3;
   reading 3 15 23 10 (PyDec false 3 (-1)) 4].

(** The output is in ascending order and equal times keep their
    row and slot order. *)
Definition sorted_and_stable (df : DataFrame) : Prop :=
  forall rows long w w',
    melt df = Ok rows -> run sort_values_datetime df w = (w', Ok long) ->
    ascending long /\ ties_in_order rows long.

(** The positions numpy's quicksort returns for twenty equal keys. *)
Definition twenty_ties_order : list nat :=
  [0; 17; 16; 15; 14; 13; 12; 11; 10; 9; 8; 7; 6; 5; 4; 3; 2; 1; 18; 19].

(** The order of the positions by their keys, and how often a position
    occurs in an array. *)
Definition keyle (v : list Z) (i j : nat) : Prop :=
  (NpySort.key v i <= NpySort.key v j)%Z.

Definition occ (a : list nat) (z : nat) : nat := count_occ Nat.eq_dec a z.

Definition one (x z : nat) : nat := if Nat.eq_dec x z then 1 else 0.

(** The heap of [aheapsort_] between the positions [lo] and [n],
    counted from 1: no child has a greater key than its parent. *)
Definition heap_le (v : list Z) (lo n : nat) (a : list nat) : Prop :=
  forall k c, lo <= k -> c = 2 * k \/ c = 2 * k + 1 -> c <= n ->
    (NpySort.key v (NpySort.get1 a c) <= NpySort.key v (NpySort.get1 a k))%Z.

(** The heap with a hole at [i] that [tmp] is to fill: the order holds
    away from the hole, the parent of the hole is no less than the
    children of the hole and than [tmp]. *)
Definition hole_ok (v : list Z) (lo n : nat) (a : list nat) (i tmp : nat)
  : Prop :=
  (forall k c, lo <= k -> k <> i -> c = 2 * k \/ c = 2 * k + 1 -> c <= n ->
     c <> i ->
     (NpySort.key v (NpySort.get1 a c) <= NpySort.key v (NpySort.get1 a k))%Z)
  /\ (forall p c, lo <= p -> i = 2 * p \/ i = 2 * p + 1 ->
        c = 2 * i \/ c = 2 * i + 1 -> c <= n ->
        (NpySort.key v (NpySort.get1 a c)
         <= NpySort.key v (NpySort.get1 a p))%Z)
  /\ (forall p, lo <= p -> i = 2 * p \/ i = 2 * p + 1 ->
        (NpySort.key v tmp <= NpySort.key v (NpySort.get1 a p))%Z).

(** The second loop of [aheapsort_]: above [n] the greatest keys, in
    ascending order. *)
Definition tail_sorted (v : list Z) (n : nat) (a : list nat) : Prop :=
  (forall k k', n < k -> k <= k' -> k' <= length a ->
     (NpySort.key v (NpySort.get1 a k) <= NpySort.key v (NpySort.get1 a k'))%Z)
  /\ (forall k k', 1 <= k <= n -> n < k' -> k' <= length a ->
        (NpySort.key v (NpySort.get1 a k)
         <= NpySort.key v (NpySort.get1 a k'))%Z).

(** A row of fewer than ten cells as it is emitted. *)
Definition wide (cells : list pystr) : row :=
  cells ++ repeat [] (10 - length cells).

(** Texts of the table: a run of digits; a decimal number with digits
    on both sides of the point and maybe a minus sign. *)
Definition all_digits (s : pystr) : Prop :=
  s <> [] /\ forallb is_digit s = true.

Definition decimal_string (h : pystr) : Prop :=
  exists (neg : bool) (ip fp : pystr),
    h = (if neg then ["-"%char] else []) ++ ip ++ "."%char :: fp
    /\ all_digits ip /\ all_digits fp.

(** The characters of such texts. *)
Definition numeric_char (c : ascii) : bool :=
  is_digit c || (code c =? 46) || (code c =? 45).

(** A page with one table of one row, and the cells of a row with one
    (time, height) pair, in slot [i], and three blank pairs. *)
Definition page_of_cells (cells : list pystr) : node :=
  Element "html" [Element "body" [Element "table"
    [Element "tr" (map td cells)]]].

Definition one_pair_cells (mm dd : pystr) (i : Z) (t h : pystr) : list pystr :=
  [mm; dd]
  ++ flat_map (fun k => if (k =? i)%Z then [t; h] else [[]; []]) [1; 2; 3; 4]%Z.

(** A page with one table and no header row: one [tr] for each list
    of cell texts, one [td] for each text. *)
Definition tr_of (cells : list pystr) : node := Element "tr" (map td cells).

Definition page_of_rows (rows : list (list pystr)) : node :=
  Element "html" [Element "body" [Element "table" (map tr_of rows)]].

(** A time of day in digits, four at most, read right-aligned ("531"
    is 05:31): an hour up to 23 and a minute up to 59. *)
Definition clock_text (t : pystr) : Prop :=
  all_digits t /\ length t <= 4
  /\ (digits_value t / 100 <= 23)%Z /\ (digits_value t mod 100 <= 59)%Z.

(** A month and a day in digits that name a day of 2023. *)
Definition date_texts (mm dd : pystr) : Prop :=
  all_digits mm /\ length mm <= int_max_str_digits
  /\ all_digits dd /\ length dd <= int_max_str_digits
  /\ (1 <= digits_value mm <= 12)%Z
  /\ (1 <= digits_value dd <= days_in_month 2023 (digits_value mm))%Z.

(** A line of the wide file with its date and four valid pairs: each
    time a time of day, each height a decimal string. *)
Definition full_line (fields : list pystr) : Prop :=
  exists mm dd t1 h1 t2 h2 t3 h3 t4 h4,
    fields = [mm; dd; t1; h1; t2; h2; t3; h3; t4; h4]
    /\ date_texts mm dd
    /\ clock_text t1 /\ decimal_string h1
    /\ clock_text t2 /\ decimal_string h2
    /\ clock_text t3 /\ decimal_string h3
    /\ clock_text t4 /\ decimal_string h4.

Definition march_18 : list pystr :=
  [lit "03"; lit "18"; lit "712"; lit "1.1"; lit "1302"; lit "0.5";
   lit "1931"; lit "1.4"; lit "2359"; lit "0.6"].

(** What follows a run of digits without being read into it. *)
Definition ends_digits (rest : pystr) : Prop :=
  match rest with
  | c :: _ => is_digit c = false /\ code c <> 95
  | [] => True
  end.

(** A reading as the melt loop can build it: a minute of a day of
    2023, the month and day of its row beside it, a slot number. *)
Definition reading_ok (rd : Reading) : Prop :=
  new_Timestamp 2023 (Long.month rd) (Long.day rd)
                (hour (datetime rd)) (minute (datetime rd))
  = Ok (datetime rd)
  /\ (1 <= pair rd <= 4)%Z.

(** What one slot leaves in [rows]: nothing, or one reading of that
    slot. *)
Definition slot_yield (mo d i : Z) (l : list Reading) : Prop :=
  l = []
  \/ exists rd, l = [rd] /\ pair rd = i /\ Long.month rd = mo /\ Long.day rd = d
                /\ new_Timestamp 2023 mo d (hour (datetime rd)) (minute (datetime rd))
                   = Ok (datetime rd).

(** The first turn of a loop over [xs] that raises, raises [e]: the
    turns before it raise nothing. *)
Definition first_raise {A : Type} (raises : A -> exn -> Prop) (xs : list A)
  (e : exn) : Prop :=
  exists before x after,
    xs = before ++ x :: after
    /\ Forall (fun y => forall e', ~ raises y e') before
    /\ raises x e.

(** The slots and rows at which the melt loop raises, and what: a slot
    that is not blank whose time reads as two numbers [pd.Timestamp]
    refuses; a row whose month or day [int] rejects, or else the first
    of its slots to raise. *)
Definition slot_raises (r : Row) (mo d i : Z) (e : exn) : Prop :=
  blank (t_col i r) = false /\ blank (h_col i r) = false
  /\ exists hh mi, time_fields (t_col i r) = Some (hh, mi)
                   /\ new_Timestamp 2023 mo d hh mi = Raise e.

Definition row_raises (r : Row) (e : exn) : Prop :=
  (bad_date r /\ e = ValueError)
  \/ exists mo d, int (Wide.month r) = Ok mo /\ int (Wide.day r) = Ok d
                  /\ first_raise (slot_raises r mo d) [1; 2; 3; 4]%Z e.

Definition frame_raises (df : DataFrame) (e : exn) : Prop :=
  first_raise row_raises df e.

(** Earlier in the calendar. *)
Definition chron_lt (a b : Timestamp) : Prop :=
  (Stamp.month a < Stamp.month b
   \/ (Stamp.month a = Stamp.month b
       /\ (Stamp.day a < Stamp.day b
           \/ (Stamp.day a = Stamp.day b
               /\ (hour a < hour b
                   \/ (hour a = hour b /\ minute a < minute b))))))%Z.

(** The ten cells of a row. *)
Definition row_cells (r : Row) : list cell :=
  [Wide.month r; Wide.day r; t1 r; h1 r; t2 r; h2 r; t3 r; h3 r; t4 r; h4 r].

(** A cell as the reshaper finds it in a file the extractor wrote:
    missing, or a text that is not empty and is normalized. *)
Definition missing_or_tidy (c : cell) : Prop :=
  c = NaN
  \/ exists f, c = Str f /\ f <> [] /\ strip f = f
               /\ normalize_text (Some f) = f.

(* ================================================================= *)
(** ** week02/reshape_and_plot.py, lines 24-40: the frame by column names *)

Module Frames.

(** A frame as [pd.read_csv] returns it: the column labels, which
    [read_csv] keeps distinct, and the rows of cells under them. *)
Record Frame : Type := mkFrame {
  columns : list pystr;
  values : list (list cell)
}.

Definition rectangular (df : Frame) : Prop :=
  Forall (fun row => length row = length (columns df)) (values df).

Definition frame_ok (df : Frame) : Prop :=
  NoDup (columns df) /\ rectangular df.

(** A row as [df.iterrows()] hands it over: its cells under their
    labels. *)
Definition Series := list (pystr * cell).

Definition iterrows (df : Frame) : list Series :=
  map (combine (columns df)) (values df).

Fixpoint lookup (c : pystr) (r : Series) : option cell :=
  match r with
  | [] => None
  | (k, v) :: r' => if pystr_eqb c k then Some v else lookup c r'
  end.

(** [r[c]], which raises [KeyError] for a label the row lacks, and
    [r.get(c, default)]. *)
Definition getitem (r : Series) (c : pystr) : result cell :=
  match lookup c r with
  | Some v => Ok v
  | None => Raise KeyError
  end.

Definition get (r : Series) (c : pystr) (default : cell) : cell :=
  match lookup c r with
  | Some v => v
  | None => default
  end.

Definition expected : list pystr :=
  [lit "month"; lit "day"; lit "t1"; lit "h1"; lit "t2"; lit "h2";
   lit "t3"; lit "h3"; lit "t4"; lit "h4"].

(** One turn of the loop of lines 27-29: [df[c] = np.nan] adds the
    column [c], missing in every row, when the frame lacks it. *)
Definition ensure_column (df : Frame) (c : pystr) : Frame :=
  if existsb (pystr_eqb c) (columns df) then df
  else mkFrame (columns df ++ [c]) (map (fun row => row ++ [NaN]) (values df)).

Definition fill_expected (df : Frame) : Frame :=
  fold_left ensure_column expected df.

(** [f't{i}'] and [f'h{i}'] for the one-digit [i] of [range(1,5)]. *)
Definition t_name (i : Z) : pystr := lit "t" ++ [ascii_of_nat (48 + Z.to_nat i)].
Definition h_name (i : Z) : pystr := lit "h" ++ [ascii_of_nat (48 + Z.to_nat i)].

(** Lines 36-65 with the cells fetched by label. *)
Definition series_slot_body (r : Series) (month day : Z) (rows : list Reading)
  (i : Z) : result (list Reading) :=
  let t := get r (t_name i) (Str []) in
  let h := get r (h_name i) (Str []) in
  if isna t || pystr_eqb (strip (str t)) [] then Ok rows
  else if isna h || pystr_eqb (strip (str h)) [] then Ok rows
  else
    let t_str := zfill 4 (str t) in
    match py_int (firstn 2 t_str) with
    | None => Ok rows
    | Some hour =>
        match py_int (skipn 2 t_str) with
        | None => Ok rows
        | Some minute =>
            dt <- new_Timestamp 2023 month day hour minute ;;
            match py_float (strip (str h)) with
            | None => Ok rows
            | Some h_val => Ok (rows ++ [mkReading dt h_val i month day])
            end
        end
    end.

Definition series_row_body (rows : list Reading) (r : Series)
  : result (list Reading) :=
  m <- getitem r "month" ;;
  month <- int m ;;
  d <- getitem r "day" ;;
  day <- int d ;;
  for_each [1; 2; 3; 4]%Z (series_slot_body r month day) rows.

(** Lines 26-65 on the frame read. *)
Definition script_melt (df : Frame) : result (list Reading) :=
  for_each (iterrows (fill_expected df)) series_row_body [].

(** The ten cells of a labelled row as a [Row]; a label the row lacks
    reads as missing. *)
Definition as_Row (r : Series) : Row :=
  mkRow (get r "month" NaN) (get r "day" NaN)
        (get r "t1" NaN) (get r "h1" NaN) (get r "t2" NaN) (get r "h2" NaN)
        (get r "t3" NaN) (get r "h3" NaN) (get r "t4" NaN) (get r "h4" NaN).

(** What the loop of lines 27-29 does to one labelled row. *)
Definition fill1 (r : Series) (c : pystr) : Series :=
  match lookup c r with
  | Some _ => r
  | None => r ++ [(c, NaN)]
  end.

(** A file without the [month] and [t3] columns. *)
Definition frame_without_month : Frame :=
  mkFrame [lit "day"; lit "t1"; lit "h1"]
          [[Str "15"; Str "0531"; Str "1.2"]].

Definition frame_without_t3 : Frame :=
  mkFrame [lit "h1"; lit "t1"; lit "day"; lit "month"; lit "note"]
          [[Str "1.2"; Str "0531"; Str "15"; Str "03"; Str "spring"]].

End Frames.
Import Frames.

(* ================================================================= *)
(** * Properties *)

(** ** Text: what [normalize_text] returns *)

Section NormalizeText.

Lemma forallb_nonspace_rev (w : pystr) :
  forallb nonspace w = true -> forallb nonspace (rev w) = true.
Proof.
  rewrite !forallb_forall. intros H c Hc. apply H. now apply in_rev.
Qed.

Lemma rev_word (cur : pystr) :
  cur <> [] -> forallb nonspace cur = true -> word (rev cur).
Proof.
  intros Hne Hall. split.
  - intro E. apply Hne. rewrite <- (rev_involutive cur), E. reflexivity.
  - now apply forallb_nonspace_rev.
Qed.

Lemma split_from_words (s cur : pystr) :
  forallb nonspace cur = true -> Forall word (split_from cur s).
Proof.
  revert cur. induction s as [|c s IH]; intros cur Hcur; simpl.
  - destruct cur as [|d cur']; constructor; [|constructor].
    apply rev_word; [discriminate | exact Hcur].
  - destruct (is_space c) eqn:Ec.
    + destruct cur as [|d cur'].
      * apply IH. reflexivity.
      * constructor; [apply rev_word; [discriminate | exact Hcur]|].
        apply IH. reflexivity.
    + apply IH. simpl. unfold nonspace at 1. rewrite Ec. exact Hcur.
Qed.

Lemma split_words (s : pystr) : Forall word (split s).
Proof. apply split_from_words. reflexivity. Qed.

Lemma split_from_app_word (w cur rest : pystr) :
  forallb nonspace w = true ->
  split_from cur (w ++ rest) = split_from (rev w ++ cur) rest.
Proof.
  revert cur. induction w as [|c w IH]; intros cur Hw; simpl in *.
  - reflexivity.
  - apply andb_true_iff in Hw as [Hc Hw]. unfold nonspace in Hc.
    apply negb_true_iff in Hc. rewrite Hc, IH by exact Hw.
    now rewrite <- app_assoc.
Qed.

Lemma split_join (ws : list pystr) :
  Forall word ws -> split (join [space] ws) = ws.
Proof.
  unfold split. induction 1 as [|w ws [Hne Hw] Hws IH]; [reflexivity|].
  destruct ws as [|w2 ws'].
  - simpl. rewrite <- (app_nil_r w) at 1.
    rewrite split_from_app_word by exact Hw. rewrite app_nil_r. simpl.
    destruct (rev w) eqn:E.
    + exfalso. apply Hne. rewrite <- (rev_involutive w), E. reflexivity.
    + now rewrite <- E, rev_involutive.
  - change (join [space] (w :: w2 :: ws'))
      with (w ++ space :: join [space] (w2 :: ws')).
    rewrite split_from_app_word by exact Hw. rewrite app_nil_r.
    cbn [split_from]. change (is_space space) with true. cbv iota.
    destruct (rev w) eqn:E.
    + exfalso. apply Hne. rewrite <- (rev_involutive w), E. reflexivity.
    + rewrite <- E, rev_involutive. f_equal. exact IH.
Qed.

Lemma lstrip_word_head (c : ascii) (s : pystr) :
  is_space c = false -> lstrip (c :: s) = c :: s.
Proof. intros H. simpl. now rewrite H. Qed.

Lemma rstrip_app (a b : pystr) :
  b <> [] -> rstrip b = b -> rstrip (a ++ b) = a ++ b.
Proof.
  intros Hne Hb. induction a as [|c a IH]; simpl; [exact Hb|].
  rewrite IH. destruct (a ++ b) eqn:E; [|reflexivity].
  apply app_eq_nil in E as [_ E]. contradiction.
Qed.

Lemma rstrip_word (w : pystr) : forallb nonspace w = true -> rstrip w = w.
Proof.
  induction w as [|c w IH]; simpl; [reflexivity|].
  intros H. apply andb_true_iff in H as [Hc Hw]. rewrite (IH Hw).
  unfold nonspace in Hc. apply negb_true_iff in Hc. rewrite Hc.
  now destruct w.
Qed.

Lemma join_cons2 (w w2 : pystr) (ws : list pystr) :
  join [space] (w :: w2 :: ws) = w ++ space :: join [space] (w2 :: ws).
Proof. reflexivity. Qed.

Lemma join_head (w : pystr) (ws : list pystr) :
  exists rest, join [space] (w :: ws) = w ++ rest.
Proof.
  destruct ws as [|w2 ws].
  - exists []. simpl. now rewrite app_nil_r.
  - eexists. apply join_cons2.
Qed.

Lemma join_nonempty (w : pystr) (ws : list pystr) :
  w <> [] -> join [space] (w :: ws) <> [].
Proof.
  intros Hne E. destruct (join_head w ws) as [rest Hr].
  rewrite Hr in E. now apply app_eq_nil in E as [E _].
Qed.

Lemma word_head (w : pystr) :
  word w -> exists c w', w = c :: w' /\ is_space c = false.
Proof.
  intros [Hne Hw]. destruct w as [|c w']; [contradiction|].
  exists c, w'. split; [reflexivity|]. simpl in Hw.
  apply andb_true_iff in Hw as [Hc _]. now apply negb_true_iff in Hc.
Qed.

Lemma lstrip_join (ws : list pystr) :
  Forall word ws -> lstrip (join [space] ws) = join [space] ws.
Proof.
  intros H. destruct H as [|w ws Hw _]; [reflexivity|].
  destruct (word_head _ Hw) as (c & w' & -> & Hc).
  destruct (join_head (c :: w') ws) as [rest ->].
  now apply lstrip_word_head.
Qed.

Lemma rstrip_join (ws : list pystr) :
  Forall word ws -> rstrip (join [space] ws) = join [space] ws.
Proof.
  induction 1 as [|w ws Hw Hws IH]; [reflexivity|].
  destruct ws as [|w2 ws'].
  - simpl. apply rstrip_word, Hw.
  - rewrite join_cons2.
    apply rstrip_app with (b := space :: join [space] (w2 :: ws')).
    + discriminate.
    + apply rstrip_app with (a := [space]); [|exact IH].
      apply join_nonempty. inversion Hws as [|? ? [Hne _] _]. exact Hne.
Qed.

Lemma strip_join (ws : list pystr) :
  Forall word ws -> strip (join [space] ws) = join [space] ws.
Proof.
  intros H. unfold strip. rewrite (lstrip_join _ H). now apply rstrip_join.
Qed.

Lemma single_spaced_app_word (w s : pystr) :
  forallb nonspace w = true -> single_spaced (w ++ s) = single_spaced s.
Proof.
  induction w as [|c w IH]; simpl; [reflexivity|].
  intros H. apply andb_true_iff in H as [Hc Hw].
  apply negb_true_iff in Hc. rewrite Hc. simpl. now apply IH.
Qed.

Lemma single_spaced_join (ws : list pystr) :
  Forall word ws -> single_spaced (join [space] ws) = true.
Proof.
  induction 1 as [|w ws Hw Hws IH]; [reflexivity|].
  destruct ws as [|w2 ws'].
  - simpl. rewrite <- (app_nil_r w). now rewrite single_spaced_app_word by apply Hw.
  - rewrite join_cons2, single_spaced_app_word by apply Hw.
    cbn [single_spaced]. change (is_space space) with true. cbv iota.
    rewrite IH, andb_true_r. change (Ascii.eqb space space) with true.
    inversion Hws as [|? ? Hw2 _].
    destruct (word_head _ Hw2) as (c & w' & -> & Hc).
    destruct (join_head (c :: w') ws') as [rest ->].
    simpl. unfold nonspace. now rewrite Hc.
Qed.

Lemma single_spaced_suffix (a b : pystr) :
  single_spaced (a ++ b) = true -> single_spaced b = true.
Proof.
  induction a as [|c a IH]; simpl; [tauto|].
  intros H. apply andb_true_iff in H as [_ H]. now apply IH.
Qed.

Lemma single_spaced_no_nbsp (s : pystr) :
  single_spaced s = true -> ~ In nbsp s.
Proof.
  intros H Hin. apply in_split in Hin as (a & b & ->).
  apply single_spaced_suffix in H. simpl in H.
  change (is_space nbsp) with true in H. cbv iota in H.
  change (Ascii.eqb nbsp space) with false in H. discriminate.
Qed.

Lemma replace_absent (a b : ascii) (s : pystr) :
  ~ In a s -> replace a b s = s.
Proof.
  unfold replace. induction s as [|c s IH]; simpl; [reflexivity|].
  intros H. rewrite IH by tauto.
  destruct (Ascii.eqb c a) eqn:E; [|reflexivity].
  apply Ascii.eqb_eq in E. subst. tauto.
Qed.

Lemma normalize_text_join (ws : list pystr) :
  Forall word ws ->
  normalize_text (Some (join [space] ws)) = join [space] ws.
Proof.
  intros H. unfold normalize_text.
  rewrite (strip_join _ H).
  assert (Hn : ~ In nbsp (join [space] ws))
    by (apply single_spaced_no_nbsp, single_spaced_join, H).
  rewrite !(@replace_absent nbsp space _ Hn).
  rewrite (strip_join _ H), (split_join _ H). reflexivity.
Qed.

Lemma normalize_text_words (s : pystr) :
  exists ws, Forall word ws /\ normalize_text (Some s) = join [space] ws.
Proof.
  unfold normalize_text. eexists. split; [apply split_words | reflexivity].
Qed.

(** Claim C10.  [normalize_text] is idempotent, it returns the empty
    string on [None], and what it returns has no whitespace at either
    end, no two spaces in a row and no no-break space. *)
Theorem normalize_text_idempotent_and_tidy :
  (forall o : option pystr,
      normalize_text (Some (normalize_text o)) = normalize_text o)
  /\ normalize_text None = []
  /\ (forall s : pystr,
        (forall c r, normalize_text (Some s) = c :: r -> is_space c = false)
        /\ (forall r c, normalize_text (Some s) = r ++ [c] -> is_space c = false)
        /\ (forall a b, normalize_text (Some s) <> a ++ space :: space :: b)
        /\ ~ In nbsp (normalize_text (Some s))).
Proof.
  split; [|split; [reflexivity|]].
  - intros [s|]; [|reflexivity].
    destruct (normalize_text_words s) as (ws & Hws & ->).
    now apply normalize_text_join.
  - intros s. destruct (normalize_text_words s) as (ws & Hws & ->).
    pose proof (single_spaced_join _ Hws) as Hss.
    repeat split.
    + intros c r E. pose proof (lstrip_join _ Hws) as Hl.
      rewrite E in Hl. simpl in Hl.
      destruct (is_space c) eqn:Ec; [|reflexivity].
      exfalso. assert (Hlen : length (lstrip r) <= length r).
      { clear. induction r as [|d r IH]; simpl; [lia|].
        destruct (is_space d); simpl; lia. }
      rewrite Hl in Hlen. simpl in Hlen. lia.
    + intros r c E. rewrite E in Hss.
      apply single_spaced_suffix in Hss. simpl in Hss.
      destruct (is_space c); [|reflexivity].
      destruct (Ascii.eqb c space); discriminate.
    + intros a b E. rewrite E in Hss.
      apply single_spaced_suffix in Hss. simpl in Hss.
      change (is_space space) with true in Hss. cbv iota in Hss.
      change (nonspace space) with false in Hss. discriminate.
    + now apply single_spaced_no_nbsp.
Qed.

End NormalizeText.

(* ================================================================= *)
(** ** The extractor *)

Section ParseTables.

Lemma pad_loop_repeat (k : nat) (cells : row) :
  pad_loop k cells = cells ++ repeat [] k.
Proof.
  revert cells. induction k as [|k IH]; intros cells; simpl.
  - now rewrite app_nil_r.
  - rewrite IH, <- app_assoc. reflexivity.
Qed.

Lemma pad_length (cells : row) : 10 <= length (pad cells).
Proof.
  unfold pad. rewrite pad_loop_repeat, length_app, repeat_length. lia.
Qed.

Lemma row10_length (tr : node) : length (row10_of tr) = 10.
Proof.
  unfold row10_of. rewrite length_firstn. pose proof (pad_length (cells_of tr)). lia.
Qed.

Lemma nth_repeat_nil (k n : nat) : nth k (repeat (@nil ascii) n) [] = [].
Proof.
  revert k. induction n as [|n IH]; intros [|k]; simpl; auto.
Qed.

Lemma nth_firstn_lt (A : Type) (k n : nat) (l : list A) (d : A) :
  k < n -> nth k (firstn n l) d = nth k l d.
Proof.
  revert k l. induction n as [|n IH]; intros k l Hk; [lia|].
  destruct l as [|x l]; [now destruct k|].
  destruct k as [|k]; simpl; [reflexivity|]. apply IH. lia.
Qed.

Lemma row10_nth (tr : node) (k : nat) :
  k < 10 -> nth k (row10_of tr) [] = nth k (cells_of tr) [].
Proof.
  intros Hk. unfold row10_of, pad. rewrite nth_firstn_lt by exact Hk.
  rewrite pad_loop_repeat.
  destruct (Nat.lt_ge_cases k (length (cells_of tr))) as [Hlt|Hge].
  - now rewrite app_nth1.
  - rewrite app_nth2 by exact Hge. rewrite nth_repeat_nil.
    now rewrite nth_overflow.
Qed.

Lemma tr_body_keeps (rows_out : list row) (tr : node) :
  tr_body rows_out tr
  = rows_out ++ (if keeps tr then [row10_of tr] else []).
Proof.
  unfold tr_body, keeps, row10_of, cells_of.
  destruct (xpath_desc "th" tr) as [|th ths]; [|now rewrite app_nil_r].
  rewrite length_map.
  destruct (xpath_desc "td" tr) as [|d ds]; [now rewrite app_nil_r|].
  remember (d :: ds) as tds.
  replace (length tds <? 2) with (negb (2 <=? length tds))
    by (destruct (Nat.leb_spec 2 (length tds)), (Nat.ltb_spec (length tds) 2);
        simpl; auto; lia).
  destruct (2 <=? length tds); simpl; [reflexivity | now rewrite app_nil_r].
Qed.

Lemma table_body_keeps (trs : list node) (rows_out : list row) :
  fold_left tr_body trs rows_out
  = rows_out ++ map row10_of (filter keeps trs).
Proof.
  revert rows_out. induction trs as [|tr trs IH]; intros rows_out; simpl.
  - now rewrite app_nil_r.
  - rewrite IH, tr_body_keeps, <- app_assoc.
    destruct (keeps tr); reflexivity.
Qed.

Lemma parse_tables_fold (tables : list node) (rows_out : list row) :
  fold_left table_body tables rows_out
  = rows_out ++ map row10_of (filter keeps (flat_map (xpath_desc "tr") tables)).
Proof.
  revert rows_out. induction tables as [|t ts IH]; intros rows_out; simpl.
  - now rewrite app_nil_r.
  - rewrite IH. unfold table_body. rewrite table_body_keeps.
    rewrite filter_app, map_app, <- app_assoc. reflexivity.
Qed.

Lemma parse_tables_table_rows (tree : node) :
  parse_tables tree = map row10_of (filter keeps (table_rows tree)).
Proof. unfold parse_tables. now rewrite parse_tables_fold. Qed.

(** Induction on a tree, with the property at hand for every child. *)
Lemma node_induction (P : node -> Prop) :
  (forall s, P (Text s)) ->
  (forall tag cs, Forall P cs -> P (Element tag cs)) ->
  forall n, P n.
Proof.
  intros HT HE. fix IH 1. intros [s|tag cs]; [apply HT|].
  apply HE. induction cs as [|c cs IHcs]; constructor; [apply IH | exact IHcs].
Qed.

Lemma filter_flat_map (A B : Type) (p : B -> bool) (f : A -> list B) (l : list A) :
  filter p (flat_map f l) = flat_map (fun x => filter p (f x)) l.
Proof.
  induction l as [|x l IH]; simpl; [reflexivity|].
  now rewrite filter_app, IH.
Qed.

Lemma flat_map_flat_map (A B C : Type) (f : A -> list B) (g : B -> list C)
  (l : list A) :
  flat_map g (flat_map f l) = flat_map (fun x => flat_map g (f x)) l.
Proof.
  induction l as [|x l IH]; simpl; [reflexivity|].
  now rewrite flat_map_app, IH.
Qed.

Lemma flat_map_Forall_ext (A B : Type) (f g : A -> list B) (l : list A) :
  Forall (fun x => f x = g x) l -> flat_map f l = flat_map g l.
Proof.
  induction 1 as [|x l Hx _ IH]; simpl; [reflexivity|]. now rewrite Hx, IH.
Qed.

Lemma forallb_flat_map (A B : Type) (p : B -> bool) (f : A -> list B)
  (l : list A) :
  forallb p (flat_map f l) = true -> Forall (fun x => forallb p (f x) = true) l.
Proof.
  induction l as [|x l IH]; simpl; intros H; constructor.
  - rewrite forallb_app in H. now apply andb_true_iff in H as [H _].
  - apply IH. rewrite forallb_app in H. now apply andb_true_iff in H as [_ H].
Qed.

Lemma descendants_children (tag : pystr) (cs : list node) :
  descendants (Element tag cs) = flat_map elems cs.
Proof. reflexivity. Qed.

Lemma xpath_all_elems (tag : pystr) (n : node) :
  xpath_all tag n = filter (has_tag tag) (elems n).
Proof. destruct n; reflexivity. Qed.

(** Inside a table every [tr] of the subtree counts. *)
Lemma rows_in_table (n : node) :
  rows_in true n = filter (has_tag "tr") (elems n).
Proof.
  induction n as [s|tag cs IH] using node_induction; [reflexivity|].
  cbn [rows_in elems filter has_tag orb andb].
  rewrite descendants_children, filter_flat_map.
  rewrite (flat_map_Forall_ext _ _ _ _ _ IH).
  destruct (pystr_eqb tag "tr"); reflexivity.
Qed.

(** Where no table lies in another, the loops meet the rows in
    document order. *)
Lemma subtree_rows_document_order (n : node) :
  forallb childless (filter (has_tag "table") (elems n)) = true ->
  subtree_rows n = rows_in false n.
Proof.
  induction n as [s|tag cs IH] using node_induction; [reflexivity|].
  unfold subtree_rows. cbn [rows_in elems filter has_tag orb andb app].
  rewrite descendants_children.
  destruct (pystr_eqb tag "table") eqn:Etab.
  - cbn [forallb flat_map]. intros H. apply andb_true_iff in H as [Hc _].
    unfold childless, xpath_desc in Hc. rewrite descendants_children in Hc.
    destruct (filter (has_tag "table") (flat_map elems cs)); [|discriminate].
    cbn [flat_map]. rewrite app_nil_r. unfold xpath_desc.
    rewrite descendants_children, filter_flat_map.
    apply flat_map_Forall_ext, Forall_forall. intros c _.
    symmetry. apply rows_in_table.
  - rewrite filter_flat_map. intros H. apply forallb_flat_map in H.
    rewrite flat_map_flat_map. apply flat_map_Forall_ext.
    rewrite Forall_forall in *. intros c Hc. apply (IH c Hc), (H c Hc).
Qed.

Lemma table_rows_document_order (tree : node) :
  no_nested_tables tree = true -> table_rows tree = document_rows tree.
Proof.
  unfold no_nested_tables, table_rows, document_rows.
  rewrite xpath_all_elems. apply subtree_rows_document_order.
Qed.

Lemma keeps_iff (tr : node) :
  keeps tr = true <-> xpath_desc "th" tr = [] /\ 2 <= length (cells_of tr).
Proof.
  unfold keeps, cells_of. rewrite length_map.
  destruct (xpath_desc "th" tr); [|split; [discriminate | intros [? _]; discriminate]].
  rewrite Nat.leb_le. tauto.
Qed.

(** Claim C8, amended.  The extractor goes through the tables in
    document order and through the [tr] descendants of each table in
    document order; it passes over the rows with a header cell and
    those with fewer than two cells and emits one row for every other,
    nothing merged, nothing moved.  An emitted row has 10 fields: the
    normalized cells, cut after the tenth, with empty strings where
    cells lack.  Where no table lies inside another, the rows come out
    in document order. *)
Theorem parse_tables_emits (tree : node) :
  parse_tables tree = map row10_of (filter keeps (table_rows tree))
  /\ (forall tr, keeps tr = true
                 <-> xpath_desc "th" tr = [] /\ 2 <= length (cells_of tr))
  /\ Forall (fun r => length r = 10) (parse_tables tree)
  /\ (forall tr k, k < 10 -> nth k (row10_of tr) [] = nth k (cells_of tr) [])
  /\ (no_nested_tables tree = true -> emits_in_document_order tree).
Proof.
  repeat split.
  - apply parse_tables_table_rows.
  - now apply keeps_iff.
  - now apply keeps_iff.
  - now apply keeps_iff.
  - rewrite parse_tables_table_rows, Forall_map, Forall_forall.
    intros tr _. apply row10_length.
  - intros tr k. apply row10_nth.
  - intros H. unfold emits_in_document_order.
    now rewrite parse_tables_table_rows, table_rows_document_order.
Qed.

Lemma parse_tables_emits_witness :
  no_nested_tables plain_doc = true /\ emits_in_document_order plain_doc.
Proof.
  split; [reflexivity|].
  apply (proj2 (proj2 (proj2 (proj2 (parse_tables_emits plain_doc))))).
  reflexivity.
Defined.

(** Claim C8 as stated fails: a row of a table nested in a cell is met
    once for each table around it, the second time after the rows
    that follow it in the document. *)
Lemma nested_table_rows_out_of_order :
  parse_tables nested_doc
  = [wide [lit "x"; lit "12"; lit "1"; lit "2"]; wide [lit "1"; lit "2"];
     wide [lit "3"; lit "4"]; wide [lit "1"; lit "2"]]
  /\ map row10_of (filter keeps (document_rows nested_doc))
     = [wide [lit "x"; lit "12"; lit "1"; lit "2"]; wide [lit "1"; lit "2"];
        wide [lit "3"; lit "4"]]
  /\ ~ emits_in_document_order nested_doc.
Proof.
  split; [reflexivity|]. split; [reflexivity|].
  unfold emits_in_document_order. vm_compute. discriminate.
Qed.

End ParseTables.

(* ================================================================= *)
(** ** The reshaper: the melt loop *)

Section Melt.

Lemma slot_body_eq (r : Row) (mo d : Z) (rows : list Reading) (i : Z) :
  slot_body r mo d rows i =
  if blank (t_col i r) then Ok rows
  else if blank (h_col i r) then Ok rows
  else match time_fields (t_col i r) with
       | None => Ok rows
       | Some (hh, mi) =>
           dt <- new_Timestamp 2023 mo d hh mi ;;
           match py_float (strip (str (h_col i r))) with
           | None => Ok rows
           | Some v => Ok (rows ++ [mkReading dt v i mo d])
           end
       end.
Proof.
  unfold slot_body, blank, time_fields.
  destruct (isna (t_col i r) || _); [reflexivity|].
  destruct (isna (h_col i r) || _); [reflexivity|].
  destruct (py_int (firstn 2 _)); [|reflexivity].
  destruct (py_int (skipn 2 _)); reflexivity.
Qed.

(** A blank time or height: the slot adds nothing and raises nothing. *)
Lemma slot_body_blank (r : Row) (mo d : Z) (rows : list Reading) (i : Z) :
  blank (t_col i r) || blank (h_col i r) = true ->
  slot_body r mo d rows i = Ok rows.
Proof.
  rewrite slot_body_eq. intros H.
  destruct (blank (t_col i r)); [reflexivity|].
  simpl in H. now rewrite H.
Qed.

(** A time one of the two [int] calls rejects: the slot is passed
    over. *)
Lemma slot_body_not_a_number (r : Row) (mo d : Z) (rows : list Reading) (i : Z) :
  time_fields (t_col i r) = None -> slot_body r mo d rows i = Ok rows.
Proof.
  rewrite slot_body_eq. intros ->.
  destruct (blank (t_col i r)), (blank (h_col i r)); reflexivity.
Qed.

(** A height [float] rejects, after a time that is a time of day: the
    slot is passed over. *)
Lemma slot_body_bad_height (r : Row) (mo d : Z) (rows : list Reading) (i : Z)
  (dt : Timestamp) (hh mi : Z) :
  time_fields (t_col i r) = Some (hh, mi) ->
  new_Timestamp 2023 mo d hh mi = Ok dt ->
  py_float (strip (str (h_col i r))) = None ->
  slot_body r mo d rows i = Ok rows.
Proof.
  rewrite slot_body_eq. intros -> -> ->. simpl.
  destruct (blank (t_col i r)), (blank (h_col i r)); reflexivity.
Qed.

(** A time that reads as numbers but is no time of day, in a slot that
    is not blank: [pd.Timestamp] raises, outside any [try]. *)
Lemma slot_body_out_of_range (r : Row) (mo d : Z) (rows : list Reading) (i : Z)
  (hm : Z * Z) :
  blank (t_col i r) = false -> blank (h_col i r) = false ->
  time_fields (t_col i r) = Some hm -> clock_range hm = false ->
  exists e, slot_body r mo d rows i = Raise e /\ loop_exn e.
Proof.
  rewrite slot_body_eq. intros -> -> -> Hr. destruct hm as [hh mi].
  unfold new_Timestamp, clock_range in *. simpl in Hr.
  destruct (negb _).
  - exists OverflowError. split; [reflexivity | now right].
  - exists ValueError. split; [|now left].
    destruct ((1 <=? mo)%Z && (mo <=? 12)%Z && (1 <=? d)%Z
              && (d <=? days_in_month 2023 mo)%Z); [|reflexivity].
    simpl. rewrite <- !andb_assoc in *. rewrite Hr. reflexivity.
Qed.

Lemma days_in_month_le (y m : Z) : (days_in_month y m <= 31)%Z.
Proof.
  unfold days_in_month. destruct (is_leap y);
    repeat match goal with
           | |- context [match ?x with _ => _ end] => destruct x
           end; lia.
Qed.

Lemma new_Timestamp_ok (mo d hh mi : Z) :
  ((1 <=? mo) && (mo <=? 12) && (1 <=? d) && (d <=? days_in_month 2023 mo))%Z = true ->
  clock_range (hh, mi) = true ->
  new_Timestamp 2023 mo d hh mi = Ok (mkTimestamp 2023 mo d hh mi).
Proof.
  unfold new_Timestamp, clock_range. cbn [fst snd]. intros Hd Hc.
  replace (fits_c_int 2023 && fits_c_int mo && fits_c_int d
           && fits_c_int hh && fits_c_int mi) with true.
  - cbn [negb].
    rewrite <- !andb_assoc in *.
    apply andb_true_iff in Hd as [H1 Hd]. apply andb_true_iff in Hd as [H2 Hd].
    apply andb_true_iff in Hd as [H3 H4].
    now rewrite H1, H2, H3, H4, Hc.
  - symmetry. pose proof (days_in_month_le 2023 mo) as Hle.
    rewrite !andb_true_iff in Hd, Hc. rewrite !Z.leb_le in Hd, Hc.
    unfold fits_c_int. rewrite !andb_true_iff, !Z.leb_le. lia.
Qed.

(** A valid pair on a day of 2023: exactly one reading is appended. *)
Lemma slot_body_valid (r : Row) (mo d : Z) (rows : list Reading) (i : Z) :
  ((1 <=? mo) && (mo <=? 12) && (1 <=? d) && (d <=? days_in_month 2023 mo))%Z = true ->
  valid_pair (t_col i r) (h_col i r) = true ->
  exists hh mi v,
    time_fields (t_col i r) = Some (hh, mi)
    /\ py_float (strip (str (h_col i r))) = Some v
    /\ slot_body r mo d rows i
       = Ok (rows ++ [mkReading (mkTimestamp 2023 mo d hh mi) v i mo d]).
Proof.
  intros Hd Hv. unfold valid_pair in Hv.
  apply andb_true_iff in Hv as [Hv Hf]. apply andb_true_iff in Hv as [Hv Ht].
  apply andb_true_iff in Hv as [Hbt Hbh].
  apply negb_true_iff in Hbt, Hbh.
  destruct (time_fields (t_col i r)) as [[hh mi]|] eqn:Etf; [|discriminate].
  destruct (py_float (strip (str (h_col i r)))) as [v|] eqn:Ef; [|discriminate].
  exists hh, mi, v. repeat split.
  rewrite slot_body_eq, Hbt, Hbh, Etf, (@new_Timestamp_ok mo d hh mi Hd Ht). simpl.
  now rewrite Ef.
Qed.

Lemma for_each_appends (A : Type) (body : list Reading -> A -> result (list Reading))
  (xs : list A) :
  appends body -> appends (fun rows (_ : unit) => for_each xs body rows).
Proof.
  intros Hb. induction xs as [|x xs IH]; intros rows u; simpl.
  - now rewrite app_nil_r.
  - rewrite (Hb rows x). destruct (body [] x) as [rs|e]; simpl; [|reflexivity].
    rewrite (IH (rows ++ rs) u), (IH rs u).
    destruct (for_each xs body []) as [rs'|e]; simpl; [|reflexivity].
    now rewrite app_assoc.
Qed.

Lemma slot_body_appends (r : Row) (mo d : Z) : appends (slot_body r mo d).
Proof.
  intros rows i. rewrite !slot_body_eq.
  destruct (blank (t_col i r)); [simpl; now rewrite app_nil_r|].
  destruct (blank (h_col i r)); [simpl; now rewrite app_nil_r|].
  destruct (time_fields (t_col i r)) as [[hh mi]|]; [|simpl; now rewrite app_nil_r].
  destruct (new_Timestamp 2023 mo d hh mi) as [dt|e]; simpl; [|reflexivity].
  destruct (py_float _); simpl; [reflexivity | now rewrite app_nil_r].
Qed.

Lemma row_body_appends : appends row_body.
Proof.
  intros rows r. unfold row_body.
  destruct (int (Wide.month r)) as [mo|e]; simpl; [|reflexivity].
  destruct (int (Wide.day r)) as [d|e]; simpl; [|reflexivity].
  apply (@for_each_appends _ _ [1; 2; 3; 4]%Z (slot_body_appends r mo d) rows tt).
Qed.

(** The readings of one row, and the melt as their concatenation. *)
Lemma melt_cons (r : Row) (df : DataFrame) :
  melt (r :: df) = (rs <- row_body [] r ;; rest <- melt df ;; Ok (rs ++ rest)).
Proof.
  unfold melt. simpl. destruct (row_body [] r) as [rs|e]; simpl; [|reflexivity].
  apply (@for_each_appends _ _ df row_body_appends rs tt).
Qed.

(** Every exception of the melt loop is a [ValueError] or an
    [OverflowError]. *)
Lemma int_raises (c : cell) (e : exn) : int c = Raise e -> e = ValueError.
Proof.
  destruct c as [|s]; simpl; [congruence|]. destruct (py_int s); congruence.
Qed.

Lemma new_Timestamp_raises (y mo d hh mi : Z) (e : exn) :
  new_Timestamp y mo d hh mi = Raise e -> loop_exn e.
Proof.
  unfold new_Timestamp, loop_exn. destruct (negb _); [intros [= <-]; now right|].
  destruct (_ && _); [discriminate|]. intros [= <-]. now left.
Qed.

Lemma slot_body_raises (r : Row) (mo d : Z) (rows : list Reading) (i : Z) (e : exn) :
  slot_body r mo d rows i = Raise e -> loop_exn e.
Proof.
  rewrite slot_body_eq.
  destruct (blank (t_col i r)); [discriminate|].
  destruct (blank (h_col i r)); [discriminate|].
  destruct (time_fields (t_col i r)) as [[hh mi]|]; [|discriminate].
  destruct (new_Timestamp 2023 mo d hh mi) as [dt|e'] eqn:E; simpl.
  - destruct (py_float _); discriminate.
  - intros [= <-]. eapply new_Timestamp_raises; eassumption.
Qed.

Lemma for_each_raises (A S : Type) (P : exn -> Prop)
  (body : S -> A -> result S) (xs : list A) :
  (forall s x e, body s x = Raise e -> P e) ->
  forall s e, for_each xs body s = Raise e -> P e.
Proof.
  intros Hb. induction xs as [|x xs IH]; intros s e; simpl; [discriminate|].
  destruct (body s x) as [s'|e'] eqn:E; simpl.
  - apply IH.
  - intros [= <-]. eapply Hb; eassumption.
Qed.

Lemma row_body_raises (rows : list Reading) (r : Row) (e : exn) :
  row_body rows r = Raise e -> loop_exn e.
Proof.
  unfold row_body.
  destruct (int (Wide.month r)) as [mo|e'] eqn:Em; cbn [bind];
    [|intros [= <-]; left; eapply int_raises; eassumption].
  destruct (int (Wide.day r)) as [d|e'] eqn:Ed; cbn [bind];
    [|intros [= <-]; left; eapply int_raises; eassumption].
  apply (@for_each_raises _ _ loop_exn). intros s x e0. apply slot_body_raises.
Qed.

Lemma melt_raises (df : DataFrame) (e : exn) :
  melt df = Raise e -> loop_exn e.
Proof.
  apply (@for_each_raises _ _ loop_exn). intros s x e0. apply row_body_raises.
Qed.

(** A row whose month or day [int] rejects raises [ValueError], whatever
    the readings collected so far. *)
Lemma row_body_bad_date (rows : list Reading) (r : Row) :
  bad_date r -> row_body rows r = Raise ValueError.
Proof.
  intros Hr. unfold row_body. destruct Hr as [-> | Hd]; [reflexivity|].
  destruct (int (Wide.month r)) as [mo|e] eqn:Em; simpl.
  - now rewrite Hd.
  - now rewrite (@int_raises _ _ Em).
Qed.

(** A row whose month or day [int] rejects ends the loop, whatever the
    rows before it did: with the exception of an earlier row if one
    raised, with [ValueError] if the loop comes to the row. *)
Lemma melt_bad_date (df : DataFrame) :
  Exists bad_date df -> exists e, melt df = Raise e /\ loop_exn e.
Proof.
  induction 1 as [r df Hr | r df _ IH]; rewrite melt_cons.
  - rewrite (row_body_bad_date [] r Hr). exists ValueError. split; [reflexivity | now left].
  - destruct (row_body [] r) as [rs|e] eqn:E; simpl.
    + destruct IH as (e & -> & He). now exists e.
    + exists e. split; [reflexivity|]. eapply row_body_raises; eassumption.
Qed.

Lemma melt_concat (df1 df2 : DataFrame) :
  melt (df1 ++ df2)
  = (rows1 <- melt df1 ;; rows2 <- melt df2 ;; Ok (rows1 ++ rows2)).
Proof.
  induction df1 as [|r df1 IH].
  - cbn [app]. change (melt []) with (@Ok (list Reading) []). cbn [bind].
    destruct (melt df2); reflexivity.
  - rewrite <- app_comm_cons, !melt_cons.
    destruct (row_body [] r) as [rs|e]; cbn [bind]; [|reflexivity].
    rewrite IH. destruct (melt df1) as [rows1|e]; cbn [bind]; [|reflexivity].
    destruct (melt df2) as [rows2|e]; cbn [bind]; [|reflexivity].
    now rewrite app_assoc.
Qed.

Lemma melt_reaches_bad_date (df1 df2 : DataFrame) (r : Row) (rows1 : list Reading) :
  melt df1 = Ok rows1 -> bad_date r ->
  melt (df1 ++ r :: df2) = Raise ValueError.
Proof.
  intros H1 Hr. rewrite melt_concat, H1. cbn [bind].
  rewrite melt_cons, (row_body_bad_date [] r Hr). reflexivity.
Qed.

Lemma row_body_all_blank (r : Row) (mo d : Z) (rows : list Reading) :
  int (Wide.month r) = Ok mo -> int (Wide.day r) = Ok d ->
  all_pairs_blank r = true -> row_body rows r = Ok rows.
Proof.
  intros Hm Hd Hb. unfold row_body. rewrite Hm, Hd. cbn [bind for_each].
  unfold all_pairs_blank in Hb. cbn [forallb] in Hb.
  repeat (apply andb_true_iff in Hb as [?H Hb]).
  repeat (rewrite slot_body_blank by assumption; cbn [bind]). reflexivity.
Qed.

(** Claim C7.  A slot whose time or height is missing or blank is
    passed over: no reading, no exception.  A row whose month and day
    are numbers and whose four pairs are blank adds no reading, and the
    line 03,16,0601,1.3,,,1830,1.6,, gives the readings of its pairs 1
    and 3 and no other. *)
Theorem blank_slots_are_skipped :
  (forall r mo d rows i,
      blank (t_col i r) || blank (h_col i r) = true ->
      slot_body r mo d rows i = Ok rows)
  /\ (forall r mo d rows,
        int (Wide.month r) = Ok mo -> int (Wide.day r) = Ok d ->
        all_pairs_blank r = true -> row_body rows r = Ok rows)
  /\ melt (read_csv [march_16])
     = Ok [reading 3 16 6 1 (PyDec false 13 (-1)) 1;
           reading 3 16 18 30 (PyDec false 16 (-1)) 3].
Proof.
  split; [|split].
  - intros r mo d rows i H. now apply slot_body_blank.
  - intros r mo d rows. apply row_body_all_blank.
  - reflexivity.
Qed.

Lemma blank_slots_are_skipped_witness :
  (int (Wide.month (read_row march_17_blank)) = Ok 3%Z
   /\ int (Wide.day (read_row march_17_blank)) = Ok 17%Z
   /\ all_pairs_blank (read_row march_17_blank) = true)
  /\ row_body [] (read_row march_17_blank) = Ok [].
Proof.
  split; [repeat split|].
  apply (proj1 (proj2 blank_slots_are_skipped) (read_row march_17_blank) 3%Z 17%Z []);
    reflexivity.
Defined.

Lemma date_of_some (r : Row) (mo d : Z) :
  date_of r = Some (mo, d) ->
  int (Wide.month r) = Ok mo /\ int (Wide.day r) = Ok d
  /\ ((1 <=? mo) && (mo <=? 12) && (1 <=? d) && (d <=? days_in_month 2023 mo))%Z = true.
Proof.
  unfold date_of.
  destruct (int (Wide.month r)) as [mo'|]; [|discriminate].
  destruct (int (Wide.day r)) as [d'|]; [|discriminate].
  destruct (_ && _) eqn:E; [|discriminate].
  intros [= <- <-]. auto.
Qed.

(** A row with a date of 2023 and four valid pairs appends four
    readings. *)
Lemma row_body_four_valid (r : Row) (rows : list Reading) :
  four_valid_pairs r = true ->
  exists rs, row_body rows r = Ok (rows ++ rs) /\ length rs = 4.
Proof.
  unfold four_valid_pairs.
  destruct (date_of r) as [[mo d]|] eqn:Ed; [|discriminate].
  apply date_of_some in Ed as (Hm & Hd & Hrange).
  cbn [forallb]. intros Hv.
  repeat (apply andb_true_iff in Hv as [?Hv Hv]).
  unfold row_body. rewrite Hm, Hd. cbn [bind for_each].
  destruct (@slot_body_valid r mo d rows 1%Z Hrange Hv0) as (? & ? & ? & _ & _ & ->).
  cbn [bind].
  match goal with |- context [slot_body r mo d ?acc 2%Z] =>
    destruct (@slot_body_valid r mo d acc 2%Z Hrange Hv1) as (? & ? & ? & _ & _ & ->) end.
  cbn [bind].
  match goal with |- context [slot_body r mo d ?acc 3%Z] =>
    destruct (@slot_body_valid r mo d acc 3%Z Hrange Hv2) as (? & ? & ? & _ & _ & ->) end.
  cbn [bind].
  match goal with |- context [slot_body r mo d ?acc 4%Z] =>
    destruct (@slot_body_valid r mo d acc 4%Z Hrange Hv3) as (? & ? & ? & _ & _ & ->) end.
  cbn [bind]. rewrite <- !app_assoc. eexists. split; [reflexivity|]. reflexivity.
Qed.

Lemma melt_four_valid (df : DataFrame) :
  forallb four_valid_pairs df = true ->
  exists rows, melt df = Ok rows /\ length rows = 4 * length df.
Proof.
  induction df as [|r df IH]; intros H.
  - exists []. split; reflexivity.
  - cbn [forallb] in H. apply andb_true_iff in H as [Hr Hdf].
    destruct (IH Hdf) as (rest & Hrest & Hlen).
    destruct (@row_body_four_valid r [] Hr) as (rs & Hrs & Hlen4).
    exists (rs ++ rest). rewrite melt_cons, Hrs, Hrest. split; [reflexivity|].
    rewrite length_app. cbn [length]. lia.
Qed.

End Melt.

(* ================================================================= *)
(** ** numpy's quicksort: a sorted permutation of the positions *)

Section NpyArrays.

Import NpySort.

Lemma length_put (a : list nat) (p x : nat) : length (put a p x) = length a.
Proof.
  revert p. induction a as [|y a IH]; intros p; [reflexivity|].
  destruct p; cbn [put length]; [reflexivity | now rewrite IH].
Qed.

Lemma get_put (a : list nat) (p x q : nat) :
  p < length a -> get (put a p x) q = if q =? p then x else get a q.
Proof.
  unfold get. revert p q. induction a as [|y a IH]; intros p q Hp.
  - simpl in Hp. lia.
  - destruct p, q; cbn [put nth length] in *; try reflexivity.
    rewrite IH by lia. reflexivity.
Qed.

Lemma put_outside (a : list nat) (p x : nat) : length a <= p -> put a p x = a.
Proof.
  revert p. induction a as [|y a IH]; intros p Hp; [reflexivity|].
  destruct p; cbn [put length] in *; [lia|]. now rewrite IH by lia.
Qed.

Lemma occ_put (a : list nat) (p x z : nat) :
  p < length a ->
  occ (put a p x) z + one (get a p) z = occ a z + one x z.
Proof.
  unfold occ, one, get. revert p. induction a as [|y a IH]; intros p Hp.
  - simpl in Hp. lia.
  - destruct p; cbn [put nth length count_occ] in *.
    + destruct (Nat.eq_dec x z), (Nat.eq_dec y z); lia.
    + specialize (IH p ltac:(lia)).
      destruct (Nat.eq_dec y z); lia.
Qed.

Lemma occ_permutation (a b : list nat) :
  (forall z, occ a z = occ b z) -> Permutation a b.
Proof. intros H. now apply (Permutation_count_occ Nat.eq_dec). Qed.

Lemma permutation_occ (a b : list nat) (z : nat) :
  Permutation a b -> occ a z = occ b z.
Proof. intros H. now apply (Permutation_count_occ Nat.eq_dec). Qed.

Lemma length_swap (a : list nat) (i j : nat) : length (swap a i j) = length a.
Proof. unfold swap. now rewrite !length_put. Qed.

Lemma get_swap (a : list nat) (i j k : nat) :
  i < length a -> j < length a ->
  get (swap a i j) k
  = if k =? j then get a i else if k =? i then get a j else get a k.
Proof.
  intros Hi Hj. unfold swap.
  rewrite get_put by (now rewrite length_put). now rewrite get_put.
Qed.

Lemma swap_permutation (a : list nat) (i j : nat) :
  i < length a -> j < length a -> Permutation a (swap a i j).
Proof.
  intros Hi Hj. apply occ_permutation. intros z. unfold swap.
  pose proof (occ_put a i (get a j) z Hi) as H1.
  pose proof (occ_put (put a i (get a j)) j (get a i) z
                ltac:(now rewrite length_put)) as H2.
  rewrite get_put in H2 by exact Hi.
  destruct (Nat.eqb_spec j i) as [->|Hne]; lia.
Qed.

End NpyArrays.

Section SortedLists.

Variable A : Type.
Variable R : A -> A -> Prop.

Lemma StronglySorted_app (l1 l2 : list A) :
  StronglySorted R l1 -> StronglySorted R l2 ->
  (forall x y, In x l1 -> In y l2 -> R x y) ->
  StronglySorted R (l1 ++ l2).
Proof.
  intros H1 H2 H. induction H1 as [|x l1 H1 IH Hx]; [exact H2|].
  cbn [app]. constructor.
  - apply IH. intros a b Ha Hb. apply H; [now right | exact Hb].
  - apply Forall_app. split; [exact Hx|].
    apply Forall_forall. intros y Hy. apply H; [now left | exact Hy].
Qed.

Lemma StronglySorted_rev (l : list A) :
  StronglySorted (fun x y => R y x) l -> StronglySorted R (rev l).
Proof.
  induction 1 as [|x l Hl IH Hx]; [constructor|].
  cbn [rev]. apply StronglySorted_app; [exact IH | repeat constructor|].
  intros a b Ha [<- | []]. apply in_rev in Ha.
  rewrite Forall_forall in Hx. now apply Hx.
Qed.

End SortedLists.

Section NpyInsertion.

Import NpySort.

Variable v : list Z.

Lemma shift_in_permutation (vi : nat) (before : list nat) :
  Permutation (vi :: before) (shift_in v vi before).
Proof.
  induction before as [|k rest IH]; cbn [shift_in]; [reflexivity|].
  destruct (less _ _); [|reflexivity].
  rewrite perm_swap. now constructor.
Qed.

Lemma shift_in_sorted (vi : nat) (before : list nat) :
  StronglySorted (fun x y => keyle v y x) before ->
  StronglySorted (fun x y => keyle v y x) (shift_in v vi before).
Proof.
  induction 1 as [|k rest Hrest IH Hk]; cbn [shift_in].
  - repeat constructor.
  - destruct (less (key v vi) (key v k)) eqn:E; unfold less in E.
    + constructor; [exact IH|].
      apply (Permutation_Forall (shift_in_permutation vi rest)).
      constructor; [|exact Hk]. unfold keyle. apply Z.ltb_lt in E. lia.
    + apply Z.ltb_ge in E. constructor; [now constructor|].
      constructor; [exact E|].
      revert Hk. apply Forall_impl. intros y Hy. unfold keyle in *. lia.
Qed.

Lemma insertion_fold (seg before : list nat) :
  StronglySorted (fun x y => keyle v y x) before ->
  let r := fold_left (fun b vi => shift_in v vi b) seg before in
  StronglySorted (fun x y => keyle v y x) r
  /\ Permutation (rev seg ++ before) r.
Proof.
  revert before. induction seg as [|vi seg IH]; intros before Hb; cbn [fold_left].
  - split; [exact Hb | reflexivity].
  - destruct (IH (shift_in v vi before) (shift_in_sorted vi before Hb)) as [Hs Hp].
    split; [exact Hs|]. cbn [rev]. rewrite <- app_assoc. cbn [app].
    etransitivity; [|exact Hp].
    apply Permutation_app_head, shift_in_permutation.
Qed.

Lemma insertion_sort_spec (seg : list nat) :
  Permutation seg (insertion_sort v seg)
  /\ StronglySorted (keyle v) (insertion_sort v seg).
Proof.
  unfold insertion_sort.
  destruct (insertion_fold seg [] (SSorted_nil _)) as [Hs Hp].
  cbn zeta in *. split.
  - rewrite app_nil_r in Hp. rewrite <- Hp at 1.
    rewrite <- Permutation_rev. etransitivity; [apply Permutation_rev|].
    now rewrite <- Permutation_rev.
  - now apply StronglySorted_rev.
Qed.

End NpyInsertion.

Section NpyPartition.

Import NpySort.

Variable v : list Z.

#[local] Abbreviation K a k := (key v (get a k)).

Lemma scan_up_spec (f : nat) (a : list nat) (vp : Z) (p s : nat) :
  p <= s -> s - p < f -> less (K a s) vp = false ->
  p <= scan_up v f a vp p <= s
  /\ less (K a (scan_up v f a vp p)) vp = false
  /\ forall k, p <= k < scan_up v f a vp p -> less (K a k) vp = true.
Proof.
  revert p. induction f as [|f IH]; intros p Hps Hf Hs; [lia|].
  cbn [scan_up]. destruct (less (K a p) vp) eqn:E.
  - assert (p <> s) by (intros ->; congruence).
    destruct (IH (S p)) as (H1 & H2 & H3); [lia | lia | exact Hs |].
    split; [lia|]. split; [exact H2|].
    intros k Hk. destruct (Nat.eq_dec k p) as [->|]; [exact E | apply H3; lia].
  - split; [lia|]. split; [exact E|]. intros k Hk. lia.
Qed.

Lemma scan_down_spec (f : nat) (a : list nat) (vp : Z) (p s : nat) :
  s <= p -> p - s < f -> less vp (K a s) = false ->
  s <= scan_down v f a vp p <= p
  /\ less vp (K a (scan_down v f a vp p)) = false
  /\ forall k, scan_down v f a vp p < k <= p -> less vp (K a k) = true.
Proof.
  revert p. induction f as [|f IH]; intros p Hps Hf Hs; [lia|].
  cbn [scan_down]. destruct (less vp (K a p)) eqn:E.
  - assert (p <> s) by (intros ->; congruence).
    destruct (IH (p - 1)) as (H1 & H2 & H3); [lia | lia | exact Hs |].
    split; [lia|]. split; [exact H2|].
    intros k Hk. destruct (Nat.eq_dec k p) as [->|]; [exact E | apply H3; lia].
  - split; [lia|]. split; [exact E|]. intros k Hk. lia.
Qed.

Lemma exchange_spec (f : nat) (vp : Z) :
  forall (a : list nat) (pi pj : nat),
    pi < pj -> pj < length a -> pj - pi <= f ->
    (forall k, k <= pi -> (K a k <= vp)%Z) ->
    (forall k, pj <= k < length a -> (vp <= K a k)%Z) ->
    length (fst (exchange v f a vp pi pj)) = length a
    /\ Permutation a (fst (exchange v f a vp pi pj))
    /\ pi < snd (exchange v f a vp pi pj) <= pj
    /\ (forall k, k < snd (exchange v f a vp pi pj) ->
                  (K (fst (exchange v f a vp pi pj)) k <= vp)%Z)
    /\ (forall k, snd (exchange v f a vp pi pj) <= k < length a ->
                  (vp <= K (fst (exchange v f a vp pi pj)) k)%Z)
    /\ (forall k, pj <= k ->
                  get (fst (exchange v f a vp pi pj)) k = get a k).
Proof.
  induction f as [|f IH]; intros a pi pj Hij Hj Hf Hlo Hhi; [lia|].
  cbn [exchange].
  destruct (scan_up_spec (length a) a vp (S pi) pj) as (U1 & U2 & U3);
    [lia | lia | unfold less; apply Z.ltb_ge, Hhi; lia |].
  destruct (scan_down_spec (length a) a vp (pj - 1) pi) as (D1 & D2 & D3);
    [lia | lia | unfold less; apply Z.ltb_ge, Hlo; lia |].
  set (pi' := scan_up v (length a) a vp (S pi)) in *.
  set (pj' := scan_down v (length a) a vp (pj - 1)) in *.
  unfold less in U2, U3, D2, D3.
  apply Z.ltb_ge in U2, D2.
  assert (Hlow : forall k, k < pi' -> (K a k <= vp)%Z).
  { intros k Hk. destruct (Nat.le_gt_cases k pi) as [H|H]; [now apply Hlo|].
    specialize (U3 k ltac:(lia)). apply Z.ltb_lt in U3. lia. }
  assert (Hhigh : forall k, pj' < k < length a -> (vp <= K a k)%Z).
  { intros k Hk. destruct (Nat.le_gt_cases pj k) as [H|H]; [apply Hhi; lia|].
    specialize (D3 k ltac:(lia)). apply Z.ltb_lt in D3. lia. }
  destruct (Nat.leb_spec pj' pi') as [Hx|Hx]; cbn [fst snd].
  - split; [reflexivity|]. split; [reflexivity|]. split; [lia|].
    split; [exact Hlow|]. split; [|reflexivity].
    intros k Hk. destruct (Nat.eq_dec k pi') as [->|]; [exact U2|].
    apply Hhigh. lia.
  - assert (Li : pi' < length a) by lia.
    assert (Lj : pj' < length a) by lia.
    destruct (IH (swap a pi' pj') pi' pj') as (R1 & R2 & R3 & R4 & R5 & R6).
    + exact Hx.
    + now rewrite length_swap.
    + lia.
    + intros k Hk. rewrite get_swap by assumption.
      destruct (Nat.eqb_spec k pj'); [lia|].
      destruct (Nat.eqb_spec k pi'); [exact D2|]. apply Hlow. lia.
    + intros k Hk. rewrite length_swap in Hk. rewrite get_swap by assumption.
      destruct (Nat.eqb_spec k pj'); [exact U2|].
      destruct (Nat.eqb_spec k pi'); [lia|]. apply Hhigh. lia.
    + rewrite length_swap in *. split; [exact R1|].
      split; [etransitivity; [apply (swap_permutation a pi' pj' Li Lj) | exact R2]|].
      split; [lia|]. split; [exact R4|]. split; [exact R5|].
      intros k Hk. rewrite R6 by lia. rewrite get_swap by assumption.
      destruct (Nat.eqb_spec k pj'); [lia|].
      destruct (Nat.eqb_spec k pi'); [lia|]. reflexivity.
Qed.

(** One conditional swap of the median-of-three step. *)
Lemma order_pair (a : list nat) (i j : nat) :
  i < length a -> j < length a -> i <> j ->
  let a' := if less (K a i) (K a j) then swap a i j else a in
  length a' = length a /\ Permutation a a'
  /\ K a' i = Z.max (K a i) (K a j) /\ K a' j = Z.min (K a i) (K a j)
  /\ forall k, k <> i -> k <> j -> get a' k = get a k.
Proof.
  intros Hi Hj Hne. cbn zeta. unfold less.
  destruct (Z.ltb_spec (K a i) (K a j)) as [H|H].
  - rewrite length_swap. split; [reflexivity|].
    split; [now apply swap_permutation|].
    rewrite !get_swap by assumption. rewrite !Nat.eqb_refl.
    destruct (Nat.eqb_spec i j); [contradiction|].
    split; [lia|]. split; [lia|].
    intros k Hki Hkj. rewrite get_swap by assumption.
    destruct (Nat.eqb_spec k j); [contradiction|].
    destruct (Nat.eqb_spec k i); [contradiction|]. reflexivity.
  - split; [reflexivity|]. split; [reflexivity|].
    split; [lia|]. split; [lia|]. reflexivity.
Qed.

Lemma partition_spec (a : list nat) :
  3 <= length a ->
  length (fst (partition v a)) = length a
  /\ Permutation a (fst (partition v a))
  /\ 0 < snd (partition v a) < length a - 1
  /\ (forall k, k < snd (partition v a) ->
        (K (fst (partition v a)) k
         <= K (fst (partition v a)) (snd (partition v a)))%Z)
  /\ (forall k, snd (partition v a) < k < length a ->
        (K (fst (partition v a)) (snd (partition v a))
         <= K (fst (partition v a)) k)%Z).
Proof.
  intros Hn. unfold partition.
  set (pr := length a - 1). set (pm := 0 + (pr - 0) / 2).
  assert (Hpm : 0 < pm < pr).
  { unfold pm, pr. rewrite Nat.add_0_l, Nat.sub_0_r.
    pose proof (Nat.div_mod_eq (length a - 1) 2) as E.
    pose proof (Nat.mod_upper_bound (length a - 1) 2 ltac:(lia)). lia. }
  destruct (order_pair a pm 0) as (L1 & P1 & X1 & N1 & F1); [lia | lia | lia |].
  set (a1 := if less (K a pm) (K a 0) then swap a pm 0 else a) in *.
  destruct (order_pair a1 pr pm) as (L2 & P2 & X2 & N2 & F2); [lia | lia | lia |].
  set (a2 := if less (K a1 pr) (K a1 pm) then swap a1 pr pm else a1) in *.
  destruct (order_pair a2 pm 0) as (L3 & P3 & X3 & N3 & F3); [lia | lia | lia |].
  set (a3 := if less (K a2 pm) (K a2 0) then swap a2 pm 0 else a2) in *.
  set (vp := K a3 pm).
  assert (H0 : (K a3 0 <= vp)%Z) by (unfold vp; lia).
  assert (Hr : (vp <= K a3 pr)%Z).
  { unfold vp. rewrite (F3 pr) by lia. rewrite X3, X2.
    rewrite (F2 0) by lia. lia. }
  set (a4 := swap a3 pm (pr - 1)).
  assert (L4 : length a4 = length a) by (unfold a4; rewrite length_swap; lia).
  assert (G4 : forall k, get a4 k
                 = if k =? pr - 1 then get a3 pm
                   else if k =? pm then get a3 (pr - 1) else get a3 k).
  { intros k. unfold a4. apply get_swap; lia. }
  assert (P4 : Permutation a a4).
  { etransitivity; [exact P1|]. etransitivity; [exact P2|].
    etransitivity; [exact P3|]. apply swap_permutation; lia. }
  destruct (exchange_spec (length a4) vp a4 0 (pr - 1))
    as (R1 & R2 & R3 & R4 & R5 & R6).
  - lia.
  - lia.
  - lia.
  - intros k Hk. assert (k = 0) as -> by lia. rewrite G4.
    destruct (Nat.eqb_spec 0 (pr - 1)); [lia|].
    destruct (Nat.eqb_spec 0 pm); [lia | exact H0].
  - intros k Hk. rewrite G4.
    destruct (Nat.eqb_spec k (pr - 1)); [unfold vp; lia|].
    assert (k = pr) as -> by lia.
    destruct (Nat.eqb_spec pr pm); [lia | exact Hr].
  - destruct (exchange v (length a4) a4 vp 0 (pr - 1)) as [a5 pi] eqn:E.
    cbn [fst snd] in *.
    assert (Lpi : pi < length a5) by lia.
    assert (Lpr : pr - 1 < length a5) by lia.
    assert (Gp : K a5 (pr - 1) = vp).
    { rewrite R6 by lia. rewrite G4, Nat.eqb_refl. reflexivity. }
    split; [rewrite length_swap; lia|].
    split; [etransitivity; [exact P4|]; etransitivity; [exact R2|];
            now apply swap_permutation|].
    split; [unfold pr in *; lia|].
    assert (Gpi : K (swap a5 pi (pr - 1)) pi = vp).
    { rewrite get_swap by assumption.
      destruct (Nat.eqb_spec pi (pr - 1)) as [->|]; [|rewrite Nat.eqb_refl];
        exact Gp. }
    rewrite Gpi. split.
    + intros k Hk. rewrite get_swap by assumption.
      destruct (Nat.eqb_spec k (pr - 1)); [lia|].
      destruct (Nat.eqb_spec k pi); [lia|]. now apply R4.
    + intros k Hk. rewrite get_swap by assumption.
      destruct (Nat.eqb_spec k (pr - 1)); [apply R5; lia|].
      destruct (Nat.eqb_spec k pi); [lia|]. apply R5. lia.
Qed.

End NpyPartition.

Section NpyHeap.

Import NpySort.

Variable v : list Z.

#[local] Abbreviation K1 a k := (key v (get1 a k)).

Lemma length_put1 (a : list nat) (i x : nat) : length (put1 a i x) = length a.
Proof. apply length_put. Qed.

Lemma get1_put1 (a : list nat) (i x k : nat) :
  1 <= i <= length a -> 1 <= k ->
  get1 (put1 a i x) k = if k =? i then x else get1 a k.
Proof.
  intros Hi Hk. unfold get1, put1. rewrite get_put by lia.
  destruct (Nat.eqb_spec (k - 1) (i - 1)), (Nat.eqb_spec k i);
    try reflexivity; lia.
Qed.

Lemma occ_put1 (a : list nat) (i x z : nat) :
  1 <= i <= length a ->
  occ (put1 a i x) z + one (get1 a i) z = occ a z + one x z.
Proof. intros Hi. unfold get1, put1. apply occ_put. lia. Qed.

Lemma sift_spec (lo n tmp : nat) (f : nat) :
  forall (a : list nat) (i : nat),
    1 <= lo -> lo <= i -> i <= n -> n <= length a -> n < f + i ->
    hole_ok v lo n a i tmp ->
    length (sift v f a tmp i (i + i) n) = length a
    /\ heap_le v lo n (sift v f a tmp i (i + i) n)
    /\ (forall z, occ (sift v f a tmp i (i + i) n) z = occ (put1 a i tmp) z)
    /\ (forall k, n < k -> get1 (sift v f a tmp i (i + i) n) k = get1 a k)
    /\ (forall B, (key v tmp <= B)%Z ->
                  (forall k, lo <= k <= n -> k <> i -> (K1 a k <= B)%Z) ->
                  forall k, lo <= k <= n ->
                            (K1 (sift v f a tmp i (i + i) n) k <= B)%Z).
Proof.
  induction f as [|f IH]; intros a i Hlo Hi Hin Hn Hf (H1 & H2 & H3); [lia|].
  assert (Hstop : (forall c, c = 2 * i \/ c = 2 * i + 1 -> c <= n ->
                             (K1 a c <= key v tmp)%Z) ->
                  length (put1 a i tmp) = length a
                  /\ heap_le v lo n (put1 a i tmp)
                  /\ (forall z, occ (put1 a i tmp) z = occ (put1 a i tmp) z)
                  /\ (forall k, n < k -> get1 (put1 a i tmp) k = get1 a k)
                  /\ (forall B, (key v tmp <= B)%Z ->
                        (forall k, lo <= k <= n -> k <> i -> (K1 a k <= B)%Z) ->
                        forall k, lo <= k <= n -> (K1 (put1 a i tmp) k <= B)%Z)).
  { intros Hc. split; [apply length_put1|]. split; [|split; [reflexivity|split]].
    - intros k c Hk Hkc Hcn. rewrite !get1_put1 by lia.
      destruct (Nat.eqb_spec c i) as [->|Hci], (Nat.eqb_spec k i) as [->|Hki].
      + lia.
      + now apply H3.
      + now apply Hc.
      + now apply H1.
    - intros k Hk. rewrite get1_put1 by lia.
      destruct (Nat.eqb_spec k i); [lia | reflexivity].
    - intros B HB Hall k Hk. rewrite get1_put1 by lia.
      destruct (Nat.eqb_spec k i); [exact HB | now apply Hall]. }
  cbn [sift]. destruct (Nat.leb_spec (i + i) n) as [Hj|Hj];
    [|apply Hstop; intros c Hc Hcn; lia].
  set (j := if (i + i <? n) && less (K1 a (i + i)) (K1 a (i + i + 1))
            then i + i + 1 else i + i).
  assert (Hjj : (j = i + i \/ j = i + i + 1) /\ j <= n
                /\ (K1 a (i + i) <= K1 a j)%Z
                /\ (i + i + 1 <= n -> (K1 a (i + i + 1) <= K1 a j)%Z)).
  { unfold j, less. destruct (Nat.ltb_spec (i + i) n) as [Hlt|Hlt]; cbn [andb].
    - destruct (Z.ltb_spec (K1 a (i + i)) (K1 a (i + i + 1))); repeat split; lia.
    - repeat split; lia. }
  destruct Hjj as (Hj1 & Hj2 & Hj3 & Hj4).
  destruct (less (key v tmp) (K1 a j)) eqn:Hlt; unfold less in Hlt;
    [apply Z.ltb_lt in Hlt | apply Z.ltb_ge in Hlt; rename Hlt into Hge].
  - set (a1 := put1 a i (get1 a j)).
    assert (G1 : forall k, 1 <= k ->
                   get1 a1 k = if k =? i then get1 a j else get1 a k)
      by (intros k Hk; unfold a1; apply get1_put1; lia).
    assert (L1 : length a1 = length a) by apply length_put1.
    destruct (IH a1 j) as (R1 & R2 & R3 & R4 & R5); try lia.
    + split; [|split].
      * intros k c Hk Hkj Hkc Hcn Hcj. rewrite !G1 by lia.
        destruct (Nat.eqb_spec c i) as [->|Hci], (Nat.eqb_spec k i) as [->|Hki].
        -- lia.
        -- apply (H2 k j); lia.
        -- assert (c = i + i \/ c = i + i + 1) as [->| ->] by lia; [lia|].
           apply Hj4. lia.
        -- apply H1; lia.
      * intros p c Hp Hjp Hc Hcn. assert (p = i) as -> by lia.
        rewrite !G1 by lia. rewrite Nat.eqb_refl.
        destruct (Nat.eqb_spec c i); [lia|]. apply (H1 j c); lia.
      * intros p Hp Hjp. assert (p = i) as -> by lia.
        rewrite G1 by lia. rewrite Nat.eqb_refl. lia.
    + split; [first [exact R1 | rewrite <- L1; exact R1]|]. split; [exact R2|].
      split; [|split].
      * intros z. rewrite R3.
        pose proof (occ_put1 a1 j tmp z ltac:(lia)) as E1.
        pose proof (occ_put1 a i (get1 a j) z ltac:(lia)) as E2.
        pose proof (occ_put1 a i tmp z ltac:(lia)) as E3.
        fold a1 in E2. rewrite G1 in E1 by lia.
        destruct (Nat.eqb_spec j i); [lia|]. lia.
      * intros k Hk. rewrite R4 by exact Hk. rewrite G1 by lia.
        destruct (Nat.eqb_spec k i); [lia | reflexivity].
      * intros B HB Hall k Hk. apply R5; [exact HB | | exact Hk].
        intros k' Hk' Hne. rewrite G1 by lia.
        destruct (Nat.eqb_spec k' i); apply Hall; lia.
  - apply Hstop. intros c Hc Hcn.
    assert (c = i + i \/ c = i + i + 1) as [->| ->] by lia; [lia|].
    specialize (Hj4 ltac:(lia)). lia.
Qed.

Lemma build_heap_spec (n : nat) (l : nat) :
  forall a : list nat,
    l <= n -> n <= length a -> heap_le v (S l) n a ->
    length (build_heap v l a n) = length a
    /\ heap_le v 1 n (build_heap v l a n)
    /\ (forall z, occ (build_heap v l a n) z = occ a z)
    /\ (forall k, n < k -> get1 (build_heap v l a n) k = get1 a k).
Proof.
  induction l as [|l IH]; intros a Hl Hn Hh; cbn [build_heap].
  - split; [reflexivity|]. split; [exact Hh|]. split; reflexivity.
  - replace (2 * S l) with (S l + S l) by lia.
    destruct (sift_spec (S l) n (get1 a (S l)) n a (S l))
      as (R1 & R2 & R3 & R4 & _); try lia.
    + split; [|split].
      * intros k c Hk Hne Hc Hcn _. apply Hh; [lia | exact Hc | exact Hcn].
      * intros p c Hp Hi. lia.
      * intros p Hp Hi. lia.
    + destruct (IH (sift v n a (get1 a (S l)) (S l) (S l + S l) n))
        as (S1 & S2 & S3 & S4); [lia | lia | exact R2 |].
      split; [lia|]. split; [exact S2|]. split.
      * intros z. rewrite S3, R3.
        pose proof (occ_put1 a (S l) (get1 a (S l)) z ltac:(lia)). lia.
      * intros k Hk. now rewrite S4, R4.
Qed.

Lemma heap_root (n : nat) (a : list nat) :
  heap_le v 1 n a -> forall k, 1 <= k <= n -> (K1 a k <= K1 a 1)%Z.
Proof.
  intros Hh k. induction k as [k IH] using (well_founded_induction lt_wf).
  intros Hk. destruct (Nat.eq_dec k 1) as [->|Hne]; [lia|].
  pose proof (Nat.div_mod_eq k 2) as E.
  pose proof (Nat.mod_upper_bound k 2 ltac:(lia)) as Hm.
  specialize (IH (k / 2) ltac:(lia) ltac:(lia)).
  specialize (Hh (k / 2) k ltac:(lia) ltac:(lia) ltac:(lia)). lia.
Qed.

Lemma sort_heap_spec (n : nat) :
  forall a : list nat,
    n <= length a -> heap_le v 1 n a -> tail_sorted v n a ->
    length (sort_heap v n a) = length a
    /\ (forall z, occ (sort_heap v n a) z = occ a z)
    /\ (forall k k', 1 <= k -> k <= k' -> k' <= length a ->
                     (K1 (sort_heap v n a) k <= K1 (sort_heap v n a) k')%Z).
Proof.
  induction n as [|n IH]; intros a Hn Hh (T1 & T2); cbn [sort_heap].
  - split; [reflexivity|]. split; [reflexivity|].
    intros k k' Hk Hkk Hk'. apply T1; lia.
  - destruct (Nat.ltb_spec 1 (S n)) as [H1n|H1n].
    + set (tmp := get1 a (S n)). set (a1 := put1 a (S n) (get1 a 1)).
      assert (G1 : forall k, 1 <= k ->
                     get1 a1 k = if k =? S n then get1 a 1 else get1 a k)
        by (intros k Hk; unfold a1; apply get1_put1; lia).
      assert (L1 : length a1 = length a) by apply length_put1.
      pose proof (heap_root (S n) a Hh) as Hroot.
      change 2 with (1 + 1).
      destruct (sift_spec 1 n tmp (S n) a1 1) as (R1 & R2 & R3 & R4 & R5); try lia.
      * split; [|split].
        -- intros k c Hk Hne Hc Hcn _. rewrite !G1 by lia.
           destruct (Nat.eqb_spec c (S n)); [lia|].
           destruct (Nat.eqb_spec k (S n)); [lia|]. apply Hh; lia.
        -- intros p c Hp Hi. lia.
        -- intros p Hp Hi. lia.
      * set (a2 := sift v (S n) a1 tmp 1 (1 + 1) n) in *.
        destruct (IH a2) as (S1 & S2 & S3); [lia | exact R2 | |].
        -- assert (B : forall k, 1 <= k <= n -> (K1 a2 k <= K1 a 1)%Z).
           { apply R5; [apply Hroot; lia|].
             intros k Hk _. rewrite G1 by lia.
             destruct (Nat.eqb_spec k (S n)); [lia|]. apply Hroot. lia. }
           assert (G2 : forall k, n < k -> get1 a2 k
                          = if k =? S n then get1 a 1 else get1 a k).
           { intros k Hk. rewrite R4 by exact Hk. apply G1. lia. }
           split.
           ++ intros k k' Hk Hkk Hk'. rewrite R1, L1 in Hk'.
              rewrite !G2 by lia.
              destruct (Nat.eqb_spec k (S n)) as [->|Hne],
                       (Nat.eqb_spec k' (S n)) as [->|Hne'].
              ** lia.
              ** apply T2; lia.
              ** lia.
              ** apply T1; lia.
           ++ intros k k' Hk Hnk Hk'. rewrite R1, L1 in Hk'.
              specialize (B k Hk). rewrite (G2 k') by lia.
              destruct (Nat.eqb_spec k' (S n)) as [->|Hne']; [exact B|].
              specialize (T2 1 k' ltac:(lia) ltac:(lia) Hk'). lia.
        -- split; [lia|]. split; [|intros k k' Hk Hkk Hk'; apply S3; lia].
           intros z. rewrite S2, R3.
           pose proof (occ_put1 a1 1 tmp z ltac:(lia)) as E1.
           pose proof (occ_put1 a (S n) (get1 a 1) z ltac:(lia)) as E2.
           fold a1 in E2. fold tmp in E2. rewrite G1 in E1 by lia.
           destruct (Nat.eqb_spec 1 (S n)); [lia|]. lia.
    + split; [reflexivity|]. split; [reflexivity|].
      intros k k' Hk Hkk Hk'. assert (n = 0) as -> by lia.
      destruct (Nat.eq_dec k 1) as [->|Hne]; [|apply T1; lia].
      destruct (Nat.eq_dec k' 1) as [->|Hne']; [lia|]. apply T2; lia.
Qed.

Lemma index_sorted (a : list nat) :
  (forall i j, i <= j -> j < length a ->
               (key v (get a i) <= key v (get a j))%Z) ->
  StronglySorted (keyle v) a.
Proof.
  induction a as [|x a IH]; intros H; constructor.
  - apply IH. intros i j Hij Hj. apply (H (S i) (S j)); cbn [length]; lia.
  - apply Forall_forall. intros y Hy.
    apply (In_nth _ _ 0) in Hy as (j & Hj & <-).
    apply (H 0 (S j)); cbn [length]; lia.
Qed.

Lemma aheapsort_spec (seg : list nat) :
  Permutation seg (aheapsort v seg)
  /\ StronglySorted (keyle v) (aheapsort v seg).
Proof.
  unfold aheapsort. set (n := length seg).
  pose proof (Nat.div_mod_eq n 2) as E.
  pose proof (Nat.mod_upper_bound n 2 ltac:(lia)) as Hm.
  destruct (build_heap_spec n (n / 2) seg) as (B1 & B2 & B3 & B4);
    [lia | unfold n; lia | intros k c Hk Hc Hcn; lia |].
  destruct (sort_heap_spec n (build_heap v (n / 2) seg n)) as (S1 & S2 & S3).
  - unfold n in *. lia.
  - exact B2.
  - split; intros k k' Hk Hkk Hk'; unfold n in *; lia.
  - split.
    + apply occ_permutation. intros z. now rewrite S2, B3.
    + apply index_sorted. intros i j Hij Hj.
      rewrite S1, B1 in Hj.
      specialize (S3 (S i) (S j) ltac:(lia) ltac:(lia) ltac:(lia)).
      unfold get1 in S3. cbn [Nat.sub] in S3. now rewrite !Nat.sub_0_r in S3.
Qed.

End NpyHeap.

Section NpyQuicksort.

Import NpySort.

Variable v : list Z.

Lemma split_at (a : list nat) (p : nat) :
  p < length a -> a = firstn p a ++ get a p :: skipn (S p) a.
Proof.
  unfold get. revert p. induction a as [|x a IH]; intros p Hp.
  - simpl in Hp. lia.
  - destruct p; cbn [firstn skipn nth app]; [reflexivity|].
    f_equal. apply IH. simpl in Hp. lia.
Qed.

Lemma in_firstn_get (a : list nat) (p x : nat) :
  In x (firstn p a) -> exists k, k < p /\ k < length a /\ get a k = x.
Proof.
  unfold get. revert p. induction a as [|y a IH]; intros p H.
  - rewrite firstn_nil in H. destruct H.
  - destruct p; cbn [firstn] in H; [destruct H|].
    destruct H as [<-|H].
    + exists 0. cbn [length nth]. repeat split; lia.
    + destruct (IH p H) as (k & Hk & Hl & Hg).
      exists (S k). cbn [length nth]. repeat split; [lia | lia | exact Hg].
Qed.

Lemma in_skipn_get (a : list nat) (p x : nat) :
  In x (skipn p a) -> exists k, p <= k < length a /\ get a k = x.
Proof.
  unfold get. revert p. induction a as [|y a IH]; intros p H.
  - rewrite skipn_nil in H. destruct H.
  - destruct p; cbn [skipn] in H.
    + apply (In_nth _ _ 0) in H as (k & Hk & Hx). exists k. split; [lia | exact Hx].
    + destruct (IH p H) as (k & Hk & Hg).
      exists (S k). cbn [length nth]. split; [lia | exact Hg].
Qed.

Lemma keyle_trans (x y z : nat) : keyle v x y -> keyle v y z -> keyle v x z.
Proof. unfold keyle. lia. Qed.

Lemma aquicksort_loop_spec (f : nat) :
  forall (popped : bool) (cdepth : Z) (seg : list nat),
    length seg < f ->
    Permutation seg (aquicksort_loop v f popped cdepth seg)
    /\ StronglySorted (keyle v) (aquicksort_loop v f popped cdepth seg).
Proof.
  induction f as [|f IH]; intros popped cdepth seg Hf; [lia|].
  cbn [aquicksort_loop].
  destruct (popped && (cdepth <? 0)%Z); [apply aheapsort_spec|].
  unfold SMALL_QUICKSORT.
  destruct (Nat.ltb_spec 16 (length seg - 1)) as [Hbig|Hsmall];
    [|apply insertion_sort_spec].
  destruct (partition_spec v seg ltac:(lia)) as (L & P & Hpi & Hlo & Hhi).
  destruct (partition v seg) as [a pi]. cbn [fst snd] in *.
  assert (Hsplit := split_at a pi ltac:(lia)).
  assert (Hleft : Forall (fun x => keyle v x (get a pi)) (firstn pi a)).
  { apply Forall_forall. intros x Hx.
    apply in_firstn_get in Hx as (k & Hk & _ & <-). now apply Hlo. }
  assert (Hright : Forall (fun x => keyle v (get a pi) x) (skipn (S pi) a)).
  { apply Forall_forall. intros x Hx.
    apply in_skipn_get in Hx as (k & Hk & <-). apply Hhi. lia. }
  assert (Ll : length (firstn pi a) < f) by (rewrite length_firstn; lia).
  assert (Lr : length (skipn (S pi) a) < f) by (rewrite length_skipn; lia).
  assert (Hjoin : forall l r,
             Permutation (firstn pi a) l -> StronglySorted (keyle v) l ->
             Permutation (skipn (S pi) a) r -> StronglySorted (keyle v) r ->
             Permutation seg (l ++ get a pi :: r)
             /\ StronglySorted (keyle v) (l ++ get a pi :: r)).
  { intros l r Pl Sl Pr Sr. split.
    - etransitivity; [exact P|]. rewrite Hsplit at 1.
      apply Permutation_app; [exact Pl | now constructor].
    - apply StronglySorted_app; [exact Sl | |].
      + constructor; [exact Sr|].
        now apply (Permutation_Forall Pr).
      + intros x y Hx Hy.
        apply (Permutation_in _ (Permutation_sym Pl)) in Hx.
        rewrite Forall_forall in Hleft, Hright.
        destruct Hy as [<-|Hy]; [now apply Hleft|].
        apply (Permutation_in _ (Permutation_sym Pr)) in Hy.
        eapply keyle_trans; [apply Hleft | apply Hright]; assumption. }
  destruct (pi <? length seg - 1 - pi);
    apply Hjoin; apply IH; assumption.
Qed.

Lemma aquicksort_spec (tosort : list nat) :
  Permutation tosort (aquicksort v tosort)
  /\ StronglySorted (keyle v) (aquicksort v tosort).
Proof. apply aquicksort_loop_spec. lia. Qed.

(** Up to seventeen indices the loop goes straight to the insertion
    sort. *)
Lemma aquicksort_small (tosort : list nat) :
  length tosort <= 17 -> aquicksort v tosort = insertion_sort v tosort.
Proof.
  intros H. unfold aquicksort. cbn [aquicksort_loop].
  assert (Hd : (npy_get_msb (length tosort) * 2 <? 0)%Z = false).
  { apply Z.ltb_ge. unfold npy_get_msb.
    pose proof (Z.log2_nonneg (Z.of_nat (length tosort))). lia. }
  rewrite Hd. cbn [andb]. unfold SMALL_QUICKSORT.
  destruct (Nat.ltb_spec 16 (length tosort - 1)); [lia | reflexivity].
Qed.

Lemma shift_in_stable (z : Z) (vi : nat) (before : list nat) :
  filter (fun i => (key v i =? z)%Z) (shift_in v vi before)
  = filter (fun i => (key v i =? z)%Z) (vi :: before).
Proof.
  induction before as [|k rest IH]; cbn [shift_in]; [reflexivity|].
  destruct (less (key v vi) (key v k)) eqn:E; [|reflexivity].
  unfold less in E. apply Z.ltb_lt in E.
  cbn [filter] in *. rewrite IH.
  destruct (Z.eqb_spec (key v vi) z), (Z.eqb_spec (key v k) z);
    try reflexivity; lia.
Qed.

(** The insertion sort keeps indices with equal keys in their order. *)
Lemma insertion_sort_stable (z : Z) (seg : list nat) :
  filter (fun i => (key v i =? z)%Z) (insertion_sort v seg)
  = filter (fun i => (key v i =? z)%Z) seg.
Proof.
  unfold insertion_sort. rewrite filter_rev.
  assert (H : forall before,
             filter (fun i => (key v i =? z)%Z)
                    (fold_left (fun b vi => shift_in v vi b) seg before)
             = filter (fun i => (key v i =? z)%Z) (rev seg ++ before)).
  { induction seg as [|vi seg IH]; intros before; [reflexivity|].
    cbn [fold_left rev]. rewrite IH, <- app_assoc, !filter_app.
    f_equal. rewrite shift_in_stable.
    change (vi :: before) with ([vi] ++ before). apply filter_app. }
  rewrite H, app_nil_r, filter_rev. apply rev_involutive.
Qed.

End NpyQuicksort.

Section NpyArgsort.

Import NpySort.

Lemma argsort_spec (v : list Z) :
  Permutation (seq 0 (length v)) (argsort v)
  /\ StronglySorted (keyle v) (argsort v).
Proof. apply aquicksort_spec. Qed.

Lemma argsort_stable_small (v : list Z) (z : Z) :
  length v <= 17 ->
  filter (fun i => (key v i =? z)%Z) (argsort v)
  = filter (fun i => (key v i =? z)%Z) (seq 0 (length v)).
Proof.
  intros H. unfold argsort. rewrite aquicksort_small by (now rewrite length_seq).
  apply insertion_sort_stable.
Qed.

End NpyArgsort.

(* ================================================================= *)
(** ** The reshaper: the run, its sort and its file *)

Section Sorting.

Lemma Sorted_weaken (A : Type) (R R' : A -> A -> Prop) (l : list A) :
  (forall x y, R x y -> R' x y) -> Sorted R l -> Sorted R' l.
Proof.
  intros HR. induction 1 as [|x l _ IH Hd]; constructor; [exact IH|].
  destruct Hd; constructor. now apply HR.
Qed.

Lemma Sorted_adjacent (A : Type) (R : A -> A -> Prop) (l : list A) :
  Sorted R l ->
  forall i a b, nth_error l i = Some a -> nth_error l (S i) = Some b -> R a b.
Proof.
  induction 1 as [|x l _ IH Hd]; intros i a b Ha Hb.
  - destruct i; discriminate.
  - destruct i as [|i].
    + simpl in Ha, Hb. injection Ha as <-.
      destruct Hd as [|y l' Hxy]; [discriminate|].
      simpl in Hb. injection Hb as <-. exact Hxy.
    + exact (IH i a b Ha Hb).
Qed.

Lemma merge_sort_contract : sort_contract merge_sort.
Proof.
  intros l. split.
  - apply Sorted_weaken with (R := fun a b => is_true (ReadingOrder.leb a b)).
    + intros x y H. now apply Z.leb_le.
    + apply ReadingSort.Sorted_sort.
  - apply ReadingSort.Permuted_sort.
Qed.

Lemma le_dt_trans : Relations_1.Transitive le_dt.
Proof. intros a b c. unfold le_dt. lia. Qed.

(** A list in strictly ascending order has one sorted arrangement. *)
Lemma sorted_strict_unique (l l' : list Reading) :
  StronglySorted lt_dt l -> Permutation l l' -> Sorted le_dt l' -> l' = l.
Proof.
  intros Hl. revert l'. induction Hl as [|a l Hl IH Ha]; intros l' Hp Hs.
  - now apply Permutation_nil in Hp.
  - destruct l' as [|b l'].
    + apply Permutation_sym, Permutation_nil in Hp. discriminate.
    + apply Sorted_StronglySorted in Hs; [|exact le_dt_trans].
      inversion Hs as [|? ? Hs' Hb]; subst.
      assert (E : b = a).
      { assert (Hin_a : In a (b :: l'))
          by (apply (Permutation_in a Hp); now left).
        assert (Hin_b : In b (a :: l))
          by (apply (Permutation_in b (Permutation_sym Hp)); now left).
        destruct Hin_b as [E|Hin_b]; [now symmetry|].
        destruct Hin_a as [E|Hin_a]; [exact E|].
        rewrite Forall_forall in Ha, Hb.
        specialize (Ha b Hin_b). specialize (Hb a Hin_a).
        unfold lt_dt, le_dt in *. lia. }
      subst b. f_equal. apply IH.
      * now apply Permutation_cons_inv in Hp.
      * now apply StronglySorted_Sorted.
Qed.

Lemma run_ok (sort : list Reading -> list Reading) (df : DataFrame)
  (w : Reshaper.world) (rows : list Reading) :
  melt df = Ok rows -> rows <> [] ->
  run sort df w
  = (Reshaper.print (Reshaper.Wrote (length (sort rows))) (to_csv (sort rows) w),
     Ok (sort rows)).
Proof.
  intros Hm Hne. unfold run, long_frame. rewrite Hm.
  destruct rows; [contradiction | reflexivity].
Qed.

Lemma run_inv (sort : list Reading -> list Reading) (df : DataFrame)
  (w w' : Reshaper.world) (long : list Reading) :
  run sort df w = (w', Ok long) ->
  exists rows, melt df = Ok rows /\ rows <> [] /\ long = sort rows
               /\ csv_out w' = Some long.
Proof.
  unfold run, long_frame. destruct (melt df) as [rows|e]; [|discriminate].
  destruct rows as [|r rows]; [discriminate|].
  intros [= <- <-]. exists (r :: rows). repeat split. discriminate.
Qed.

(** [take] on the positions of the frame, in order, on a permutation
    of them, and on positions sorted by the keys of their rows. *)
Lemma take_cons (A : Type) (x : A) (rows : list A) (indexer : list nat) :
  take (x :: rows) (map S indexer) = take rows indexer.
Proof.
  unfold take. induction indexer as [|i indexer IH]; [reflexivity|].
  cbn [map flat_map nth_error]. now rewrite IH.
Qed.

Lemma take_all (A : Type) (rows : list A) :
  take rows (seq 0 (length rows)) = rows.
Proof.
  induction rows as [|x rows IH]; [reflexivity|].
  cbn [length seq]. rewrite <- seq_shift.
  change (take (x :: rows) (0 :: map S (seq 0 (length rows))))
    with (x :: take (x :: rows) (map S (seq 0 (length rows)))).
  now rewrite take_cons, IH.
Qed.

Lemma in_take (A : Type) (rows : list A) (indexer : list nat) (r : A) :
  In r (take rows indexer) ->
  exists i, In i indexer /\ nth_error rows i = Some r.
Proof.
  unfold take. intros H. apply in_flat_map in H as (i & Hi & Hr).
  exists i. split; [exact Hi|].
  destruct (nth_error rows i) as [r'|]; [|destruct Hr].
  destruct Hr as [<- | []]. reflexivity.
Qed.

Lemma key_of_row (rows : list Reading) (i : nat) (r : Reading) :
  nth_error rows i = Some r ->
  NpySort.key (map (fun r => value (datetime r)) rows) i = value (datetime r).
Proof.
  intros H. unfold NpySort.key. apply nth_error_nth.
  exact (map_nth_error (fun r => value (datetime r)) i rows H).
Qed.

Lemma take_sorted (rows : list Reading) (indexer : list nat) :
  StronglySorted (keyle (map (fun r => value (datetime r)) rows)) indexer ->
  StronglySorted le_dt (take rows indexer).
Proof.
  induction 1 as [|i indexer Hs IH Hi]; [constructor|].
  change (take rows (i :: indexer))
    with ((match nth_error rows i with Some r => [r] | None => [] end)
          ++ take rows indexer).
  destruct (nth_error rows i) as [r|] eqn:Er; [|exact IH].
  cbn [app]. constructor; [exact IH|].
  apply Forall_forall. intros r' Hr'.
  apply in_take in Hr' as (j & Hj & Er').
  rewrite Forall_forall in Hi. specialize (Hi j Hj).
  unfold keyle in Hi. rewrite (key_of_row rows i r Er) in Hi.
  rewrite (key_of_row rows j r' Er') in Hi. exact Hi.
Qed.

Lemma filter_take (rows : list Reading) (indexer : list nat) (z : Z) :
  filter (fun r => value (datetime r) =? z)%Z (take rows indexer)
  = take rows
      (filter (fun i => NpySort.key (map (fun r => value (datetime r)) rows) i
                        =? z)%Z indexer).
Proof.
  induction indexer as [|i indexer IH]; [reflexivity|].
  change (take rows (i :: indexer))
    with ((match nth_error rows i with Some r => [r] | None => [] end)
          ++ take rows indexer).
  rewrite filter_app, IH. cbn [filter].
  destruct (nth_error rows i) as [r|] eqn:Er.
  - rewrite (key_of_row rows i r Er). cbn [filter].
    destruct (value (datetime r) =? z)%Z; [|reflexivity].
    change (take rows (i :: ?l))
      with ((match nth_error rows i with Some r => [r] | None => [] end)
            ++ take rows l).
    now rewrite Er.
  - cbn [filter app].
    destruct (NpySort.key _ i =? z)%Z; [|reflexivity].
    change (take rows (i :: ?l))
      with ((match nth_error rows i with Some r => [r] | None => [] end)
            ++ take rows l).
    now rewrite Er.
Qed.

(** The sort pandas runs returns the rows it was given in ascending
    order of [datetime]. *)
Lemma sort_values_datetime_contract : sort_contract sort_values_datetime.
Proof.
  intros rows. unfold sort_values_datetime.
  destruct (argsort_spec (map (fun r => value (datetime r)) rows)) as [Hp Hs].
  rewrite length_map in Hp. split.
  - apply StronglySorted_Sorted, take_sorted, Hs.
  - rewrite <- (take_all _ rows) at 1. unfold take.
    now apply Permutation_flat_map.
Qed.

(** Up to seventeen rows it leaves rows with equal [datetime] in the
    order they came in. *)
Lemma sort_values_datetime_small (rows : list Reading) :
  length rows <= 17 -> ties_in_order rows (sort_values_datetime rows).
Proof.
  intros Hlen z. unfold sort_values_datetime.
  rewrite filter_take, argsort_stable_small by (now rewrite length_map).
  rewrite <- filter_take, length_map, take_all. reflexivity.
Qed.

(** Claim C2, amended.  Whenever the run writes its file, the readings
    written are those of the melt loop in ascending order of
    [datetime]: each one is at most the next.  Readings with equal
    [datetime] keep their row and slot order when there are seventeen
    readings at most; beyond that the quicksort pandas runs by default
    may move them. *)
Theorem output_sorted_by_datetime (df : DataFrame)
  (w w' : Reshaper.world) (long : list Reading) :
  run sort_values_datetime df w = (w', Ok long) ->
  ascending long
  /\ (exists rows, melt df = Ok rows /\ Permutation rows long
                   /\ (length rows <= 17 -> ties_in_order rows long))
  /\ csv_out w' = Some long.
Proof.
  intros Hrun. apply run_inv in Hrun as (rows & Hm & _ & -> & Hw).
  destruct (sort_values_datetime_contract rows) as [Hs Hp]. repeat split.
  - unfold ascending. now apply Sorted_adjacent.
  - exists rows. repeat split; [exact Hm | exact Hp|].
    apply sort_values_datetime_small.
  - exact Hw.
Qed.

Lemma output_sorted_by_datetime_witness :
  run sort_values_datetime (read_csv [march_16; march_15]) empty_world
  = (Reshaper.mkWorld
       (Some (march_15_readings
              ++ [reading 3 16 6 1 (PyDec false 13 (-1)) 1;
                  reading 3 16 18 30 (PyDec false 16 (-1)) 3]))
       [Reshaper.Wrote 6],
     Ok (march_15_readings
         ++ [reading 3 16 6 1 (PyDec false 13 (-1)) 1;
             reading 3 16 18 30 (PyDec false 16 (-1)) 3]))
  /\ ascending (march_15_readings
                ++ [reading 3 16 6 1 (PyDec false 13 (-1)) 1;
                    reading 3 16 18 30 (PyDec false 16 (-1)) 3]).
Proof.
  assert (H : run sort_values_datetime (read_csv [march_16; march_15]) empty_world
              = (Reshaper.mkWorld
                   (Some (march_15_readings
                          ++ [reading 3 16 6 1 (PyDec false 13 (-1)) 1;
                              reading 3 16 18 30 (PyDec false 16 (-1)) 3]))
                   [Reshaper.Wrote 6],
                 Ok (march_15_readings
                     ++ [reading 3 16 6 1 (PyDec false 13 (-1)) 1;
                         reading 3 16 18 30 (PyDec false 16 (-1)) 3])))
    by (vm_compute; reflexivity).
  split; [exact H|].
  apply (output_sorted_by_datetime (read_csv [march_16; march_15])
           empty_world _ _ H).
Defined.

(** Claim C2 as stated fails: twenty readings with one [datetime] are
    written in another order than the melt loop built them, the second
    to the eighteenth of them reversed. *)
Lemma ties_need_not_keep_their_order :
  length (melted (read_csv tied_lines)) = 20
  /\ Forall (fun r => datetime r = mkTimestamp 2023 3 15 5 31)
            (melted (read_csv tied_lines))
  /\ snd (run sort_values_datetime (read_csv tied_lines) empty_world)
     = Ok (take (melted (read_csv tied_lines)) twenty_ties_order)
  /\ ~ sorted_and_stable (read_csv tied_lines).
Proof.
  split; [reflexivity|]. split; [repeat constructor|].
  split; [vm_compute; reflexivity|].
  intros H.
  destruct (H (melted (read_csv tied_lines))
              (take (melted (read_csv tied_lines)) twenty_ties_order)
              empty_world
              (Reshaper.print (Reshaper.Wrote 20)
                 (to_csv (take (melted (read_csv tied_lines)) twenty_ties_order)
                    empty_world))
              eq_refl ltac:(vm_compute; reflexivity)) as [_ Ht].
  specialize (Ht (value (mkTimestamp 2023 3 15 5 31))).
  vm_compute in Ht. discriminate.
Qed.

(** Claim C6.  The line 03,15,0531,1.2,1145,0.4,1758,1.5,2310,0.3
    gives four readings, of pairs 1 to 4 in this order, at 05:31,
    11:45, 17:58 and 23:10 of 2023-03-15 with heights 1.2, 0.4, 1.5 and
    0.3; the sort leaves them in this order and they are written. *)
Theorem march_15_gives_four_readings :
  melt (read_csv [march_15]) = Ok march_15_readings
  /\ forall sort w, sort_contract sort ->
       run sort (read_csv [march_15]) w
       = (Reshaper.print (Reshaper.Wrote 4) (to_csv march_15_readings w),
          Ok march_15_readings).
Proof.
  split; [reflexivity|]. intros sort w Hc.
  assert (Hm : melt (read_csv [march_15]) = Ok march_15_readings) by reflexivity.
  rewrite (@run_ok sort _ w _ Hm) by discriminate.
  destruct (Hc march_15_readings) as [Hs Hp].
  rewrite (@sorted_strict_unique march_15_readings (sort march_15_readings));
    [reflexivity | | exact Hp | exact Hs].
  unfold march_15_readings.
  repeat (constructor; [|repeat constructor; unfold lt_dt; vm_compute; reflexivity]).
  constructor.
Qed.

Lemma march_15_gives_four_readings_witness :
  sort_contract merge_sort
  /\ run merge_sort (read_csv [march_15]) empty_world
     = (Reshaper.mkWorld (Some march_15_readings) [Reshaper.Wrote 4],
        Ok march_15_readings).
Proof.
  split; [exact merge_sort_contract|].
  apply (proj2 march_15_gives_four_readings merge_sort empty_world
           merge_sort_contract).
Defined.

(** Claim C9.  A frame with a row whose month or day [int] rejects
    ends the run with an uncaught exception, and nothing is written or
    printed.  The exception is the [ValueError] of that [int] call when
    the loop comes to the row, that is when the rows before it raise
    nothing; else it is the [ValueError] or [OverflowError] that
    [pd.Timestamp] raised in an earlier row.  A time or a height that
    does not parse only has its slot passed over. *)
Theorem bad_month_or_day_aborts :
  (forall sort df w,
      Exists bad_date df ->
      exists e, run sort df w = (w, Raise e) /\ loop_exn e)
  /\ (forall sort df1 r df2 rows1 w,
        melt df1 = Ok rows1 -> bad_date r ->
        run sort (df1 ++ r :: df2) w = (w, Raise ValueError))
  /\ (forall r mo d rows i,
        time_fields (t_col i r) = None -> slot_body r mo d rows i = Ok rows)
  /\ (forall r mo d rows i dt hh mi,
        time_fields (t_col i r) = Some (hh, mi) ->
        new_Timestamp 2023 mo d hh mi = Ok dt ->
        py_float (strip (str (h_col i r))) = None ->
        slot_body r mo d rows i = Ok rows).
Proof.
  split; [|split; [|split]].
  - intros sort df w H. unfold run.
    destruct (melt_bad_date df H) as (e & -> & He). now exists e.
  - intros sort df1 r df2 rows1 w H1 Hr. unfold run.
    now rewrite (melt_reaches_bad_date df1 df2 r rows1 H1 Hr).
  - intros r mo d rows i. apply slot_body_not_a_number.
  - intros r mo d rows i dt hh mi. apply slot_body_bad_height.
Qed.

Lemma bad_month_or_day_aborts_witness :
  (melt (read_csv [march_15]) = Ok march_15_readings
   /\ bad_date (read_row march_separator_month))
  /\ run merge_sort (read_csv [march_15] ++ read_row march_separator_month
                                          :: read_csv [march_text_day])
         empty_world
     = (empty_world, Raise ValueError).
Proof.
  assert (H : bad_date (read_row march_separator_month)) by (left; reflexivity).
  split; [split; [reflexivity | exact H]|].
  apply (proj1 (proj2 bad_month_or_day_aborts) merge_sort (read_csv [march_15])
           (read_row march_separator_month) (read_csv [march_text_day])
           march_15_readings empty_world eq_refl H).
Defined.

(** Claim C1, where the code departs from it.  A time that is no number
    has its slot passed over and the other slot of the row is read; a
    time that reads as hour 99, minute 99 ends the run with
    [ValueError], and nothing is written. *)
Theorem out_of_range_time_aborts (sort : list Reading -> list Reading)
  (w : Reshaper.world) :
  melt (read_csv [march_15_clock_text])
  = Ok [reading 3 15 11 45 (PyDec false 4 (-1)) 2]
  /\ melt (read_csv [march_15_clock_99]) = Raise ValueError
  /\ run sort (read_csv [march_15_clock_99]) w = (w, Raise ValueError).
Proof. repeat split. Qed.

(** Claim C3, where the code departs from it.  With no row parsed the
    extractor prints its notice and leaves the file alone; with no
    reading the reshaper writes nothing either, but it ends with
    [KeyError] instead of a notice. *)
Theorem nothing_to_write :
  (forall tree w,
      parse_tables tree = [] ->
      main tree w
      = Extractor.mkWorld (out_csv w) (Extractor.stdout w ++ [NoTableRowsParsed]))
  /\ (forall sort df w,
        melt df = Ok [] -> run sort df w = (w, Raise KeyError)).
Proof.
  split.
  - intros tree w H. unfold main. now rewrite H.
  - intros sort df w H. unfold run. now rewrite H.
Qed.

Lemma nothing_to_write_witness :
  (parse_tables (Element "html" [Element "table" []]) = []
   /\ melt (read_csv [march_17_blank]) = Ok [])
  /\ main (Element "html" [Element "table" []]) (Extractor.mkWorld None [])
     = Extractor.mkWorld None [NoTableRowsParsed]
  /\ run merge_sort (read_csv [march_17_blank]) empty_world
     = (empty_world, Raise KeyError).
Proof.
  split; [split; reflexivity|]. split.
  - apply (proj1 nothing_to_write (Element "html" [Element "table" []])
             (Extractor.mkWorld None [])). reflexivity.
  - apply (proj2 nothing_to_write merge_sort (read_csv [march_17_blank])
             empty_world). reflexivity.
Defined.

End Sorting.

(* ================================================================= *)
(** ** From a table cell to a reading *)

Section RoundTrip.

Lemma is_digit_code (c : ascii) : is_digit c = true -> 48 <= code c <= 57.
Proof.
  unfold is_digit. intros H. apply andb_true_iff in H as [H1 H2].
  apply Nat.leb_le in H1, H2. lia.
Qed.

Lemma numeric_char_nonspace (c : ascii) : numeric_char c = true -> nonspace c = true.
Proof.
  unfold numeric_char, nonspace, is_space. intros H.
  assert (Hc : 45 <= code c <= 57).
  { apply orb_true_iff in H as [H|H]; [apply orb_true_iff in H as [H|H]|].
    - apply is_digit_code in H. lia.
    - apply Nat.eqb_eq in H. lia.
    - apply Nat.eqb_eq in H. lia. }
  apply negb_true_iff.
  repeat (apply orb_false_iff; split);
    try (apply andb_false_iff; rewrite !Nat.leb_gt; lia);
    apply Nat.eqb_neq; lia.
Qed.

Lemma is_digit_numeric (c : ascii) : is_digit c = true -> numeric_char c = true.
Proof. unfold numeric_char. now intros ->. Qed.

Lemma forallb_impl (A : Type) (p q : A -> bool) (l : list A) :
  (forall x, p x = true -> q x = true) ->
  forallb p l = true -> forallb q l = true.
Proof.
  intros Hpq. rewrite !forallb_forall. auto.
Qed.

Lemma pystr_eqb_eq (a b : pystr) : pystr_eqb a b = true <-> a = b.
Proof.
  unfold pystr_eqb. rewrite String.eqb_eq. split; [|now intros ->].
  intros H. rewrite <- (String.list_ascii_of_string_of_list_ascii a),
    <- (String.list_ascii_of_string_of_list_ascii b). now rewrite H.
Qed.

(** A text without whitespace comes through [normalize_text], [strip]
    and [read_csv] as it is. *)
Lemma normalize_text_word (s : pystr) :
  word s -> normalize_text (Some s) = s.
Proof.
  intros H. apply (normalize_text_join [s]). now constructor.
Qed.

Lemma strip_word (s : pystr) : forallb nonspace s = true -> strip s = s.
Proof.
  intros H. unfold strip. destruct s as [|c s]; [reflexivity|].
  assert (Hc : is_space c = false).
  { simpl in H. apply andb_true_iff in H as [Hc _]. now apply negb_true_iff in Hc. }
  rewrite (lstrip_word_head _ _ Hc). now apply rstrip_word.
Qed.

Lemma number_space_is_space (c : ascii) :
  is_number_space c = true -> is_space c = true.
Proof.
  unfold is_number_space, is_space.
  destruct ((9 <=? code c) && (code c <=? 13)); [reflexivity|].
  destruct (code c =? 133); [intros _; now rewrite orb_true_r|].
  destruct (code c =? 160); [intros _; now rewrite !orb_true_r|].
  cbn [orb]. rewrite !orb_false_r. intros H. apply Nat.eqb_eq in H.
  rewrite H. reflexivity.
Qed.

Lemma nonspace_not_number_space (c : ascii) :
  nonspace c = true -> is_number_space c = false.
Proof.
  unfold nonspace. intros H. apply negb_true_iff in H.
  destruct (is_number_space c) eqn:E; [|reflexivity].
  apply number_space_is_space in E. congruence.
Qed.

Lemma rstrip_number_word (w : pystr) :
  forallb nonspace w = true -> rstrip_number w = w.
Proof.
  induction w as [|c w IH]; simpl; [reflexivity|].
  intros H. apply andb_true_iff in H as [Hc Hw]. rewrite (IH Hw).
  rewrite (nonspace_not_number_space c Hc).
  now destruct w.
Qed.

(** [int] and [float] leave a text without whitespace as it is. *)
Lemma strip_number_word (s : pystr) :
  forallb nonspace s = true -> strip_number s = s.
Proof.
  intros H. unfold strip_number. destruct s as [|c s]; [reflexivity|].
  assert (Hc : is_number_space c = false).
  { simpl in H. apply andb_true_iff in H as [Hc _].
    now apply nonspace_not_number_space. }
  cbn [lstrip_number]. rewrite Hc. now apply rstrip_number_word.
Qed.

Lemma read_cell_numeric (s : pystr) :
  s <> [] -> forallb numeric_char s = true -> read_cell s = Str s.
Proof.
  intros Hne Hs. unfold read_cell.
  destruct (existsb (pystr_eqb s) na_values) eqn:E; [|reflexivity].
  exfalso. apply existsb_exists in E as (m & Hin & Heq).
  apply pystr_eqb_eq in Heq. subst m. unfold na_values in Hin.
  repeat (destruct Hin as [E|Hin];
          [first [ now apply Hne | rewrite <- E in Hs; discriminate Hs ]|]).
  exact Hin.
Qed.

Lemma blank_numeric (s : pystr) :
  s <> [] -> forallb numeric_char s = true -> blank (Str s) = false.
Proof.
  intros Hne Hs. unfold blank. simpl.
  rewrite strip_word by (revert Hs; apply forallb_impl, numeric_char_nonspace).
  destruct (pystr_eqb s []) eqn:E; [|reflexivity].
  apply pystr_eqb_eq in E. contradiction.
Qed.

Lemma digitpart_digits (s rest : pystr) :
  forallb is_digit s = true -> ends_digits rest ->
  digitpart (s ++ rest) = (s, rest).
Proof.
  intros Hs Hr. induction s as [|c s IH].
  - destruct rest as [|c rest]; [reflexivity|].
    destruct Hr as [Hc _]. simpl. now rewrite Hc.
  - simpl in Hs. apply andb_true_iff in Hs as [Hc Hs].
    specialize (IH Hs). cbn [app digitpart]. rewrite Hc.
    destruct (s ++ rest) as [|u [|d tl]] eqn:E.
    + now rewrite IH.
    + now rewrite IH.
    + assert (Hu : (code u =? 95) = false).
      { apply Nat.eqb_neq. destruct s as [|u' s'].
        - simpl in E. subst rest. apply Hr.
        - simpl in E, Hs. injection E as -> _.
          apply andb_true_iff in Hs as [Hu _]. apply is_digit_code in Hu. lia. }
      rewrite Hu. cbn [andb]. now rewrite IH.
Qed.

Lemma digitpart_all_digits (s : pystr) :
  forallb is_digit s = true -> digitpart s = (s, []).
Proof.
  intros Hs. rewrite <- (app_nil_r s) at 1. now apply digitpart_digits.
Qed.

Lemma take_sign_digit (c : ascii) (s : pystr) :
  is_digit c = true -> take_sign (c :: s) = (false, c :: s).
Proof.
  intros H. apply is_digit_code in H. unfold take_sign.
  destruct (Nat.eqb_spec (code c) 45); [lia|].
  destruct (Nat.eqb_spec (code c) 43); [lia|]. reflexivity.
Qed.

(** [int] reads a run of digits as the number it writes. *)
Lemma py_int_digits (s : pystr) :
  all_digits s -> length s <= int_max_str_digits ->
  py_int s = Some (digits_value s).
Proof.
  intros [Hne Hs] Hlen. unfold py_int.
  rewrite strip_number_word
    by (revert Hs; apply forallb_impl; intros c Hc;
        now apply numeric_char_nonspace, is_digit_numeric).
  destruct s as [|c s]; [contradiction|].
  assert (Hc : is_digit c = true)
    by (simpl in Hs; now apply andb_true_iff in Hs as [Hc _]).
  rewrite (take_sign_digit c s Hc).
  rewrite (digitpart_all_digits (c :: s) Hs).
  destruct (Nat.ltb_spec int_max_str_digits (length (c :: s))); [lia|].
  reflexivity.
Qed.

Lemma digits_value_2 (a b : ascii) :
  digits_value [a; b] = (10 * digit_val a + digit_val b)%Z.
Proof. unfold digits_value. simpl. lia. Qed.

(** A time of four digits is read as its two halves. *)
Lemma time_fields_four_digits (a b c e : ascii) :
  is_digit a = true -> is_digit b = true ->
  is_digit c = true -> is_digit e = true ->
  time_fields (Str [a; b; c; e])
  = Some ((10 * digit_val a + digit_val b)%Z, (10 * digit_val c + digit_val e)%Z).
Proof.
  intros Ha Hb Hc He. unfold time_fields. cbn [str].
  assert (Hz : zfill 4 [a; b; c; e] = [a; b; c; e])
    by (unfold zfill; simpl; now destruct (_ || _)).
  rewrite Hz. cbn [firstn skipn].
  rewrite !py_int_digits, !digits_value_2; try reflexivity;
    try (unfold int_max_str_digits; simpl; lia);
    (split; [discriminate | simpl; now rewrite ?Ha, ?Hb, ?Hc, ?He]).
Qed.

Lemma digit_val_range (c : ascii) :
  is_digit c = true -> (0 <= digit_val c <= 9)%Z.
Proof. intros H. apply is_digit_code in H. unfold digit_val. lia. Qed.

Lemma lower_digit (c : ascii) : is_digit c = true -> lower c = c.
Proof.
  intros H. apply is_digit_code in H. unfold lower.
  destruct (Nat.leb_spec 65 (code c)); [lia | reflexivity].
Qed.

(** [float] reads a decimal string: it does not raise. *)
Lemma py_float_decimal (h : pystr) :
  decimal_string h -> exists v, py_float h = Some v.
Proof.
  intros (neg & ip & fp & -> & [Hip_ne Hip] & [Hfp_ne Hfp]).
  destruct ip as [|c ip]; [contradiction|].
  assert (Hc : is_digit c = true)
    by (simpl in Hip; now apply andb_true_iff in Hip as [Hc _]).
  assert (Hbody : forallb numeric_char ((c :: ip) ++ "."%char :: fp) = true).
  { rewrite forallb_app. apply andb_true_iff. split.
    - revert Hip. apply forallb_impl, is_digit_numeric.
    - cbn [forallb]. apply andb_true_iff. split; [reflexivity|].
      revert Hfp. apply forallb_impl, is_digit_numeric. }
  assert (Hstrip : strip_number ((if neg then ["-"%char] else [])
                                 ++ (c :: ip) ++ "."%char :: fp)
                   = (if neg then ["-"%char] else []) ++ (c :: ip) ++ "."%char :: fp).
  { apply strip_number_word. rewrite forallb_app. apply andb_true_iff. split.
    - now destruct neg.
    - revert Hbody. apply forallb_impl, numeric_char_nonspace. }
  assert (Hsign : take_sign ((if neg then ["-"%char] else []) ++ (c :: ip) ++ "."%char :: fp)
                  = (neg, (c :: ip) ++ "."%char :: fp)).
  { destruct neg; [reflexivity|]. cbn [app]. now apply take_sign_digit. }
  unfold py_float. rewrite Hstrip, Hsign.
  assert (Hword : forall m, m = lit "inf" \/ m = lit "infinity" \/ m = lit "nan" ->
                  pystr_eqb (map lower ((c :: ip) ++ "."%char :: fp)) m = false).
  { intros m Hm. destruct (pystr_eqb _ m) eqn:E; [|reflexivity].
    apply pystr_eqb_eq in E. cbn [app map] in E. rewrite (lower_digit c Hc) in E.
    destruct Hm as [-> | [-> | ->]]; injection E as -> _; discriminate Hc. }
  rewrite !Hword by auto. cbn [orb].
  rewrite (digitpart_digits (c :: ip) ("."%char :: fp) Hip)
    by (split; [reflexivity | discriminate]).
  change (code "."%char =? 46) with true. cbv iota.
  rewrite (digitpart_all_digits fp Hfp).
  cbn [app float_exponent]. eexists. reflexivity.
Qed.

Lemma decimal_string_numeric (h : pystr) :
  decimal_string h -> h <> [] /\ forallb numeric_char h = true.
Proof.
  intros (neg & ip & fp & -> & [Hip_ne Hip] & [_ Hfp]). split.
  - destruct neg, ip; discriminate.
  - rewrite !forallb_app. cbn [forallb].
    rewrite (forallb_impl _ _ _ _ is_digit_numeric Hip).
    rewrite (forallb_impl _ _ _ _ is_digit_numeric Hfp).
    now destruct neg.
Qed.

Lemma all_digits_numeric (s : pystr) :
  all_digits s -> s <> [] /\ forallb numeric_char s = true.
Proof.
  intros [Hne Hs]. split; [exact Hne|].
  revert Hs. apply forallb_impl, is_digit_numeric.
Qed.

Lemma numeric_word (s : pystr) :
  s <> [] -> forallb numeric_char s = true -> word s.
Proof.
  intros Hne Hs. split; [exact Hne|].
  revert Hs. apply forallb_impl, numeric_char_nonspace.
Qed.

(** The slot that holds a four-digit time of day and a decimal height
    appends the reading of that time and height. *)
Lemma slot_body_pair (r : Row) (mo d : Z) (rows : list Reading) (i : Z)
  (a b c e : ascii) (h : pystr) (v : pyfloat) :
  t_col i r = Str [a; b; c; e] -> h_col i r = Str h ->
  is_digit a = true -> is_digit b = true ->
  is_digit c = true -> is_digit e = true ->
  (10 * digit_val a + digit_val b <= 23)%Z ->
  (10 * digit_val c + digit_val e <= 59)%Z ->
  ((1 <=? mo) && (mo <=? 12) && (1 <=? d) && (d <=? days_in_month 2023 mo))%Z = true ->
  h <> [] -> forallb numeric_char h = true -> py_float h = Some v ->
  slot_body r mo d rows i
  = Ok (rows ++ [reading mo d (10 * digit_val a + digit_val b)
                         (10 * digit_val c + digit_val e) v i]).
Proof.
  intros Ht Hh Ha Hb Hc He Hhour Hmin Hdate Hne Hnum Hv.
  pose proof (digit_val_range a Ha). pose proof (digit_val_range b Hb).
  pose proof (digit_val_range c Hc). pose proof (digit_val_range e He).
  rewrite slot_body_eq, Ht, Hh.
  rewrite blank_numeric
    by (try discriminate; simpl; unfold numeric_char; now rewrite Ha, Hb, Hc, He).
  rewrite (blank_numeric h Hne Hnum).
  rewrite (time_fields_four_digits a b c e Ha Hb Hc He).
  rewrite (new_Timestamp_ok mo d _ _ Hdate)
    by (unfold clock_range; cbn [fst snd];
        repeat (apply andb_true_iff; split); apply Z.leb_le; lia).
  cbn [bind str].
  rewrite strip_word by (revert Hnum; apply forallb_impl, numeric_char_nonspace).
  now rewrite Hv.
Qed.

Lemma filter_tds (tag : pystr) (cells : list pystr) :
  filter (has_tag tag) (map td cells)
  = if pystr_eqb "td" tag then map td cells else [].
Proof.
  induction cells as [|c cells IH]; cbn [map filter].
  - now destruct (pystr_eqb "td" tag).
  - rewrite IH. unfold td at 1. cbn [has_tag].
    now destruct (pystr_eqb "td" tag).
Qed.

Lemma descendants_tr (cells : list pystr) :
  descendants (Element "tr" (map td cells)) = map td cells.
Proof.
  rewrite descendants_children.
  induction cells as [|c cells IH]; simpl; [reflexivity | now rewrite IH].
Qed.

(** The one row of the page, with its cells normalized. *)
Lemma parse_tables_page (cells : list pystr) :
  2 <= length cells ->
  parse_tables (page_of_cells cells)
  = [firstn 10 (pad (map (fun c => normalize_text (Some c)) cells))].
Proof.
  intros Hlen. rewrite parse_tables_table_rows.
  assert (Hrows : table_rows (page_of_cells cells) = [Element "tr" (map td cells)]).
  { unfold table_rows, xpath_all, xpath_desc, page_of_cells.
    rewrite !descendants_children. cbn [flat_map elems app].
    rewrite !descendants_children. cbn [flat_map elems app].
    rewrite !descendants_children. cbn [flat_map elems app].
    rewrite descendants_tr, !app_nil_r.
    cbn [filter has_tag]. rewrite filter_tds.
    change (pystr_eqb "html" "table") with false.
    change (pystr_eqb "body" "table") with false.
    change (pystr_eqb "table" "table") with true.
    change (pystr_eqb "tr" "table") with false.
    change (pystr_eqb "td" "table") with false.
    cbv iota. cbn [flat_map]. rewrite app_nil_r, descendants_children.
    cbn [flat_map elems app]. rewrite descendants_tr, app_nil_r.
    cbn [filter has_tag]. rewrite filter_tds.
    change (pystr_eqb "tr" "tr") with true.
    change (pystr_eqb "td" "tr") with false. reflexivity. }
  rewrite Hrows. cbn [filter].
  assert (Hcells : cells_of (Element "tr" (map td cells))
                   = map (fun c => normalize_text (Some c)) cells).
  { unfold cells_of, xpath_desc. rewrite descendants_tr, filter_tds.
    vm_compute (pystr_eqb "td" "td"). cbv iota. rewrite map_map.
    apply map_ext. intros c. cbn [td text_content map concat].
    now rewrite app_nil_r. }
  assert (Hkeeps : keeps (Element "tr" (map td cells)) = true).
  { apply keeps_iff. split.
    - unfold xpath_desc. rewrite descendants_tr, filter_tds. reflexivity.
    - rewrite Hcells, length_map. exact Hlen. }
  rewrite Hkeeps. cbn [map]. unfold row10_of. now rewrite Hcells.
Qed.

Lemma four_digits_numeric (a b c e : ascii) :
  is_digit a = true -> is_digit b = true ->
  is_digit c = true -> is_digit e = true ->
  [a; b; c; e] <> [] /\ forallb numeric_char [a; b; c; e] = true.
Proof.
  intros Ha Hb Hc He. split; [discriminate|].
  cbn [forallb]. now rewrite !is_digit_numeric.
Qed.

(** The frame read back from the row of a one-pair page. *)
Lemma read_csv_one_pair (mm dd t h : pystr) (i : Z) :
  (forall s, In s [mm; dd; t; h] -> s <> [] /\ forallb numeric_char s = true) ->
  (1 <= i <= 4)%Z ->
  read_csv (parse_tables (page_of_cells (one_pair_cells mm dd i t h)))
  = [mkRow (Str mm) (Str dd)
       (if (1 =? i)%Z then Str t else NaN) (if (1 =? i)%Z then Str h else NaN)
       (if (2 =? i)%Z then Str t else NaN) (if (2 =? i)%Z then Str h else NaN)
       (if (3 =? i)%Z then Str t else NaN) (if (3 =? i)%Z then Str h else NaN)
       (if (4 =? i)%Z then Str t else NaN) (if (4 =? i)%Z then Str h else NaN)].
Proof.
  intros Hnum Hi.
  assert (Hw : forall s, In s [mm; dd; t; h] -> normalize_text (Some s) = s).
  { intros s Hs. destruct (Hnum s Hs). now apply normalize_text_word, numeric_word. }
  assert (Hr : forall s, In s [mm; dd; t; h] -> read_cell s = Str s).
  { intros s Hs. destruct (Hnum s Hs). now apply read_cell_numeric. }
  assert (Hcases : (i = 1 \/ i = 2 \/ i = 3 \/ i = 4)%Z) by lia.
  rewrite parse_tables_page
    by (unfold one_pair_cells; cbn [app length]; lia).
  destruct Hcases as [-> | [-> | [-> | ->]]];
    unfold one_pair_cells; cbn [flat_map app Z.eqb Pos.eqb map];
    change (normalize_text (Some [])) with (@nil ascii);
    rewrite !Hw by (simpl; tauto);
    unfold pad; cbn [length Nat.sub pad_loop firstn];
    unfold read_csv, read_row; cbn [map nth];
    change (read_cell []) with NaN;
    rewrite !Hr by (simpl; tauto); reflexivity.
Qed.

(** Claim C4.  A page row that holds a month, a day, one four-digit
    time of day T with a decimal height H in one of its four slots and
    blanks in the others is extracted, written, read back and melted
    into exactly one reading: its height is [float(H)], its hour the
    first two digits of T, its minute the last two; the sort leaves it
    alone and it is written. *)
Theorem single_pair_round_trip
  (mm dd h : pystr) (a b c e : ascii) (i : Z) :
  all_digits mm -> length mm <= int_max_str_digits ->
  all_digits dd -> length dd <= int_max_str_digits ->
  ((1 <=? digits_value mm) && (digits_value mm <=? 12) && (1 <=? digits_value dd)
   && (digits_value dd <=? days_in_month 2023 (digits_value mm)))%Z = true ->
  is_digit a = true -> is_digit b = true ->
  is_digit c = true -> is_digit e = true ->
  (10 * digit_val a + digit_val b <= 23)%Z ->
  (10 * digit_val c + digit_val e <= 59)%Z ->
  decimal_string h ->
  (1 <= i <= 4)%Z ->
  exists (v : pyfloat) (lines : list row),
    py_float h = Some v
    /\ out_csv (main (page_of_cells (one_pair_cells mm dd i [a; b; c; e] h))
                     (Extractor.mkWorld None []))
       = Some (header :: lines)
    /\ melt (read_csv lines)
       = Ok [reading (digits_value mm) (digits_value dd)
                     (10 * digit_val a + digit_val b)
                     (10 * digit_val c + digit_val e) v i]
    /\ forall sort w, sort_contract sort ->
         snd (run sort (read_csv lines) w)
         = Ok [reading (digits_value mm) (digits_value dd)
                       (10 * digit_val a + digit_val b)
                       (10 * digit_val c + digit_val e) v i].
Proof.
  intros Hmm Lmm Hdd Ldd Hdate Ha Hb Hc He Hhour Hmin Hh Hi.
  destruct (py_float_decimal h Hh) as [v Hv].
  destruct (decimal_string_numeric h Hh) as [Hne Hnum].
  set (page := page_of_cells (one_pair_cells mm dd i [a; b; c; e] h)).
  exists v, (parse_tables page). split; [exact Hv|].
  assert (Hframe := read_csv_one_pair mm dd [a; b; c; e] h i).
  fold page in Hframe.
  assert (Hmelt : melt (read_csv (parse_tables page))
                  = Ok [reading (digits_value mm) (digits_value dd)
                          (10 * digit_val a + digit_val b)
                          (10 * digit_val c + digit_val e) v i]).
  { rewrite Hframe; [|
      intros s [<- | [<- | [<- | [<- | []]]]];
        auto using all_digits_numeric, four_digits_numeric | exact Hi].
    assert (Hcases : (i = 1 \/ i = 2 \/ i = 3 \/ i = 4)%Z) by lia.
    unfold melt. cbn [for_each]. unfold row_body. cbn [Wide.month Wide.day int].
    rewrite (py_int_digits mm Hmm Lmm), (py_int_digits dd Hdd Ldd).
    cbn [bind for_each].
    destruct Hcases as [-> | [-> | [-> | ->]]]; cbn [Z.eqb Pos.eqb];
      repeat
        (match goal with
         | |- context [slot_body ?r ?mo ?d ?rows ?k] =>
             first
               [ rewrite (slot_body_blank r mo d rows k) by reflexivity
               | rewrite (slot_body_pair r mo d rows k a b c e h v eq_refl eq_refl
                            Ha Hb Hc He Hhour Hmin Hdate Hne Hnum Hv) ]
         end; cbn [bind app]);
      reflexivity. }
  split; [|split; [exact Hmelt|]].
  - unfold main. destruct (parse_tables page) as [|r rs] eqn:E.
    + try rewrite E in Hmelt. unfold melt, read_csv in Hmelt.
      cbn [map for_each] in Hmelt. discriminate Hmelt.
    + reflexivity.
  - intros sort w Hc'.
    rewrite (run_ok sort _ w _ Hmelt) by discriminate. cbn [snd].
    destruct (Hc' [reading (digits_value mm) (digits_value dd)
                     (10 * digit_val a + digit_val b)
                     (10 * digit_val c + digit_val e) v i]) as [_ Hp].
    now rewrite (Permutation_length_1_inv Hp).
Qed.

Lemma single_pair_round_trip_witness :
  (all_digits "03" /\ all_digits "15" /\ decimal_string "1.2"
   /\ (10 * digit_val "0" + digit_val "5" <= 23)%Z
   /\ (10 * digit_val "3" + digit_val "1" <= 59)%Z)
  /\ exists (v : pyfloat) (lines : list row),
       py_float "1.2" = Some v
       /\ out_csv (main (page_of_cells (one_pair_cells "03" "15" 1 "0531" "1.2"))
                        (Extractor.mkWorld None []))
          = Some (header :: lines)
       /\ melt (read_csv lines)
          = Ok [reading (digits_value "03") (digits_value "15")
                        (10 * digit_val "0" + digit_val "5")
                        (10 * digit_val "3" + digit_val "1") v 1]
       /\ forall sort w, sort_contract sort ->
            snd (run sort (read_csv lines) w)
            = Ok [reading (digits_value "03") (digits_value "15")
                          (10 * digit_val "0" + digit_val "5")
                          (10 * digit_val "3" + digit_val "1") v 1].
Proof.
  assert (H03 : all_digits "03") by (split; [discriminate | reflexivity]).
  assert (H15 : all_digits "15") by (split; [discriminate | reflexivity]).
  assert (Hd : decimal_string "1.2").
  { exists false, (lit "1"), (lit "2").
    repeat split; try discriminate; reflexivity. }
  assert (Hh : (10 * digit_val "0" + digit_val "5" <= 23)%Z) by (vm_compute; discriminate).
  assert (Hm : (10 * digit_val "3" + digit_val "1" <= 59)%Z) by (vm_compute; discriminate).
  split; [exact (conj H03 (conj H15 (conj Hd (conj Hh Hm))))|].
  apply (single_pair_round_trip "03" "15" "1.2" "0" "5" "3" "1" 1 H03);
    try assumption; try reflexivity;
    try (unfold int_max_str_digits; cbn [length lit String.list_ascii_of_string]; lia);
    lia.
Defined.

End RoundTrip.

(* ================================================================= *)
(** ** More on [normalize_text] *)

Section NormalizeTextWords.

Lemma split_from_spaces (s cur : pystr) :
  forallb is_space s = true ->
  split_from cur s = match cur with [] => [] | _ => [rev cur] end.
Proof.
  revert cur. induction s as [|c s IH]; intros cur H; [reflexivity|].
  cbn [forallb] in H. apply andb_true_iff in H as [Hc Hs].
  cbn [split_from]. rewrite Hc. destruct cur; rewrite (IH _ Hs); reflexivity.
Qed.

Lemma split_from_lstrip (s : pystr) :
  split_from [] (lstrip s) = split_from [] s.
Proof.
  induction s as [|c s IH]; [reflexivity|].
  cbn [lstrip split_from]. destruct (is_space c) eqn:Ec; [exact IH|].
  cbn [split_from]. now rewrite Ec.
Qed.

Lemma rstrip_nil_spaces (s : pystr) :
  rstrip s = [] -> forallb is_space s = true.
Proof.
  induction s as [|c s IH]; [reflexivity|]. cbn [rstrip forallb].
  destruct (rstrip s) as [|d r]; [|discriminate].
  destruct (is_space c); [intros _; now rewrite IH | discriminate].
Qed.

Lemma split_from_rstrip (s cur : pystr) :
  split_from cur (rstrip s) = split_from cur s.
Proof.
  revert cur. induction s as [|c s IH]; intros cur; [reflexivity|].
  cbn [rstrip]. destruct (rstrip s) as [|d r] eqn:Er.
  - pose proof (rstrip_nil_spaces s Er) as Hs.
    cbn [split_from]. destruct (is_space c) eqn:Ec.
    + cbn [split_from]. rewrite (split_from_spaces s [] Hs).
      destruct cur; reflexivity.
    + cbn [split_from]. rewrite Ec. cbn [split_from].
      now rewrite (split_from_spaces s (c :: cur) Hs).
  - cbn [split_from]. destruct (is_space c); [destruct cur|]; now rewrite <- IH.
Qed.

Lemma split_from_replace_nbsp (s cur : pystr) :
  split_from cur (replace nbsp space s) = split_from cur s.
Proof.
  unfold replace. revert cur. induction s as [|c s IH]; intros cur; [reflexivity|].
  cbn [map split_from]. destruct (Ascii.eqb c nbsp) eqn:E.
  - apply Ascii.eqb_eq in E. subst c.
    change (is_space space) with true. change (is_space nbsp) with true.
    cbv iota. destruct cur; now rewrite IH.
  - destruct (is_space c); [destruct cur|]; now rewrite IH.
Qed.

Lemma split_strip (s : pystr) : split (strip s) = split s.
Proof.
  unfold split, strip. now rewrite split_from_rstrip, split_from_lstrip.
Qed.

Lemma normalize_text_split (s : pystr) :
  normalize_text (Some s) = join [space] (split s).
Proof.
  unfold normalize_text. rewrite split_strip. unfold split.
  now rewrite !split_from_replace_nbsp, split_strip.
Qed.

Lemma concat_split_from (s cur : pystr) :
  concat (split_from cur s) = rev cur ++ filter nonspace s.
Proof.
  revert cur. induction s as [|c s IH]; intros cur.
  - cbn [split_from filter]. rewrite app_nil_r.
    destruct cur; [reflexivity|]. cbn [concat]. now rewrite app_nil_r.
  - cbn [split_from filter]. unfold nonspace at 1.
    destruct (is_space c); cbn [negb].
    + destruct cur as [|d cur]; [apply (IH [])|].
      cbn [concat]. now rewrite (IH []).
    + rewrite IH. cbn [rev]. now rewrite <- app_assoc.
Qed.

Lemma filter_nonspace_join (ws : list pystr) :
  Forall word ws -> filter nonspace (join [space] ws) = concat ws.
Proof.
  induction 1 as [|w ws [_ Hw] Hws IH]; [reflexivity|].
  destruct ws as [|w2 ws].
  - cbn [join concat]. rewrite app_nil_r. now apply forallb_filter_id.
  - rewrite join_cons2, filter_app. cbn [filter concat].
    change (nonspace space) with false. cbv iota.
    rewrite IH. now rewrite (forallb_filter_id _ _ Hw).
Qed.

Lemma join_cons_length (w : pystr) (ws : list pystr) :
  length (join [space] (w :: ws)) <= length w + 1 + length (join [space] ws).
Proof.
  destruct ws as [|w2 ws]; [cbn [join length]; lia|].
  rewrite join_cons2, length_app. cbn [length]. lia.
Qed.

Lemma join_split_from_length (s cur : pystr) :
  length (join [space] (split_from cur s)) <= length cur + length s.
Proof.
  revert cur. induction s as [|c s IH]; intros cur.
  - destruct cur; cbn [split_from join]; [cbn [length]; lia|].
    rewrite length_rev. lia.
  - cbn [split_from]. destruct (is_space c).
    + destruct cur as [|d cur].
      * specialize (IH []). cbn [length] in *. lia.
      * eapply Nat.le_trans; [apply join_cons_length|].
        specialize (IH []). rewrite length_rev. cbn [length] in *. lia.
    + specialize (IH (c :: cur)). cbn [length] in *. lia.
Qed.

(** [normalize_text] returns the words of its argument joined by
    single spaces: its two [strip] calls and its two [replace] calls
    change nothing that [split] does not drop already, and the result
    has the words of the argument. *)
Theorem normalize_text_is_join_of_split (s : pystr) :
  normalize_text (Some s) = join [space] (split s)
  /\ split (normalize_text (Some s)) = split s.
Proof.
  split; [apply normalize_text_split|].
  rewrite normalize_text_split. apply split_join, split_words.
Qed.

(** [normalize_text] keeps every character that is no whitespace, in
    order, and never returns a longer text than it was given. *)
Theorem normalize_text_keeps_visible_characters (s : pystr) :
  filter nonspace (normalize_text (Some s)) = filter nonspace s
  /\ length (normalize_text (Some s)) <= length s.
Proof.
  rewrite normalize_text_split. split.
  - rewrite (filter_nonspace_join (split s) (split_words s)).
    unfold split. now rewrite concat_split_from.
  - apply (join_split_from_length s []).
Qed.

(** [normalize_text] returns the empty string exactly for the texts
    made of whitespace only (the empty text among them). *)
Theorem normalize_text_empty_iff_blank (s : pystr) :
  normalize_text (Some s) = [] <-> forallb is_space s = true.
Proof.
  rewrite normalize_text_split. split.
  - intros E.
    assert (Hf : filter nonspace s = []).
    { pose proof (concat_split_from s []) as Hc. cbn [rev app] in Hc.
      rewrite <- Hc. fold (split s).
      rewrite <- (filter_nonspace_join (split s) (split_words s)).
      now rewrite E. }
    apply forallb_forall. intros c Hc.
    destruct (is_space c) eqn:Ec; [reflexivity|].
    assert (Hin : In c (filter nonspace s))
      by (apply filter_In; split; [exact Hc | unfold nonspace; now rewrite Ec]).
    rewrite Hf in Hin. destruct Hin.
  - intros H. unfold split. now rewrite (split_from_spaces s [] H).
Qed.

End NormalizeTextWords.

(* ================================================================= *)
(** ** More on the extractor: the fields and the file *)

Section ExtractorFile.

Lemma In_firstn_In (A : Type) (n : nat) (l : list A) (x : A) :
  In x (firstn n l) -> In x l.
Proof.
  revert l. induction n as [|n IH]; intros [|y l]; simpl; try tauto.
  intros [E|H]; [now left | right; now apply IH].
Qed.

Lemma single_spaced_only_spaces (f : pystr) (c : ascii) :
  single_spaced f = true -> In c f -> is_space c = true -> c = space.
Proof.
  intros Hf Hin Hc. apply in_split in Hin as (a & b & ->).
  apply single_spaced_suffix in Hf. cbn [single_spaced] in Hf.
  rewrite Hc in Hf. apply andb_true_iff in Hf as [Hf _].
  apply andb_true_iff in Hf as [Hf _]. now apply Ascii.eqb_eq.
Qed.

Lemma row10_field (tr : node) (f : pystr) :
  In f (row10_of tr) -> exists ws, Forall word ws /\ f = join [space] ws.
Proof.
  unfold row10_of, pad. intros H. apply In_firstn_In in H.
  rewrite pad_loop_repeat in H. apply in_app_or in H as [H|H].
  - unfold cells_of in H. apply in_map_iff in H as (td & <- & _).
    apply normalize_text_words.
  - apply repeat_spec in H. subst f. exists []. split; [constructor | reflexivity].
Qed.

(** Every field [parse_tables] emits is normalized: [normalize_text]
    leaves it as it is, and its only whitespace is the plain space, so
    no field holds a line break. *)
Theorem parse_tables_fields_are_normalized (tree : node) :
  Forall (Forall (fun f =>
            normalize_text (Some f) = f
            /\ forall c, In c f -> is_space c = true -> c = space))
         (parse_tables tree).
Proof.
  rewrite parse_tables_table_rows, Forall_map, Forall_forall.
  intros tr _. apply Forall_forall. intros f Hf.
  destruct (row10_field tr f Hf) as (ws & Hws & ->). split.
  - now apply normalize_text_join.
  - intros c. apply single_spaced_only_spaces. now apply single_spaced_join.
Qed.



End ExtractorFile.

(* ================================================================= *)
(** ** More on the melt loop *)

Section MeltLoop.

Lemma for_each_app (A S : Type) (body : S -> A -> result S) (xs ys : list A) (s : S) :
  for_each (xs ++ ys) body s = (s' <- for_each xs body s ;; for_each ys body s').
Proof.
  revert s. induction xs as [|x xs IH]; intros s; [reflexivity|].
  cbn [app for_each]. destruct (body s x) as [s'|e]; cbn [bind]; [apply IH | reflexivity].
Qed.

(** The melt of two frames one after the other is the melt of the
    first followed by the melt of the second; it raises where the
    first does, else where the second does. *)
Theorem melt_app (df1 df2 : DataFrame) :
  melt (df1 ++ df2)
  = (rs1 <- melt df1 ;; rs2 <- melt df2 ;; Ok (rs1 ++ rs2)).
Proof.
  unfold melt. rewrite for_each_app.
  destruct (for_each df1 row_body []) as [rs1|e]; cbn [bind]; [|reflexivity].
  apply (for_each_appends _ row_body df2 row_body_appends rs1 tt).
Qed.

Lemma new_Timestamp_inv (y mo d hh mi : Z) (dt : Timestamp) :
  new_Timestamp y mo d hh mi = Ok dt -> dt = mkTimestamp y mo d hh mi.
Proof.
  unfold new_Timestamp. destruct (negb _); [discriminate|].
  destruct (_ && _); congruence.
Qed.

Lemma slot_body_yield (r : Row) (mo d : Z) (rows rows' : list Reading) (i : Z) :
  slot_body r mo d rows i = Ok rows' ->
  exists l, rows' = rows ++ l /\ slot_yield mo d i l.
Proof.
  rewrite slot_body_eq.
  destruct (blank (t_col i r));
    [intros [= <-]; exists []; split; [now rewrite app_nil_r | now left]|].
  destruct (blank (h_col i r));
    [intros [= <-]; exists []; split; [now rewrite app_nil_r | now left]|].
  destruct (time_fields (t_col i r)) as [[hh mi]|];
    [|intros [= <-]; exists []; split; [now rewrite app_nil_r | now left]].
  destruct (new_Timestamp 2023 mo d hh mi) as [dt|e] eqn:Et; cbn [bind];
    [|discriminate].
  destruct (py_float _) as [v|];
    [|intros [= <-]; exists []; split; [now rewrite app_nil_r | now left]].
  intros [= <-]. eexists. split; [reflexivity|]. right.
  eexists. split; [reflexivity|]. cbn [pair Long.month Long.day datetime].
  pose proof (new_Timestamp_inv _ _ _ _ _ _ Et) as Hdt. subst dt.
  cbn [hour minute]. repeat split. exact Et.
Qed.

(** What one row leaves in [rows]: what its four slots leave, in slot
    order. *)
Lemma row_body_yield (rows rows' : list Reading) (r : Row) :
  row_body rows r = Ok rows' ->
  exists mo d l1 l2 l3 l4,
    int (Wide.month r) = Ok mo /\ int (Wide.day r) = Ok d
    /\ rows' = rows ++ l1 ++ l2 ++ l3 ++ l4
    /\ slot_yield mo d 1 l1 /\ slot_yield mo d 2 l2
    /\ slot_yield mo d 3 l3 /\ slot_yield mo d 4 l4.
Proof.
  unfold row_body.
  destruct (int (Wide.month r)) as [mo|]; cbn [bind]; [|discriminate].
  destruct (int (Wide.day r)) as [d|]; cbn [bind]; [|discriminate].
  cbn [for_each].
  destruct (slot_body r mo d rows 1) as [a1|] eqn:E1; cbn [bind]; [|discriminate].
  destruct (slot_body r mo d a1 2) as [a2|] eqn:E2; cbn [bind]; [|discriminate].
  destruct (slot_body r mo d a2 3) as [a3|] eqn:E3; cbn [bind]; [|discriminate].
  destruct (slot_body r mo d a3 4) as [a4|] eqn:E4; cbn [bind]; [|discriminate].
  intros [= <-].
  apply slot_body_yield in E1 as (l1 & -> & H1).
  apply slot_body_yield in E2 as (l2 & -> & H2).
  apply slot_body_yield in E3 as (l3 & -> & H3).
  apply slot_body_yield in E4 as (l4 & -> & H4).
  exists mo, d, l1, l2, l3, l4. rewrite <- !app_assoc. auto 10.
Qed.

(** A slot that is blank leaves nothing. *)
Lemma row_body_blank_slot (rows rows' : list Reading) (r : Row) (i : Z) :
  In i [1; 2; 3; 4]%Z ->
  blank (t_col i r) || blank (h_col i r) = true ->
  row_body rows r = Ok rows' ->
  exists l, rows' = rows ++ l /\ Forall (fun rd => pair rd <> i) l.
Proof.
  intros Hi Hb. unfold row_body.
  destruct (int (Wide.month r)) as [mo|]; cbn [bind]; [|discriminate].
  destruct (int (Wide.day r)) as [d|]; cbn [bind]; [|discriminate].
  cbn [for_each].
  destruct (slot_body r mo d rows 1) as [a1|] eqn:E1; cbn [bind]; [|discriminate].
  destruct (slot_body r mo d a1 2) as [a2|] eqn:E2; cbn [bind]; [|discriminate].
  destruct (slot_body r mo d a2 3) as [a3|] eqn:E3; cbn [bind]; [|discriminate].
  destruct (slot_body r mo d a3 4) as [a4|] eqn:E4; cbn [bind]; [|discriminate].
  intros [= <-].
  assert (Hslot : forall k acc acc',
             slot_body r mo d acc k = Ok acc' ->
             exists l, acc' = acc ++ l
                       /\ (k = i -> l = [])
                       /\ Forall (fun rd => pair rd = k) l).
  { intros k acc acc' E. destruct (Z.eq_dec k i) as [-> | Hk].
    - rewrite (slot_body_blank r mo d acc i Hb) in E. injection E as <-.
      exists []. rewrite app_nil_r. repeat split. constructor.
    - apply slot_body_yield in E as (l & -> & Hl). exists l.
      split; [reflexivity|]. split; [contradiction|].
      destruct Hl as [-> | (rd & -> & Hp & _)]; repeat constructor. exact Hp. }
  apply Hslot in E1 as (l1 & -> & N1 & P1).
  apply Hslot in E2 as (l2 & -> & N2 & P2).
  apply Hslot in E3 as (l3 & -> & N3 & P3).
  apply Hslot in E4 as (l4 & -> & N4 & P4).
  exists (l1 ++ l2 ++ l3 ++ l4). rewrite <- !app_assoc. split; [reflexivity|].
  rewrite !Forall_app.
  assert (Hne : forall k l, (k = i -> l = []) ->
                  Forall (fun rd => pair rd = k) l ->
                  Forall (fun rd => pair rd <> i) l).
  { intros k l N P. destruct (Z.eq_dec k i) as [E | Hk].
    - rewrite (N E). constructor.
    - revert P. apply Forall_impl. intros rd ->. exact Hk. }
  repeat split; eapply Hne; eassumption.
Qed.

Lemma slot_yield_length (mo d i : Z) (l : list Reading) :
  slot_yield mo d i l -> length l <= 1.
Proof. intros [-> | (rd & -> & _)]; simpl; lia. Qed.

Lemma slot_yield_ok (mo d i : Z) (l : list Reading) :
  (1 <= i <= 4)%Z -> slot_yield mo d i l -> Forall reading_ok l.
Proof.
  intros Hi [-> | (rd & -> & Hp & Hm & Hd & Ht)]; constructor; [|constructor].
  unfold reading_ok. rewrite Hp, Hm, Hd. auto.
Qed.

Lemma row_body_nil_ok (r : Row) (rs : list Reading) :
  row_body [] r = Ok rs -> Forall reading_ok rs /\ length rs <= 4.
Proof.
  intros H.
  apply row_body_yield in H
    as (mo & d & l1 & l2 & l3 & l4 & _ & _ & -> & H1 & H2 & H3 & H4).
  cbn [app]. split.
  - rewrite !Forall_app.
    repeat split; eapply slot_yield_ok; try eassumption; lia.
  - rewrite !length_app.
    apply slot_yield_length in H1, H2, H3, H4. lia.
Qed.

(** Every reading the melt loop builds is a minute of a day of 2023
    that exists, with the month and day of its row beside it and a slot
    number from 1 to 4; no row gives more than four. *)
Theorem melt_readings_are_well_formed (df : DataFrame) (rows : list Reading) :
  melt df = Ok rows ->
  Forall reading_ok rows /\ length rows <= 4 * length df.
Proof.
  revert rows. induction df as [|r df IH]; intros rows.
  - intros [= <-]. split; [constructor | simpl; lia].
  - rewrite melt_cons.
    destruct (row_body [] r) as [rs|] eqn:Er; cbn [bind]; [|discriminate].
    destruct (melt df) as [rest|]; cbn [bind]; [|discriminate].
    intros [= <-]. destruct (IH rest eq_refl) as [Hok Hlen].
    destruct (row_body_nil_ok r rs Er) as [Hok' Hlen']. split.
    + apply Forall_app. now split.
    + rewrite length_app. cbn [length]. lia.
Qed.

Lemma melt_readings_are_well_formed_witness :
  melt (read_csv [march_16; march_15])
  = Ok ([reading 3 16 6 1 (PyDec false 13 (-1)) 1;
         reading 3 16 18 30 (PyDec false 16 (-1)) 3] ++ march_15_readings)
  /\ Forall reading_ok
       ([reading 3 16 6 1 (PyDec false 13 (-1)) 1;
         reading 3 16 18 30 (PyDec false 16 (-1)) 3] ++ march_15_readings)
  /\ length ([reading 3 16 6 1 (PyDec false 13 (-1)) 1;
              reading 3 16 18 30 (PyDec false 16 (-1)) 3] ++ march_15_readings)
     <= 4 * length (read_csv [march_16; march_15]).
Proof.
  split; [reflexivity|].
  apply (melt_readings_are_well_formed (read_csv [march_16; march_15])).
  reflexivity.
Defined.

(** The readings of one row come in slot order, one at most for each
    slot: their slot numbers strictly increase. *)
Theorem row_readings_in_slot_order (r : Row) (rs : list Reading) :
  row_body [] r = Ok rs -> StronglySorted Z.lt (map pair rs).
Proof.
  intros H.
  apply row_body_yield in H
    as (mo & d & l1 & l2 & l3 & l4 & _ & _ & -> & H1 & H2 & H3 & H4).
  cbn [app].
  destruct H1 as [-> | (r1 & -> & P1 & _)], H2 as [-> | (r2 & -> & P2 & _)],
           H3 as [-> | (r3 & -> & P3 & _)], H4 as [-> | (r4 & -> & P4 & _)];
    cbn [app map]; rewrite ?P1, ?P2, ?P3, ?P4;
    repeat (constructor; [|repeat constructor; lia]); constructor.
Qed.

Lemma row_readings_in_slot_order_witness :
  row_body [] (read_row march_16)
  = Ok [reading 3 16 6 1 (PyDec false 13 (-1)) 1;
        reading 3 16 18 30 (PyDec false 16 (-1)) 3]
  /\ StronglySorted Z.lt
       (map pair [reading 3 16 6 1 (PyDec false 13 (-1)) 1;
                  reading 3 16 18 30 (PyDec false 16 (-1)) 3]).
Proof.
  split; [reflexivity|].
  apply (row_readings_in_slot_order (read_row march_16)). reflexivity.
Defined.

Lemma slot_body_raise_iff (r : Row) (mo d : Z) (rows : list Reading) (i : Z)
  (e : exn) :
  slot_body r mo d rows i = Raise e <-> slot_raises r mo d i e.
Proof.
  rewrite slot_body_eq. unfold slot_raises. split.
  - destruct (blank (t_col i r)); [discriminate|].
    destruct (blank (h_col i r)); [discriminate|].
    destruct (time_fields (t_col i r)) as [[hh mi]|]; [|discriminate].
    destruct (new_Timestamp 2023 mo d hh mi) as [dt|e'] eqn:Et; cbn [bind].
    + destruct (py_float _); discriminate.
    + intros [= <-]. repeat split. now exists hh, mi.
  - intros (-> & -> & hh & mi & -> & ->). reflexivity.
Qed.

(** A loop whose turns raise or not whatever the state: it raises what
    its first raising turn raises. *)
Lemma for_each_raise_iff (A S : Type) (body : S -> A -> result S)
  (R : A -> exn -> Prop) (xs : list A) :
  (forall s x e, body s x = Raise e <-> R x e) ->
  forall s e, for_each xs body s = Raise e <-> first_raise R xs e.
Proof.
  intros Hiff. induction xs as [|x xs IH]; intros s e; cbn [for_each].
  - split; [discriminate|].
    intros (before & y & after & E & _). now destruct before.
  - destruct (body s x) as [s'|e0] eqn:E; cbn [bind].
    + assert (Hx : forall e', ~ R x e').
      { intros e' H. apply (Hiff s) in H. congruence. }
      rewrite IH. split.
      * intros (before & y & after & -> & Hb & Hy).
        exists (x :: before), y, after. repeat split; [|exact Hy].
        now constructor.
      * intros (before & y & after & Exs & Hb & Hy).
        destruct before as [|b before]; cbn [app] in Exs; injection Exs as -> ->.
        -- now apply Hx in Hy.
        -- inversion Hb; subst. now exists before, y, after.
    + apply (Hiff s) in E. split.
      * intros [= <-]. exists [], x, xs. repeat split; [constructor | exact E].
      * intros (before & y & after & Exs & Hb & Hy).
        destruct before as [|b before]; cbn [app] in Exs; injection Exs as -> ->.
        -- apply (Hiff s) in E, Hy. congruence.
        -- inversion Hb as [|? ? Hn _]; subst. now apply Hn in E.
Qed.

Lemma row_body_raise_iff (rows : list Reading) (r : Row) (e : exn) :
  row_body rows r = Raise e <-> row_raises r e.
Proof.
  unfold row_body, row_raises, bad_date.
  destruct (int (Wide.month r)) as [mo|e0] eqn:Em; cbn [bind].
  - destruct (int (Wide.day r)) as [d|e0] eqn:Ed; cbn [bind].
    + rewrite (for_each_raise_iff _ _ (slot_body r mo d) (slot_raises r mo d));
        [|intros s x e'; apply slot_body_raise_iff].
      split.
      * intros H. right. now exists mo, d.
      * intros [[[H|H] _] | (mo' & d' & [= <-] & [= <-] & H)];
          [discriminate | discriminate | exact H].
    + pose proof (int_raises _ _ Ed) as ->. split.
      * intros [= <-]. left. split; [now right | reflexivity].
      * intros [[_ ->] | (mo' & d' & _ & H & _)]; [reflexivity | discriminate].
  - pose proof (int_raises _ _ Em) as ->. split.
    + intros [= <-]. left. split; [now left | reflexivity].
    + intros [[_ ->] | (mo' & d' & H & _)]; [reflexivity | discriminate].
Qed.

Lemma melt_raise_iff (df : DataFrame) (e : exn) :
  melt df = Raise e <-> frame_raises df e.
Proof.
  apply for_each_raise_iff. intros s r e'. apply row_body_raise_iff.
Qed.

(** The run ends in an exception of the loop exactly when some row
    raises it with no row before it raising: a row raises [ValueError]
    when [int] rejects its month or day, and else what [pd.Timestamp]
    raises ([ValueError] or [OverflowError]) at the first of its slots
    that is not blank and whose time reads as two numbers that the
    constructor refuses.  The run ends in [KeyError] exactly when the
    loop ends with no reading.  However it raises, nothing is written
    or printed. *)
Theorem run_raises_exactly_when
  (sort : list Reading -> list Reading) (df : DataFrame) (w : Reshaper.world)
  (e : exn) :
  (run sort df w = (w, Raise e)
   <-> frame_raises df e \/ (e = KeyError /\ melt df = Ok []))
  /\ (frame_raises df e <-> melt df = Raise e)
  /\ (run sort df w = (w, Raise KeyError) <-> melt df = Ok [])
  /\ ~ frame_raises df KeyError
  /\ (snd (run sort df w) = Raise e -> fst (run sort df w) = w).
Proof.
  assert (Hk : ~ frame_raises df KeyError).
  { intros H. apply melt_raise_iff, melt_raises in H.
    destruct H; discriminate. }
  split; [|split; [symmetry; apply melt_raise_iff | split; [|split; [exact Hk|]]]].
  - rewrite <- melt_raise_iff. unfold run, long_frame.
    destruct (melt df) as [rows|e0] eqn:Em.
    + destruct rows as [|rd rows]; split.
      * intros [= <-]. right. now split.
      * intros [H | [-> _]]; [discriminate | reflexivity].
      * discriminate.
      * intros [H | [_ H]]; discriminate.
    + split.
      * intros [= <-]. now left.
      * intros [[= <-] | [_ H]]; [reflexivity | discriminate].
  - unfold run, long_frame. destruct (melt df) as [rows|e0] eqn:Em.
    + destruct rows as [|rd rows]; split; intros; try reflexivity; discriminate.
    + pose proof (melt_raises _ _ Em) as He.
      split; [|discriminate]. intros [= ->]. destruct He; discriminate.
  - unfold run, long_frame. destruct (melt df) as [rows|e0].
    + destruct rows as [|rd rows]; cbn [fst snd]; [reflexivity | discriminate].
    + reflexivity.
Qed.

Lemma run_raises_exactly_when_witness :
  snd (run merge_sort (read_csv [march_15; march_15_minute_overflow; march_15_clock_99])
           empty_world)
  = Raise OverflowError
  /\ fst (run merge_sort
               (read_csv [march_15; march_15_minute_overflow; march_15_clock_99])
               empty_world)
     = empty_world.
Proof.
  split; [reflexivity|].
  apply (proj2 (proj2 (proj2 (proj2
           (run_raises_exactly_when merge_sort
              (read_csv [march_15; march_15_minute_overflow; march_15_clock_99])
              empty_world OverflowError))))).
  reflexivity.
Defined.

End MeltLoop.

(* ================================================================= *)
(** ** More on times: short texts, and the order of timestamps *)

Section Times.

Lemma zfill_digit (n : nat) (a : ascii) (t : pystr) :
  is_digit a = true ->
  zfill n (a :: t) = repeat (ascii_of_nat 48) (n - length (a :: t)) ++ a :: t.
Proof.
  intros Ha. apply is_digit_code in Ha. unfold zfill.
  destruct (Nat.eqb_spec (code a) 43); [lia|].
  destruct (Nat.eqb_spec (code a) 45); [lia|]. reflexivity.
Qed.

Lemma py_int_short_digits (s : pystr) :
  s <> [] -> forallb is_digit s = true -> length s <= 4 ->
  py_int s = Some (digits_value s).
Proof.
  intros Hne Hs Hlen. apply py_int_digits; [now split|].
  unfold int_max_str_digits. lia.
Qed.

Lemma time_fields_short (t : pystr) :
  all_digits t -> length t <= 4 ->
  time_fields (Str t)
  = Some ((digits_value t / 100)%Z, (digits_value t mod 100)%Z).
Proof.
  intros [Hne Hd] Hlen. unfold time_fields. cbn [str].
  destruct t as [|a t]; [contradiction|].
  assert (Ha : is_digit a = true)
    by (cbn [forallb] in Hd; now apply andb_true_iff in Hd as [Ha _]).
  rewrite (zfill_digit 4 a t Ha).
  destruct t as [|b [|c [|e [|x t]]]]; cbn [length] in Hlen; try lia;
    cbn [forallb] in Hd;
    repeat (apply andb_true_iff in Hd as [?Hd Hd]);
    repeat match goal with
           | H : is_digit ?c = true |- _ =>
               lazymatch goal with
               | _ : (0 <= digit_val c <= 9)%Z |- _ => fail
               | _ => pose proof (digit_val_range c H)
               end
           end;
    cbn [length Nat.sub repeat app firstn skipn];
    rewrite !py_int_short_digits
      by first [ discriminate
               | cbn [length]; lia
               | cbn [forallb];
                 repeat match goal with
                        | H : is_digit _ = true |- _ => rewrite H
                        end;
                 reflexivity ];
    unfold digits_value; cbn [fold_left];
    change (digit_val (ascii_of_nat 48)) with 0%Z;
    f_equal; f_equal; Z.div_mod_to_equations; lia.
Qed.

(** A time of one to four digits is read right-aligned, as [zfill(4)]
    pads it: its value divided by 100 is the hour, the rest the
    minute ("531" is 05:31, "45" is 00:45). *)
Theorem time_fields_of_short_digits (t : pystr) :
  all_digits t -> length t <= 4 ->
  time_fields (Str t)
  = Some ((digits_value t / 100)%Z, (digits_value t mod 100)%Z).
Proof. apply time_fields_short. Qed.

Lemma time_fields_of_short_digits_witness :
  (all_digits "531" /\ length (lit "531") <= 4)
  /\ time_fields (Str "531")
     = Some ((digits_value "531" / 100)%Z, (digits_value "531" mod 100)%Z).
Proof.
  assert (H : all_digits "531") by (split; [discriminate | reflexivity]).
  assert (L : length (lit "531") <= 4) by (simpl; lia).
  split; [exact (conj H L)|].
  apply (time_fields_of_short_digits "531" H L).
Defined.

Lemma new_Timestamp_fields (mo d hh mi : Z) (t : Timestamp) :
  new_Timestamp 2023 mo d hh mi = Ok t ->
  t = mkTimestamp 2023 mo d hh mi
  /\ (1 <= mo <= 12 /\ 1 <= d <= days_in_month 2023 mo
      /\ 0 <= hh <= 23 /\ 0 <= mi <= 59)%Z.
Proof.
  unfold new_Timestamp. destruct (negb _); [discriminate|].
  destruct (_ && _) eqn:E; [|discriminate].
  intros [= <-]. split; [reflexivity|].
  repeat (apply andb_true_iff in E as [E ?H]).
  rewrite Z.leb_le in *. lia.
Qed.

(** Day of the year: the days of the months before, and the day. *)
Lemma day_of_year_order (m1 d1 m2 d2 : Z) :
  (1 <= m1 <= 12)%Z -> (1 <= d1 <= days_in_month 2023 m1)%Z ->
  (1 <= m2 <= 12)%Z -> (1 <= d2 <= days_in_month 2023 m2)%Z ->
  ((days_before_month 2023 m1 + d1 < days_before_month 2023 m2 + d2
    <-> m1 < m2 \/ (m1 = m2 /\ d1 < d2))
   /\ (days_before_month 2023 m1 + d1 = days_before_month 2023 m2 + d2
       <-> m1 = m2 /\ d1 = d2))%Z.
Proof.
  intros H1 D1 H2 D2.
  assert (C1 : (m1 = 1 \/ m1 = 2 \/ m1 = 3 \/ m1 = 4 \/ m1 = 5 \/ m1 = 6 \/ m1 = 7
                \/ m1 = 8 \/ m1 = 9 \/ m1 = 10 \/ m1 = 11 \/ m1 = 12)%Z) by lia.
  assert (C2 : (m2 = 1 \/ m2 = 2 \/ m2 = 3 \/ m2 = 4 \/ m2 = 5 \/ m2 = 6 \/ m2 = 7
                \/ m2 = 8 \/ m2 = 9 \/ m2 = 10 \/ m2 = 11 \/ m2 = 12)%Z) by lia.
  clear H1 H2.
  repeat (destruct C1 as [C1|C1]); subst m1;
    repeat (destruct C2 as [C2|C2]); subst m2;
    vm_compute (days_in_month 2023 _) in D1, D2;
    repeat match goal with
           | |- context [days_before_month 2023 ?a] =>
               let v := eval vm_compute in (days_before_month 2023 a) in
               change (days_before_month 2023 a) with v
           end;
    lia.
Qed.

(** The integer [sort_values] orders the [datetime] column by orders
    the timestamps of 2023 as the calendar does: an earlier month, or
    day, or hour, or minute, is a smaller integer, and two timestamps
    share it only when they are the same minute. *)
Theorem value_follows_the_calendar
  (m1 d1 h1 n1 m2 d2 h2 n2 : Z) (a b : Timestamp) :
  new_Timestamp 2023 m1 d1 h1 n1 = Ok a ->
  new_Timestamp 2023 m2 d2 h2 n2 = Ok b ->
  ((value a < value b)%Z <-> chron_lt a b)
  /\ (value a = value b <-> a = b).
Proof.
  intros Ha Hb.
  apply new_Timestamp_fields in Ha as (-> & M1 & D1 & R1 & S1).
  apply new_Timestamp_fields in Hb as (-> & M2 & D2 & R2 & S2).
  destruct (day_of_year_order m1 d1 m2 d2 M1 D1 M2 D2) as [Hlt Heq].
  assert (Hsame : mkTimestamp 2023 m1 d1 h1 n1 = mkTimestamp 2023 m2 d2 h2 n2 ->
                  value (mkTimestamp 2023 m1 d1 h1 n1)
                  = value (mkTimestamp 2023 m2 d2 h2 n2))
    by (intros E; now rewrite E).
  revert Hsame.
  unfold value, chron_lt. cbn [year Stamp.month Stamp.day hour minute].
  intros Hsame.
  set (p1 := days_before_month 2023 m1) in *.
  set (p2 := days_before_month 2023 m2) in *.
  set (y := days_before_year 2023) in *. clearbody p1 p2 y.
  split; split.
  - intros H.
    assert (Hc : (p1 + d1 < p2 + d2 \/ p1 + d1 = p2 + d2)%Z) by lia.
    destruct Hc as [Hc|Hc]; [apply Hlt in Hc; lia|].
    pose proof (proj1 Heq Hc). lia.
  - intros H.
    assert (Hc : ((m1 < m2 \/ (m1 = m2 /\ d1 < d2)) \/ (m1 = m2 /\ d1 = d2))%Z)
      by lia.
    destruct Hc as [Hc|Hc]; [apply Hlt in Hc; lia|].
    apply Heq in Hc. lia.
  - intros H.
    assert (Hc : (p1 + d1 = p2 + d2)%Z) by lia.
    apply Heq in Hc as [-> ->]. f_equal; lia.
  - exact Hsame.
Qed.

Lemma value_follows_the_calendar_witness :
  (new_Timestamp 2023 2 28 23 59 = Ok (mkTimestamp 2023 2 28 23 59)
   /\ new_Timestamp 2023 3 1 0 0 = Ok (mkTimestamp 2023 3 1 0 0))
  /\ ((value (mkTimestamp 2023 2 28 23 59) < value (mkTimestamp 2023 3 1 0 0))%Z
      <-> chron_lt (mkTimestamp 2023 2 28 23 59) (mkTimestamp 2023 3 1 0 0))
  /\ (value (mkTimestamp 2023 2 28 23 59) = value (mkTimestamp 2023 3 1 0 0)
      <-> mkTimestamp 2023 2 28 23 59 = mkTimestamp 2023 3 1 0 0).
Proof.
  split; [split; reflexivity|].
  apply (value_follows_the_calendar 2 28 23 59 3 1 0 0); reflexivity.
Defined.

End Times.

(* ================================================================= *)
(** ** Counting rows and readings from the page to the long file *)

Section RoundTripCounts.

Lemma elems_tr_of (rows : list (list pystr)) :
  flat_map elems (map tr_of rows)
  = flat_map (fun cells => tr_of cells :: map td cells) rows.
Proof.
  induction rows as [|cells rows IH]; [reflexivity|].
  cbn [map flat_map]. rewrite IH. unfold tr_of at 1. cbn [elems].
  now rewrite descendants_tr.
Qed.

Lemma filter_rows_of_table (tag : pystr) (rows : list (list pystr)) :
  filter (has_tag tag) (flat_map (fun cells => tr_of cells :: map td cells) rows)
  = if pystr_eqb "tr" tag then map tr_of rows
    else if pystr_eqb "td" tag then flat_map (map td) rows else [].
Proof.
  induction rows as [|cells rows IH]; cbn [flat_map map].
  - now destruct (pystr_eqb "tr" tag), (pystr_eqb "td" tag).
  - cbn [app filter]. rewrite filter_app, IH, filter_tds.
    unfold tr_of at 1. cbn [has_tag].
    destruct (pystr_eqb "tr" tag) eqn:Etr.
    + apply pystr_eqb_eq in Etr. subst tag.
      change (pystr_eqb "td" "tr") with false. reflexivity.
    + now destruct (pystr_eqb "td" tag).
Qed.

Lemma table_rows_page_of_rows (rows : list (list pystr)) :
  table_rows (page_of_rows rows) = map tr_of rows.
Proof.
  unfold table_rows, xpath_all, xpath_desc, page_of_rows.
  rewrite !descendants_children. cbn [flat_map elems app].
  rewrite !descendants_children. cbn [flat_map elems app].
  rewrite !descendants_children. rewrite !app_nil_r, elems_tr_of.
  cbn [filter has_tag]. rewrite filter_rows_of_table.
  change (pystr_eqb "html" "table") with false.
  change (pystr_eqb "body" "table") with false.
  change (pystr_eqb "table" "table") with true.
  change (pystr_eqb "tr" "table") with false.
  change (pystr_eqb "td" "table") with false.
  cbv iota. cbn [flat_map]. rewrite app_nil_r, descendants_children.
  rewrite elems_tr_of, filter_rows_of_table.
  change (pystr_eqb "tr" "tr") with true. reflexivity.
Qed.

Lemma cells_of_tr_of (cells : list pystr) :
  cells_of (tr_of cells) = map (fun c => normalize_text (Some c)) cells.
Proof.
  unfold cells_of, xpath_desc, tr_of. rewrite descendants_tr, filter_tds.
  change (pystr_eqb "td" "td") with true. cbv iota. rewrite map_map.
  apply map_ext. intros c. cbn [td text_content map concat].
  now rewrite app_nil_r.
Qed.

Lemma keeps_tr_of (cells : list pystr) :
  2 <= length cells -> keeps (tr_of cells) = true.
Proof.
  intros Hlen. apply keeps_iff. split.
  - unfold xpath_desc, tr_of. rewrite descendants_tr, filter_tds. reflexivity.
  - now rewrite cells_of_tr_of, length_map.
Qed.

(** The rows of the page, each with its cells normalized. *)
Lemma parse_tables_page_of_rows (rows : list (list pystr)) :
  Forall (fun cells => 2 <= length cells) rows ->
  parse_tables (page_of_rows rows)
  = map (fun cells => firstn 10 (pad (map (fun c => normalize_text (Some c)) cells)))
        rows.
Proof.
  intros Hrows. rewrite parse_tables_table_rows, table_rows_page_of_rows.
  rewrite forallb_filter_id.
  - rewrite map_map. apply map_ext. intros cells.
    unfold row10_of. now rewrite cells_of_tr_of.
  - rewrite forallb_forall. intros tr Hin. apply in_map_iff in Hin as (cells & <- & Hin).
    rewrite Forall_forall in Hrows. now apply keeps_tr_of, Hrows.
Qed.


Lemma digits_value_from (s : pystr) (acc : Z) :
  forallb is_digit s = true -> (0 <= acc)%Z ->
  (0 <= fold_left (fun (a : Z) d => 10 * a + digit_val d) s acc)%Z.
Proof.
  revert acc. induction s as [|c s IH]; intros acc Hs Hacc; [exact Hacc|].
  cbn [forallb] in Hs. apply andb_true_iff in Hs as [Hc Hs].
  cbn [fold_left]. apply IH; [exact Hs|].
  pose proof (digit_val_range c Hc). lia.
Qed.

Lemma digits_value_nonneg (s : pystr) :
  forallb is_digit s = true -> (0 <= digits_value s)%Z.
Proof. intros Hs. apply digits_value_from; [exact Hs | lia]. Qed.

Lemma valid_pair_texts (t h : pystr) :
  clock_text t -> decimal_string h -> valid_pair (Str t) (Str h) = true.
Proof.
  intros (Ht & Hlen & Hhour & Hmin) Hh.
  destruct (all_digits_numeric t Ht) as [Htne Htnum].
  destruct (decimal_string_numeric h Hh) as [Hhne Hhnum].
  destruct (py_float_decimal h Hh) as [v Hv].
  unfold valid_pair.
  rewrite (blank_numeric t Htne Htnum), (blank_numeric h Hhne Hhnum).
  rewrite (time_fields_short t Ht Hlen). cbn [negb andb str].
  rewrite strip_word by (revert Hhnum; apply forallb_impl, numeric_char_nonspace).
  rewrite Hv, andb_true_r. unfold clock_range. cbn [fst snd].
  pose proof (digits_value_nonneg t (proj2 Ht)) as H0.
  rewrite !andb_true_iff, !Z.leb_le.
  assert (0 <= digits_value t / 100)%Z by (apply Z.div_pos; lia).
  assert (0 <= digits_value t mod 100)%Z by (apply Z.mod_pos_bound; lia).
  lia.
Qed.

Lemma full_line_row (fields : list pystr) :
  full_line fields ->
  exists mm dd t1 h1 t2 h2 t3 h3 t4 h4,
    fields = [mm; dd; t1; h1; t2; h2; t3; h3; t4; h4]
    /\ Forall (fun f => f <> [] /\ forallb numeric_char f = true) fields
    /\ read_row fields
       = mkRow (Str mm) (Str dd) (Str t1) (Str h1) (Str t2) (Str h2)
               (Str t3) (Str h3) (Str t4) (Str h4)
    /\ four_valid_pairs (read_row fields) = true.
Proof.
  intros (mm & dd & t1 & h1 & t2 & h2 & t3 & h3 & t4 & h4 & -> & Hdate
          & Ht1 & Hh1 & Ht2 & Hh2 & Ht3 & Hh3 & Ht4 & Hh4).
  exists mm, dd, t1, h1, t2, h2, t3, h3, t4, h4.
  destruct Hdate as (Hmm & Lmm & Hdd & Ldd & Rmm & Rdd).
  assert (Hnum : Forall (fun f => f <> [] /\ forallb numeric_char f = true)
                   [mm; dd; t1; h1; t2; h2; t3; h3; t4; h4]).
  { repeat constructor;
      first [ now apply all_digits_numeric
            | now apply decimal_string_numeric
            | match goal with H : clock_text ?t |- _ /\ forallb _ ?t = _ =>
                apply all_digits_numeric, H end
            | match goal with H : clock_text ?t |- ?t <> _ =>
                apply (all_digits_numeric t), H end
            | match goal with H : clock_text ?t |- forallb _ ?t = _ =>
                apply (all_digits_numeric t), H end
            | apply (all_digits_numeric _ Hmm) | apply (all_digits_numeric _ Hdd)
            | match goal with H : decimal_string ?h |- _ =>
                apply (decimal_string_numeric h H) end ]. }
  assert (Hrow : read_row [mm; dd; t1; h1; t2; h2; t3; h3; t4; h4]
                 = mkRow (Str mm) (Str dd) (Str t1) (Str h1) (Str t2) (Str h2)
                         (Str t3) (Str h3) (Str t4) (Str h4)).
  { unfold read_row. cbn [nth].
    repeat match goal with
           | H : Forall _ (?f :: _) |- _ =>
               let Hf := fresh "Hf" in
               inversion H as [|? ? Hf ?]; subst; clear H;
               rewrite (read_cell_numeric f (proj1 Hf) (proj2 Hf))
           end.
    reflexivity. }
  split; [reflexivity|]. split; [exact Hnum|]. split; [exact Hrow|].
  rewrite Hrow. unfold four_valid_pairs, date_of. cbn [Wide.month Wide.day int].
  rewrite (py_int_digits mm Hmm Lmm), (py_int_digits dd Hdd Ldd).
  replace ((1 <=? digits_value mm)%Z && (digits_value mm <=? 12)%Z
           && (1 <=? digits_value dd)%Z
           && (digits_value dd <=? days_in_month 2023 (digits_value mm))%Z)
    with true
    by (symmetry; rewrite !andb_true_iff, !Z.leb_le; lia).
  cbn [forallb t_col h_col Wide.t1 Wide.h1 Wide.t2 Wide.h2 Wide.t3 Wide.h3
       Wide.t4 Wide.h4].
  now rewrite !valid_pair_texts.
Qed.

(** A line of ten digit and decimal texts is extracted as it is. *)
Lemma full_line_extracted (fields : list pystr) :
  full_line fields ->
  firstn 10 (pad (map (fun c => normalize_text (Some c)) fields)) = fields.
Proof.
  intros H. destruct (full_line_row fields H)
    as (mm & dd & t1 & h1 & t2 & h2 & t3 & h3 & t4 & h4 & -> & Hnum & _).
  assert (Hmap : map (fun c => normalize_text (Some c))
                   [mm; dd; t1; h1; t2; h2; t3; h3; t4; h4]
                 = [mm; dd; t1; h1; t2; h2; t3; h3; t4; h4]).
  { rewrite <- (map_id [mm; dd; t1; h1; t2; h2; t3; h3; t4; h4]) at 2.
    apply map_ext_in. intros f Hin. rewrite Forall_forall in Hnum.
    destruct (Hnum f Hin). now apply normalize_text_word, numeric_word. }
  rewrite Hmap. reflexivity.
Qed.

Lemma melt_full_lines (lines : list (list pystr)) :
  Forall full_line lines ->
  exists readings,
    melt (read_csv lines) = Ok readings /\ length readings = 4 * length lines.
Proof.
  intros H.
  destruct (melt_four_valid (read_csv lines)) as (rows & Hm & Hlen).
  - unfold read_csv. rewrite forallb_forall. intros r Hin.
    apply in_map_iff in Hin as (l & <- & Hin). rewrite Forall_forall in H.
    destruct (full_line_row l (H l Hin))
      as (? & ? & ? & ? & ? & ? & ? & ? & ? & ? & _ & _ & _ & Hv).
    exact Hv.
  - exists rows. split; [exact Hm|]. unfold read_csv in Hlen.
    now rewrite length_map in Hlen.
Qed.

Lemma parse_tables_full_lines (lines : list (list pystr)) :
  Forall full_line lines -> parse_tables (page_of_rows lines) = lines.
Proof.
  intros H. rewrite parse_tables_page_of_rows.
  - rewrite <- (map_id lines) at 2. apply map_ext_in. intros l Hin.
    rewrite Forall_forall in H. now apply full_line_extracted, H.
  - revert H. apply Forall_impl. intros l Hl.
    destruct Hl as (? & ? & ? & ? & ? & ? & ? & ? & ? & ? & -> & _).
    cbn [length]. lia.
Qed.

(** Claim C5.  A page with one table of N rows, each of two data cells
    at least and no header cell, is extracted as N wide rows.  M lines
    of the wide file, each with a date of 2023 and four valid pairs (a
    time of day in up to four digits, a decimal height), are melted
    into 4*M readings; such lines come out of the extractor as they
    stand in the page, [main] writes them under the header, and the
    run of the reshaper on them writes 4*M readings. *)
Theorem round_trip_counts :
  (forall rows : list (list pystr),
      Forall (fun cells => 2 <= length cells) rows ->
      length (parse_tables (page_of_rows rows)) = length rows)
  /\ (forall lines : list (list pystr),
        Forall full_line lines ->
        exists readings,
          melt (read_csv lines) = Ok readings
          /\ length readings = 4 * length lines)
  /\ (forall sort (lines : list (list pystr)) w,
        sort_contract sort -> lines <> [] -> Forall full_line lines ->
        out_csv (main (page_of_rows lines) (Extractor.mkWorld None []))
        = Some (header :: lines)
        /\ exists long w',
             run sort (read_csv lines) w = (w', Ok long)
             /\ csv_out w' = Some long
             /\ length long = 4 * length lines).
Proof.
  split; [|split].
  - intros rows H. now rewrite (parse_tables_page_of_rows rows H), length_map.
  - exact melt_full_lines.
  - intros sort lines w Hc Hne Hfull. split.
    + unfold main. rewrite (parse_tables_full_lines lines Hfull).
      destruct lines; [contradiction | reflexivity].
    + destruct (melt_full_lines lines Hfull) as (rows & Hm & Hlen).
      assert (Hrows : rows <> []).
      { intros ->. destruct lines; [contradiction | simpl in Hlen; lia]. }
      exists (sort rows). eexists.
      split; [apply (run_ok sort (read_csv lines) w rows Hm Hrows)|].
      split; [reflexivity|].
      rewrite <- Hlen. symmetry. apply Permutation_length, Hc.
Qed.

Lemma all_digits_lit (s : pystr) :
  s <> [] -> forallb is_digit s = true -> all_digits s.
Proof. now split. Qed.

Lemma march_15_full : full_line march_15.
Proof.
  exists (lit "03"), (lit "15"), (lit "0531"), (lit "1.2"), (lit "1145"),
    (lit "0.4"), (lit "1758"), (lit "1.5"), (lit "2310"), (lit "0.3").
  split; [reflexivity|].
  unfold date_texts, clock_text, int_max_str_digits.
  repeat match goal with
         | |- _ /\ _ => split
         | |- all_digits _ => apply all_digits_lit; [discriminate | reflexivity]
         | |- decimal_string ?h =>
             let h' := eval vm_compute in h in
             match h' with
             | [?a; _; ?b] => exists false, [a], [b]
             end;
             split; [reflexivity|]
         | |- (_ <= _)%Z => vm_compute; discriminate
         | |- _ <= _ => cbn [length lit String.list_ascii_of_string]; lia
         end.
Qed.

Lemma march_18_full : full_line march_18.
Proof.
  exists (lit "03"), (lit "18"), (lit "712"), (lit "1.1"), (lit "1302"),
    (lit "0.5"), (lit "1931"), (lit "1.4"), (lit "2359"), (lit "0.6").
  split; [reflexivity|].
  unfold date_texts, clock_text, int_max_str_digits.
  repeat match goal with
         | |- _ /\ _ => split
         | |- all_digits _ => apply all_digits_lit; [discriminate | reflexivity]
         | |- decimal_string ?h =>
             let h' := eval vm_compute in h in
             match h' with
             | [?a; _; ?b] => exists false, [a], [b]
             end;
             split; [reflexivity|]
         | |- (_ <= _)%Z => vm_compute; discriminate
         | |- _ <= _ => cbn [length lit String.list_ascii_of_string]; lia
         end.
Qed.

Lemma round_trip_counts_witness :
  (Forall (fun cells => 2 <= length cells) [march_15; march_18]
   /\ Forall full_line [march_15; march_18]
   /\ sort_contract merge_sort)
  /\ length (parse_tables (page_of_rows [march_15; march_18])) = 2
  /\ out_csv (main (page_of_rows [march_15; march_18]) (Extractor.mkWorld None []))
     = Some [header; march_15; march_18]
  /\ exists long w',
       run merge_sort (read_csv [march_15; march_18]) empty_world = (w', Ok long)
       /\ csv_out w' = Some long
       /\ length long = 8.
Proof.
  assert (H2 : Forall (fun cells => 2 <= length cells) [march_15; march_18])
    by (repeat constructor; cbn [length march_15 march_18]; lia).
  assert (Hf : Forall full_line [march_15; march_18])
    by (repeat constructor; [exact march_15_full | exact march_18_full]).
  assert (Hne : [march_15; march_18] <> []) by discriminate.
  split; [exact (conj H2 (conj Hf merge_sort_contract))|].
  split; [exact (proj1 round_trip_counts [march_15; march_18] H2)|].
  exact (proj2 (proj2 round_trip_counts) merge_sort [march_15; march_18]
           empty_world merge_sort_contract Hne Hf).
Defined.

End RoundTripCounts.

(* ================================================================= *)
(** ** From the extractor's file to the reshaper's frame *)

Section Pipeline.

Lemma read_cell_tidy (ws : list pystr) :
  Forall word ws -> missing_or_tidy (read_cell (join [space] ws)).
Proof.
  intros Hws. unfold read_cell, missing_or_tidy.
  destruct (existsb _ na_values) eqn:E; [now left|]. right.
  exists (join [space] ws). split; [reflexivity|]. split; [|split].
  - intros Hnil. rewrite Hnil in E. vm_compute in E. discriminate.
  - now apply strip_join.
  - now apply normalize_text_join.
Qed.

Lemma missing_or_tidy_blank (c : cell) :
  missing_or_tidy c -> blank c = isna c.
Proof.
  intros [-> | (f & -> & Hne & Hs & _)]; [reflexivity|].
  unfold blank. cbn [isna str orb]. rewrite Hs.
  destruct (pystr_eqb f []) eqn:E; [|reflexivity].
  apply pystr_eqb_eq in E. contradiction.
Qed.

Lemma read_row_cells (fields : list pystr) :
  row_cells (read_row fields)
  = map (fun k => read_cell (nth k fields [])) (seq 0 10).
Proof. reflexivity. Qed.

(** In the frame read from the file the extractor wrote, every cell is
    missing or holds a normalized text that is not empty; so the
    reshaper's test for a blank cell is there the test for a missing
    one, and its [strip] calls change nothing. *)
Theorem extracted_cells_are_missing_or_tidy (tree : node) :
  Forall (fun r =>
            Forall (fun c => missing_or_tidy c /\ blank c = isna c)
                   (row_cells r))
         (read_csv (parse_tables tree)).
Proof.
  unfold read_csv. rewrite parse_tables_table_rows, !Forall_map, Forall_forall.
  intros tr _. rewrite read_row_cells, Forall_map, Forall_forall.
  intros k _.
  assert (H : missing_or_tidy (read_cell (nth k (row10_of tr) []))).
  { destruct (nth_in_or_default k (row10_of tr) []) as [Hin | ->].
    - destruct (row10_field tr _ Hin) as (ws & Hws & ->).
      now apply read_cell_tidy.
    - apply (read_cell_tidy []). constructor. }
  split; [exact H | now apply missing_or_tidy_blank].
Qed.

End Pipeline.

(* ================================================================= *)
(** ** The frame by column names against the frame of rows *)

Section ColumnNames.

Lemma lookup_app (c : pystr) (r r' : Series) :
  lookup c (r ++ r')
  = match lookup c r with Some v => Some v | None => lookup c r' end.
Proof.
  induction r as [|[k v] r IH]; [reflexivity|].
  cbn [app lookup]. destruct (pystr_eqb c k); [reflexivity | exact IH].
Qed.

Lemma lookup_combine (c : pystr) (cols : list pystr) (row : list cell) :
  length row = length cols ->
  (existsb (pystr_eqb c) cols = true <-> lookup c (combine cols row) <> None).
Proof.
  revert row. induction cols as [|k cols IH]; intros [|v row] Hlen;
    try discriminate Hlen.
  - cbn. split; [discriminate | congruence].
  - cbn [existsb combine lookup]. destruct (pystr_eqb c k).
    + split; [discriminate | reflexivity].
    + apply IH. now injection Hlen.
Qed.

Lemma combine_snoc (A B : Type) (l : list A) (l' : list B) (a : A) (b : B) :
  length l' = length l ->
  combine (l ++ [a]) (l' ++ [b]) = combine l l' ++ [(a, b)].
Proof.
  revert l'. induction l as [|x l IH]; intros [|y l'] Hlen;
    try discriminate Hlen; [reflexivity|].
  cbn [app combine]. f_equal. apply IH. now injection Hlen.
Qed.

(** One turn of the column loop, row by row. *)
Lemma ensure_column_rows (df : Frame) (c : pystr) :
  rectangular df ->
  rectangular (ensure_column df c)
  /\ iterrows (ensure_column df c) = map (fun r => fill1 r c) (iterrows df).
Proof.
  intros Hrect. unfold ensure_column, iterrows, rectangular in *.
  destruct (existsb (pystr_eqb c) (columns df)) eqn:E.
  - split; [exact Hrect|]. rewrite map_map. apply map_ext_in. intros row Hrow.
    rewrite Forall_forall in Hrect. unfold fill1.
    destruct (lookup c (combine (columns df) row)) eqn:El; [reflexivity|].
    apply (lookup_combine c _ row (Hrect row Hrow)) in E. contradiction.
  - cbn [columns values]. split.
    + rewrite Forall_map. revert Hrect. apply Forall_impl. intros row Hlen.
      rewrite !length_app. cbn [length]. lia.
    + rewrite !map_map. apply map_ext_in. intros row Hrow.
      rewrite Forall_forall in Hrect.
      rewrite (combine_snoc _ _ _ row c NaN (Hrect row Hrow)). unfold fill1.
      destruct (lookup c (combine (columns df) row)) eqn:El; [|reflexivity].
      assert (Hex : existsb (pystr_eqb c) (columns df) = true)
        by (apply (lookup_combine c _ row (Hrect row Hrow)); congruence).
      congruence.
Qed.

Lemma fold_ensure_rows (cs : list pystr) (df : Frame) :
  rectangular df ->
  iterrows (fold_left ensure_column cs df)
  = map (fun r => fold_left fill1 cs r) (iterrows df).
Proof.
  revert df. induction cs as [|c cs IH]; intros df Hrect; cbn [fold_left].
  - now rewrite map_id.
  - destruct (ensure_column_rows df c Hrect) as [Hrect' Hrows].
    rewrite (IH _ Hrect'), Hrows, map_map. reflexivity.
Qed.

Lemma lookup_fill1_same (r : Series) (c : pystr) :
  lookup c (fill1 r c) = Some (get r c NaN).
Proof.
  unfold fill1, get. destruct (lookup c r) eqn:E; [exact E|].
  rewrite lookup_app, E. cbn [lookup].
  assert (Hcc : pystr_eqb c c = true) by now apply pystr_eqb_eq.
  now rewrite Hcc.
Qed.

Lemma lookup_fill1_keeps (r : Series) (c c' : pystr) (v : cell) :
  lookup c r = Some v -> lookup c (fill1 r c') = Some v.
Proof.
  intros H. unfold fill1. destruct (lookup c' r); [exact H|].
  now rewrite lookup_app, H.
Qed.

Lemma get_fill1 (r : Series) (c c' : pystr) :
  get (fill1 r c') c NaN = get r c NaN.
Proof.
  unfold get at 1. destruct (pystr_eqb c c') eqn:E.
  - apply pystr_eqb_eq in E. subst c'. now rewrite lookup_fill1_same.
  - unfold fill1, get. destruct (lookup c' r); [reflexivity|].
    rewrite lookup_app. destruct (lookup c r); [reflexivity|].
    cbn [lookup]. now rewrite E.
Qed.

Lemma lookup_fold_keeps (cs : list pystr) (r : Series) (c : pystr) (v : cell) :
  lookup c r = Some v -> lookup c (fold_left fill1 cs r) = Some v.
Proof.
  revert r. induction cs as [|c' cs IH]; intros r H; [exact H|].
  cbn [fold_left]. apply IH. now apply lookup_fill1_keeps.
Qed.

(** After the column loop every expected label is there, with the cell
    the row had under it, or a missing one. *)
Lemma lookup_fold_fill (cs : list pystr) (r : Series) (c : pystr) :
  In c cs -> lookup c (fold_left fill1 cs r) = Some (get r c NaN).
Proof.
  revert r. induction cs as [|c' cs IH]; intros r Hin; [destruct Hin|].
  cbn [fold_left]. destruct Hin as [-> | Hin].
  - apply lookup_fold_keeps, lookup_fill1_same.
  - rewrite (IH _ Hin). now rewrite get_fill1.
Qed.

Lemma for_each_ext (A S : Type) (body body' : S -> A -> result S) (xs : list A) :
  (forall s x, In x xs -> body s x = body' s x) ->
  forall s, for_each xs body s = for_each xs body' s.
Proof.
  induction xs as [|x xs IH]; intros H s; [reflexivity|].
  cbn [for_each]. rewrite (H s x) by now left.
  destruct (body' s x); cbn [bind]; [|reflexivity].
  apply IH. intros s' y Hy. apply H. now right.
Qed.

Lemma for_each_map (A B S : Type) (f : A -> B) (body : S -> B -> result S)
  (xs : list A) (s : S) :
  for_each (map f xs) body s = for_each xs (fun s x => body s (f x)) s.
Proof.
  revert s. induction xs as [|x xs IH]; intros s; [reflexivity|].
  cbn [map for_each]. destruct (body s (f x)); cbn [bind]; [apply IH | reflexivity].
Qed.

Lemma series_slot_body_as_Row (r : Series) (R : Row) (mo d : Z)
  (rows : list Reading) (i : Z) :
  get r (t_name i) (Str []) = t_col i R ->
  get r (h_name i) (Str []) = h_col i R ->
  series_slot_body r mo d rows i = slot_body R mo d rows i.
Proof.
  intros Ht Hh. unfold series_slot_body, slot_body. now rewrite Ht, Hh.
Qed.

(** A row after the column loop is melted as the row of its ten cells. *)
Lemma series_row_body_filled (r : Series) (rows : list Reading) :
  series_row_body rows (fold_left fill1 expected r) = row_body rows (as_Row r).
Proof.
  assert (L : forall c, In c expected ->
                lookup c (fold_left fill1 expected r) = Some (get r c NaN))
    by (intros c; apply lookup_fold_fill).
  unfold series_row_body, row_body, getitem.
  rewrite (L "month") by (cbn; tauto). cbn [bind as_Row Wide.month Wide.day].
  destruct (int (get r "month" NaN)) as [mo|]; cbn [bind]; [|reflexivity].
  rewrite (L "day") by (cbn; tauto). cbn [bind].
  destruct (int (get r "day" NaN)) as [d|]; cbn [bind]; [|reflexivity].
  apply for_each_ext. intros s i Hi.
  apply series_slot_body_as_Row; unfold get at 1;
    destruct Hi as [<- | [<- | [<- | [<- | []]]]];
    match goal with
    | |- context [lookup ?c _] =>
        let c' := eval vm_compute in c in
        change c with c'; rewrite (L c') by (vm_compute; tauto)
    end; reflexivity.
Qed.

(** The loop by column names is the melt of the rows of ten cells. *)
Lemma script_melt_as_Rows (df : Frame) :
  rectangular df -> script_melt df = melt (map as_Row (iterrows df)).
Proof.
  intros Hrect. unfold script_melt, fill_expected, melt.
  rewrite (fold_ensure_rows expected df Hrect), !for_each_map.
  apply for_each_ext. intros s r _. apply series_row_body_filled.
Qed.

Lemma melt_blank_slot (df : DataFrame) (i : Z) (rows : list Reading) :
  In i [1; 2; 3; 4]%Z ->
  Forall (fun r => blank (t_col i r) || blank (h_col i r) = true) df ->
  melt df = Ok rows -> Forall (fun rd => pair rd <> i) rows.
Proof.
  intros Hi Hdf. revert rows. induction Hdf as [|r df Hr _ IH]; intros rows.
  - intros [= <-]. constructor.
  - rewrite melt_cons.
    destruct (row_body [] r) as [rs|] eqn:Er; cbn [bind]; [|discriminate].
    destruct (melt df) as [rest|]; cbn [bind]; [|discriminate].
    intros [= <-]. apply Forall_app. split; [|now apply IH].
    destruct (row_body_blank_slot [] rs r i Hi Hr Er) as (l & -> & Hl). exact Hl.
Qed.

Lemma get_absent_label (df : Frame) (c : pystr) (r : Series) :
  rectangular df -> existsb (pystr_eqb c) (columns df) = false ->
  In r (iterrows df) -> get r c NaN = NaN.
Proof.
  intros Hrect Hc Hr. unfold iterrows in Hr.
  apply in_map_iff in Hr as (row & <- & Hrow).
  unfold rectangular in Hrect. rewrite Forall_forall in Hrect.
  unfold get. destruct (lookup c (combine (columns df) row)) eqn:E; [|reflexivity].
  assert (Hex : existsb (pystr_eqb c) (columns df) = true)
    by (apply (lookup_combine c _ row (Hrect row Hrow)); congruence).
  congruence.
Qed.

(** On any frame [read_csv] can return (distinct labels, rows as long
    as the header), lines 26-65 melt the rows as
    rows of ten cells in which a column the file lacks reads as
    missing, whatever the order of the columns and whatever other
    columns there are; in particular [r['month']] and [r['day']] never
    raise [KeyError]: what leaves the loop is a [ValueError] or the
    [OverflowError] of [pd.Timestamp]. *)
Theorem script_melt_reads_by_label (df : Frame) :
  frame_ok df ->
  script_melt df = melt (map as_Row (iterrows df))
  /\ forall e, script_melt df = Raise e -> e = ValueError \/ e = OverflowError.
Proof.
  intros [_ Hrect]. rewrite (script_melt_as_Rows df Hrect).
  split; [reflexivity | apply melt_raises].
Qed.

Lemma frame_without_t3_ok : frame_ok frame_without_t3.
Proof.
  split; [|repeat constructor].
  repeat constructor; simpl; intuition discriminate.
Qed.

Lemma frame_without_month_ok : frame_ok frame_without_month.
Proof.
  split; [|repeat constructor].
  repeat constructor; simpl; intuition discriminate.
Qed.

Lemma script_melt_reads_by_label_witness :
  frame_ok frame_without_t3
  /\ script_melt frame_without_t3
     = melt (map as_Row (iterrows frame_without_t3))
  /\ forall e, script_melt frame_without_t3 = Raise e ->
       e = ValueError \/ e = OverflowError.
Proof.
  split; [exact frame_without_t3_ok|].
  apply (script_melt_reads_by_label frame_without_t3 frame_without_t3_ok).
Defined.

(** A file that lacks the [month] or the [day] column ends the loop
    with [ValueError] at its first row; one that lacks the time or the
    height column of a slot gives no reading of that slot, and no
    error for it. *)
Theorem files_lacking_columns (df : Frame) :
  frame_ok df ->
  (existsb (pystr_eqb "month") (columns df) = false
   \/ existsb (pystr_eqb "day") (columns df) = false ->
   values df <> [] -> script_melt df = Raise ValueError)
  /\ (forall i rows,
        In i [1; 2; 3; 4]%Z ->
        existsb (pystr_eqb (t_name i)) (columns df) = false
        \/ existsb (pystr_eqb (h_name i)) (columns df) = false ->
        script_melt df = Ok rows -> Forall (fun rd => pair rd <> i) rows).
Proof.
  intros [_ Hrect]. rewrite (script_melt_as_Rows df Hrect). split.
  - intros Hc Hne.
    unfold iterrows. destruct (values df) as [|row rest] eqn:Ev; [contradiction|].
    cbn [map]. rewrite melt_cons, row_body_bad_date; [reflexivity|].
    assert (Hin : In (combine (columns df) row) (iterrows df))
      by (unfold iterrows; rewrite Ev; now left).
    unfold bad_date. cbn [as_Row Wide.month Wide.day].
    destruct Hc as [Hc|Hc]; [left | right];
      now rewrite (get_absent_label df _ _ Hrect Hc Hin).
  - intros i rows Hi Hc. apply melt_blank_slot; [exact Hi|].
    rewrite Forall_map, Forall_forall. intros r Hr.
    destruct Hi as [<- | [<- | [<- | [<- | []]]]];
      match type of Hc with
      | existsb (pystr_eqb (t_name ?k)) _ = false \/ _ =>
          change (blank (get r (t_name k) NaN) || blank (get r (h_name k) NaN)
                  = true);
          destruct Hc as [Hc|Hc];
          [ rewrite (get_absent_label df (t_name k) r Hrect Hc Hr); reflexivity
          | rewrite (get_absent_label df (h_name k) r Hrect Hc Hr);
            apply orb_true_r ]
      end.
Qed.

Lemma files_lacking_columns_witness :
  (frame_ok frame_without_month
   /\ existsb (pystr_eqb "month") (columns frame_without_month) = false
   /\ values frame_without_month <> [])
  /\ script_melt frame_without_month = Raise ValueError.
Proof.
  assert (Hne : values frame_without_month <> []) by discriminate.
  split; [split; [exact frame_without_month_ok | split; [reflexivity | exact Hne]]|].
  apply (proj1 (files_lacking_columns frame_without_month frame_without_month_ok));
    [left; reflexivity | exact Hne].
Defined.

End ColumnNames.

(* ================================================================= *)
(** ** The order of the rows of the wide file *)

Section RowOrder.

Lemma melt_cons_ok (r : Row) (df : DataFrame) (rows : list Reading) :
  melt (r :: df) = Ok rows <->
  exists rs rest, row_body [] r = Ok rs /\ melt df = Ok rest /\ rows = rs ++ rest.
Proof.
  rewrite melt_cons. split.
  - destruct (row_body [] r) as [rs|]; cbn [bind]; [|discriminate].
    destruct (melt df) as [rest|]; cbn [bind]; [|discriminate].
    intros [= <-]. now exists rs, rest.
  - intros (rs & rest & -> & -> & ->). reflexivity.
Qed.

(** The melt of the same rows in another order gives the same
    readings, in another order. *)
Lemma melt_Permutation (df df' : DataFrame) :
  Permutation df df' ->
  forall rows, melt df = Ok rows ->
  exists rows', melt df' = Ok rows' /\ Permutation rows rows'.
Proof.
  induction 1 as [| r l l' _ IH | x y l | l l' l'' _ IH1 _ IH2]; intros rows Hm.
  - now exists rows.
  - apply melt_cons_ok in Hm as (rs & rest & Hr & Hrest & ->).
    destruct (IH rest Hrest) as (rest' & Hm' & Hp).
    exists (rs ++ rest'). split; [|now apply Permutation_app_head].
    apply melt_cons_ok. now exists rs, rest'.
  - apply melt_cons_ok in Hm as (ry & rest & Hy & Hrest & ->).
    apply melt_cons_ok in Hrest as (rx & rest' & Hx & Hrest' & ->).
    exists (rx ++ ry ++ rest'). split; [|apply Permutation_app_swap_app].
    apply melt_cons_ok. exists rx, (ry ++ rest'). repeat split; [exact Hx|].
    apply melt_cons_ok. now exists ry, rest'.
  - destruct (IH1 rows Hm) as (rows' & Hm' & Hp).
    destruct (IH2 rows' Hm') as (rows'' & Hm'' & Hp').
    exists rows''. split; [exact Hm'' | now apply Permutation_trans with rows'].
Qed.

Lemma sorted_distinct_strict (l : list Reading) :
  Sorted le_dt l -> NoDup (map (fun rd => value (datetime rd)) l) ->
  StronglySorted lt_dt l.
Proof.
  intros Hs Hnd. apply Sorted_StronglySorted in Hs; [|exact le_dt_trans].
  induction Hs as [|a l Hs IH Ha]; [constructor|].
  cbn [map] in Hnd. inversion Hnd as [|? ? Hnotin Hnd']; subst.
  constructor; [now apply IH|].
  rewrite Forall_forall in *. intros b Hb. specialize (Ha b Hb).
  unfold le_dt, lt_dt in *.
  assert (Hneq : value (datetime a) <> value (datetime b)).
  { intros E. apply Hnotin. rewrite E.
    now apply (in_map (fun rd => value (datetime rd))). }
  lia.
Qed.

(** Where no two readings share a [datetime], the long file does not
    depend on the order of the rows of the wide file: the run on the
    same rows in another order writes the same readings in the same
    order. *)
Theorem long_file_ignores_row_order
  (sort : list Reading -> list Reading) (df df' : DataFrame)
  (w w1 : Reshaper.world) (long : list Reading) :
  sort_contract sort ->
  Permutation df df' ->
  run sort df w = (w1, Ok long) ->
  NoDup (map (fun rd => value (datetime rd)) long) ->
  run sort df' w = (w1, Ok long).
Proof.
  intros Hc Hp Hrun Hnd.
  apply run_inv in Hrun as Hinv. destruct Hinv as (rows & Hm & Hne & Hlong & _).
  destruct (melt_Permutation df df' Hp rows Hm) as (rows' & Hm' & Hp').
  assert (Hne' : rows' <> []).
  { intros ->. apply Permutation_sym, Permutation_nil in Hp'. contradiction. }
  rewrite (run_ok sort df w rows Hm Hne) in Hrun.
  rewrite (run_ok sort df' w rows' Hm' Hne').
  destruct (Hc rows) as [Hs Hps]. destruct (Hc rows') as [Hs' Hps'].
  assert (E : sort rows' = sort rows).
  { apply sorted_strict_unique; [| | exact Hs'].
    - apply sorted_distinct_strict; [exact Hs | now rewrite <- Hlong].
    - apply Permutation_trans with rows; [now apply Permutation_sym|].
      now apply Permutation_trans with rows'. }
  rewrite E. exact Hrun.
Qed.

Lemma long_file_ignores_row_order_witness :
  (sort_contract merge_sort
   /\ Permutation (read_csv [march_16; march_15]) (read_csv [march_15; march_16])
   /\ NoDup (map (fun rd => value (datetime rd))
                 (march_15_readings
                  ++ [reading 3 16 6 1 (PyDec false 13 (-1)) 1;
                      reading 3 16 18 30 (PyDec false 16 (-1)) 3])))
  /\ run merge_sort (read_csv [march_15; march_16]) empty_world
     = run merge_sort (read_csv [march_16; march_15]) empty_world.
Proof.
  assert (Hp : Permutation (read_csv [march_16; march_15])
                           (read_csv [march_15; march_16]))
    by apply perm_swap.
  assert (Hnd : NoDup (map (fun rd => value (datetime rd))
                 (march_15_readings
                  ++ [reading 3 16 6 1 (PyDec false 13 (-1)) 1;
                      reading 3 16 18 30 (PyDec false 16 (-1)) 3]))).
  { vm_compute. repeat constructor; simpl; intuition discriminate. }
  split; [split; [exact merge_sort_contract | split; [exact Hp | exact Hnd]]|].
  rewrite (long_file_ignores_row_order merge_sort
             (read_csv [march_16; march_15]) (read_csv [march_15; march_16])
             empty_world _ _ merge_sort_contract Hp eq_refl Hnd).
  reflexivity.
Defined.

End RowOrder.
